(* ===== verification/_CoqProject ===== *)
-Q . S2P
Prelude.v
PyStr.v
Phone.v
Notary.v
Dedup.v
Html.v
HtmlParse.v
Extract.v
Csv.v
CsvFile.v
Crawl.v
Fetch.v
Loop.v
Script.v
