(* ===== verification/Prelude.v ===== *)
(** * A verified model of asyncScrapp (src/asyncNotary.py)

    The program crawls the notary directory of notaires.fr. [main] fetches
    the listing pages 0..[pageNb] one after the other; on each it finds the
    notary cards, and [get_endpoints] fetches the detail page of every card
    concurrently, collecting the pages with [asyncio.as_completed], in
    completion order. Five extractors read the contact fields of each
    detail page into a [Notary]. [sort_notaries] collapses the records
    that share the key (address, formatted phone, mail) into one canonical
    record and sorts by the key; [format_notary] and pandas write the CSV,
    and [remove_empty_rows] reads it back, drops the rows whose fields are
    all empty and writes it again. [main] prints two counts; the module's
    top level sets a Windows event-loop policy, runs [main] and prints the
    elapsed time.

    ** Files, modules and what they model (library root: the directory)

    - [Prelude] (this file): Python strings as lists of code points
      ([pystr]); the exceptions the code can raise ([exc]); the result
      monad [res] ("returns a value or raises", with stdpp's [x ← c; k]
      notation); [except_attr] for [except AttributeError: return ""];
      [res_all] for a loop that stops at the first exception; the
      [py_scope] literals ([py "..."]); the [pyx] hint database; the
      shared lemmas on [res] and lists; the tactic [inv_bind].
    - [PyStr] (Module [PyStr]): the str builtins the code calls, with
      CPython's semantics: [re.sub("[^0-9]", "", s)] ([keep_digits]),
      slices ([slice]), [range], [sep.join] ([join]), [l[i]] ([get], which
      raises [IndexError]), [s.split(sep)] ([split_sep]), [s.split()]
      ([split_ws], CPython's whitespace table), [startswith], [replace],
      the code-point order of [<] ([compare]) and [str(n)] ([str]).
    - [Phone] (Module [Phone]): [format_phone_number] (lines 40-43).
    - [Notary] (Module [Notary]): the [Notary] class. It is imported from
      a module that is not in the repository, so it is modelled from the
      spec: a record of five strings and its getters.
    - [Dedup] (Module [Dedup]): [sort_notaries] (lines 96-129). The dict is
      an association list in insertion order ([dict], [dict_add],
      [group]); the scan for the canonical record ([find_matching],
      [resolve_group], [resolve_groups]) carries its [IndexError] path;
      [list.sort(key=...)] is a stable insertion sort on the key tuple
      ([sort_by_key]). A specification ([group_spec], [dedup_spec]) states
      the contract with filters and sortedness, without the dict.
    - [Html] (Module [Html]): the part of BeautifulSoup the code calls
      ([find], [find_all], [.text], [tag[attr]], multi-valued [class_]),
      an external library modelled from its documented semantics; and
      the Python-level calls on a value that may be [None] ([find_],
      [text_], [subscript]), which raise [AttributeError] or [TypeError].
    - [HtmlParse] (Module [HtmlParse]): [BeautifulSoup(text,
      'html.parser')] itself (line 17). Python's [HTMLParser] is a
      tokenizer state machine ([lstate], [lstep], [lex_from], [tokenize])
      on a fragment of HTML: lower-case tags, quoted attributes, text
      without [<] or [&]. It returns [None] outside that fragment. bs4's
      tree builder ([bstep], [build]) is modelled on every event
      sequence, with its attribute dict, the whitespace collapse of
      [endData], [_popToTag] and the closing of open tags at the end.
    - [Extract] (Module [Extract]): [get_name], [get_phone], [get_mail],
      [get_website], [get_address] (lines 33-77), each a [res] chain of
      [Html] calls under [except_attr].
    - [Csv] (Module [Csv]): [format_notary] (lines 80-93) and
      [remove_empty_rows] (lines 132-135) on rows, with pandas' NA strings
      on reading, NaN written as an empty field, and [EmptyDataError] when
      there is no record.
    - [CsvFile] (Module [CsvFile]): the same on the text of notaries.csv:
      [to_csv] through Python's [csv.writer] ([write_csv], [QUOTE_MINIMAL]
      quoting) and [read_csv] as pandas' C tokenizer, a state machine over
      the characters ([tstep], folded by [tokenize]) with its states for
      quoted fields, CR/LF line ends, blank lines skipped (a line of
      spaces and tabs included), a leading BOM skipped and [ParserError]
      at the end of the text inside a quoted field; no record at all is
      [EmptyDataError].
    - [Crawl] (Module [Crawl]): [swoup], [get_endpoints] and [main]
      (lines 15-30, 138-162). The network and the parser are the [Web]
      type class ([http_get], [parse_html]); the theorems about [main] are
      proved in a Section over any [Web] instance, and the examples use a
      table of pages ([table_web]). [as_completed] takes the completion
      order as an argument (a list of task indices), and a schedule
      ([nat -> list nat]) gives one order per listing page; a schedule is
      valid when each order is a permutation of the page's tasks. The
      event loop is single-threaded and the pages are awaited one after
      the other, so a run is the sequential composition [crawl_pages].
      [http_get] returns the status code with the text, as
      [session.get(url)] and [response.text()] do, and [None] for a
      transport failure.
    - [Fetch] (Module [Fetch]): what [swoup] makes of a response (lines
      15-17), and how many records a run gathers: [body_of] (what the
      code can see of a response), a site whose fifth detail page answers
      404 ([site_404], [status_404]), and the number of cards of the
      listing pages ([cards_total]).
    - [Loop] (Module [Loop]): the page loop of [main] as a transition
      system: states [cstate] (running with the pages left and the records
      so far, finished, or crashed), one transition per iteration
      ([step], with the executable [next]), in the style of a small-step
      semantics with stdpp's [rtc] and [nsteps].
    - [Script] (Module [Script]): the end of [main] and the top level
      (lines 155-169): the DataFrame written as text ([notaries_csv]),
      [remove_empty_rows] on that text ([remove_empty_rows_file]), the
      platform check of line 165, [asyncio.run(main())], the three lines
      printed, the text left in notaries.csv and the exception that
      escapes, as an [outcome].

    ** Theorems

    - Dedup: [sort_notaries] refines [dedup_spec] (output strictly sorted
      by key, the same key set as the input, each kept record the
      canonical pick of its group); the dict loop equals [group_spec];
      the canonical pick (first match, else first record) and the exact
      condition of the [IndexError] (a whitespace-only name before the
      first match in a group of two or more), so the order of a group
      decides whether the call raises; idempotence; dependence on the
      input only through the per-key groups.
    - Crawl: the counts and the keys of the result do not depend on the
      completion order; the crawled records are a permutation of each
      other under two valid schedules; distinct pages have distinct URLs.
    - Fetch: [main] depends on a web only through its bodies and its
      parser, never on status codes (the spec calls a non-2xx answer
      fatal); the bounds on the counts of a run: exactly one record per
      card, between one and that many kept, at most one row per kept
      record; every row written comes from a kept record, with no NA
      string and one field that is not one.
    - HtmlParse: parsing inverts rendering on the well-formed fragment
      (the tokenizer gives the tree's events, the builder rebuilds the
      tree).
    - Extract: [get_name], [get_phone], [get_address] never raise;
      [get_mail] and [get_website] raise exactly [TypeError] or [KeyError]
      on a block without a usable link; [get_mail] removes every
      "mailto:" of the link, not only the scheme.
    - Phone: the digits kept (the first ten), the length (between 4 and
      14), the five-group shape for ten digits and more, and the partial
      groups padded with spaces on short numbers.
    - Loop: every reachable state of the transition system holds
      well-formed records, so every record and row [main] outputs is well
      formed.
    - Csv and CsvFile: the tokenizer inverts the writer (fields with
      delimiters, quotes, line breaks, leading blanks); the text-level
      pipeline refines the row-level one.
    - Script: with no record the script stops with [EmptyDataError] and
      leaves a one-line file; the printed counts read back as the counts;
      the file left on disk reads back as the header and [main]'s rows.

    ** Fuel and bounds

    [split_sep s sep] runs [split_sep_fuel] with fuel [length s + 1]: each
    step consumes at least [length sep >= 1] characters, and
    [split_sep_fuel_stable] shows that any fuel above [length s] gives the
    same parts, so the fuel never runs out. [range] runs on fuel
    [stop - start], which is at least the number of elements for a
    positive step. [str] (the decimal digits of a page number) runs on
    fuel [n + 1], enough since each step divides by ten ([str_fuel_value]
    reads the value back with that fuel). The page loop takes at most
    [pageNb + 2 = 12] transitions ([running_reaches_final]). The HTML
    tokenizer is structural recursion on the text and the tree builder a
    fold over the events, with [_popToTag] a bounded iteration of
    [popTag], so they need no fuel; the CSV tokenizer is a fold over the
    characters. Python's integers are unbounded and the code does no
    fixed-width arithmetic, so naturals are used; the bounds that matter
    are the counts of records ([main_counts]) and the length of a
    formatted phone number, always [min 10 digits + 4] characters.

    ** Not modelled

    The progress bar of [tqdm] (it writes to stderr, not to the outcome);
    the value of [time.time()] (the text of the elapsed time is an
    argument of [script]); aiohttp's session, transport and charset
    detection (a [Web] instance gives the decoded text: a failed request is
    [TransportError]); [html.parser] outside its modelled fragment
    (comments, declarations, character references, void and raw-text
    elements, unquoted or upper-case markup: there the tokenizer says
    [None] rather than guess what CPython's version-dependent recovery
    does), so [Crawl]'s examples and most theorems take the parsed tree
    as the input of the model; pandas' type
    inference in [read_csv] (a column whose values all look like numbers
    would be read as numbers); the file system beyond the text of the one
    file written. *)

From Stdlib Require Import Ascii String NArith.
From stdpp Require Import base list decidable.
Export String.StringSyntax.

Declare Scope py_scope.
Delimit Scope py_scope with py.

(** A Python [str] is a sequence of Unicode code points. *)
Abbreviation char := N (only parsing).
Abbreviation pystr := (list N) (only parsing).

(** The exceptions the modelled code can raise, pandas' included. *)
Inductive exc :=
  | AttributeError
  | KeyError
  | TypeError
  | IndexError
  | TransportError
  | EmptyDataError
  | ParserError.

#[export] Instance exc_eq_dec : EqDecision exc.
Proof. solve_decision. Defined.

(** A computation that returns a value or raises. *)
Inductive res (A : Type) : Type :=
  | Ok (a : A)
  | Err (e : exc).
Arguments Ok {A} a.
Arguments Err {A} e.

#[export] Instance res_ret : MRet res := @Ok.
#[export] Instance res_bind : MBind res :=
  fun A B f r => match r with Ok a => f a | Err e => Err e end.

(** [try: ... except AttributeError: return ""] *)
Definition except_attr (r : res pystr) : res pystr :=
  match r with
  | Err AttributeError => Ok []
  | r => r
  end.

(** A list of results succeeds when each one does. *)
Fixpoint res_all {A} (rs : list (res A)) : res (list A) :=
  match rs with
  | [] => Ok []
  | r :: rs' => x ← r; xs ← res_all rs'; Ok (x :: xs)
  end.

(** Literals: an ASCII string literal as a [pystr]. *)
Definition py (s : string) : pystr := map N_of_ascii (list_ascii_of_string s).
Arguments py s%_string.
Open Scope py_scope.

(** [r] can raise no exception other than [e0]. *)
Definition only_raises {A} (e0 : exc) (r : res A) : Prop := forall e, r = Err e -> e = e0.

(** * Shared lemmas *)

Create HintDb pyx discriminated.

Lemma bind_Ok_inv {A B} (r : res A) (f : A -> res B) b :
  (r ≫= f) = Ok b -> exists a, r = Ok a /\ f a = Ok b.
Proof. destruct r; simpl; [eauto | discriminate]. Qed.

Lemma only_raises_Ok {A} e0 (a : A) : only_raises e0 (Ok a).
Proof. intros e H. discriminate. Qed.

Lemma only_raises_bind {A B} e0 (r : res A) (f : A -> res B) :
  only_raises e0 r -> (forall a, only_raises e0 (f a)) -> only_raises e0 (r ≫= f).
Proof. intros Hr Hf e. destruct r as [a|e']; simpl; [exact (Hf a e)|]. intros [= ->]. by apply (Hr e). Qed.

#[export] Hint Resolve only_raises_Ok only_raises_bind : pyx.

Lemma res_all_Ok {A} (rs : list (res A)) (xs : list A) :
  res_all rs = Ok xs <-> rs = map Ok xs.
Proof.
  split.
  - revert xs; induction rs as [|r rs IH]; intros xs H; simpl in H.
    + by injection H as <-.
    + destruct r as [x|]; simpl in H; [|discriminate].
      destruct (res_all rs) as [ys|] eqn:E; simpl in H; [|discriminate].
      injection H as <-. simpl. by rewrite (IH ys).
  - intros ->. induction xs as [|x xs IH]; simpl; [done|]. by rewrite IH.
Qed.

Lemma res_all_map_cons {A B} (f : A -> res B) x l r :
  res_all (map f (x :: l)) = Ok r <->
  exists y ys, f x = Ok y /\ res_all (map f l) = Ok ys /\ r = y :: ys.
Proof.
  simpl. destruct (f x) as [y|]; simpl; [|split; [discriminate|intros (? & ? & ? & _); discriminate]].
  destruct (res_all (map f l)) as [ys|]; simpl.
  - split; [intros [= <-]; eauto|intros (? & ? & [= <-] & [= <-] & ->); done].
  - split; [discriminate|intros (? & ? & _ & ? & _); discriminate].
Qed.

(** Running a list of computations in another order succeeds as well,
    with the results permuted. *)
Lemma res_all_map_perm {A B} (f : A -> res B) l1 l2 r1 :
  l1 ≡ₚ l2 -> res_all (map f l1) = Ok r1 ->
  exists r2, res_all (map f l2) = Ok r2 /\ r1 ≡ₚ r2.
Proof.
  intros Hp. revert r1. induction Hp as [|x l l' _ IH|x y l|l l' l'' _ IH1 _ IH2]; intros r1.
  - intros [= <-]. by exists [].
  - intros (a & rs & Ha & Hrs & ->)%res_all_map_cons.
    destruct (IH _ Hrs) as (rs' & Hrs' & Hp). exists (a :: rs').
    split; [apply res_all_map_cons; eauto|by constructor].
  - intros (b & rs & Hb & (a & rs' & Ha & Hrs & ->)%res_all_map_cons & ->)%res_all_map_cons.
    exists (a :: b :: rs'). split; [|constructor].
    apply res_all_map_cons. exists a, (b :: rs'). split; [done|]. split; [|done].
    apply res_all_map_cons. eauto.
  - intros H1. destruct (IH1 _ H1) as (r2 & H2 & P1). destruct (IH2 _ H2) as (r3 & H3 & P2).
    exists r3. split; [done|]. by rewrite P1.
Qed.

(** Destruct a successful bind in a hypothesis. *)
Ltac inv_bind H :=
  let a := fresh "a" in
  let Ha := fresh "Ha" in
  let H' := fresh in
  apply bind_Ok_inv in H as (a & Ha & H'); rename H' into H.
