(* ===== verification/PyStr.v ===== *)
(** The Python [str] builtins called by asyncNotary.py, on [pystr]
    (lists of code points), with their CPython semantics: the digit
    filter [re.sub("[^0-9]", "", s)], slicing, [sep.join], [s.split(sep)],
    [s.split()], [s.startswith(p)], [s.replace(old, new)], list indexing
    [l[i]] (which raises [IndexError]), the code-point order used by
    [<] on strings and tuples, and [str(n)] on a natural number with the
    value [int] reads back from it. *)

From S2P Require Import Prelude.
From stdpp Require Import base list decidable.

Module PyStr.

(** ** Characters *)

Definition is_digit (c : char) : bool := (48 <=? c)%N && (c <=? 57)%N.

(** [str.isspace] as used by [str.split()]: CPython's
    [Py_UNICODE_ISSPACE] table. *)
Definition is_space (c : char) : bool :=
  ((9 <=? c) && (c <=? 13))%N || ((28 <=? c) && (c <=? 32))%N
  || (c =? 133)%N || (c =? 160)%N || (c =? 5760)%N
  || ((8192 <=? c) && (c <=? 8202))%N
  || (c =? 8232)%N || (c =? 8233)%N || (c =? 8239)%N || (c =? 8287)%N
  || (c =? 12288)%N.

Definition space : char := 32%N.

(** ** [re.sub("[^0-9]", "", s)]: delete every character outside 0-9. *)
Definition keep_digits (s : pystr) : pystr := List.filter is_digit s.

(** ** Slicing [s[i:j]] for non-negative bounds: out-of-range bounds are
    clipped, never an error. *)
Definition slice {A} (s : list A) (i j : nat) : list A := take (j - i) (drop i s).

(** ** [range(start, stop, step)] for a positive step. *)
Fixpoint range_fuel (fuel start stop step : nat) : list nat :=
  match fuel with
  | 0 => []
  | S fuel' =>
      if start <? stop then start :: range_fuel fuel' (start + step) stop step
      else []
  end.

Definition range (start stop step : nat) : list nat :=
  range_fuel (stop - start) start stop step.

(** ** [sep.join(parts)] *)
Definition join (sep : pystr) (parts : list pystr) : pystr :=
  match parts with
  | [] => []
  | p :: ps => p ++ mjoin (map (fun q => sep ++ q) ps)
  end.

(** ** Indexing [l[i]] of a list *)
Definition get {A} (l : list A) (i : nat) : res A :=
  match l !! i with
  | Some x => Ok x
  | None => Err IndexError
  end.

(** ** [s.startswith(p)] *)
Fixpoint startswith (s p : pystr) : bool :=
  match p, s with
  | [], _ => true
  | c :: p', d :: s' => (c =? d)%N && startswith s' p'
  | _ :: _, [] => false
  end.

(** Index of the first occurrence of [sep] in [s]. *)
Fixpoint find (s sep : pystr) : option nat :=
  if startswith s sep then Some 0
  else match s with
       | [] => None
       | _ :: s' => S <$> find s' sep
       end.

(** ** [s.split(sep)] for a non-empty separator: cut at every
    non-overlapping occurrence, from the left. The recursion consumes
    at least [length sep] characters per step; [fuel] bounds the number
    of steps and [split_sep] gives it [length s + 1]. *)
Fixpoint split_sep_fuel (fuel : nat) (s sep : pystr) : list pystr :=
  match fuel with
  | 0 => [s]
  | S fuel' =>
      match find s sep with
      | None => [s]
      | Some i => take i s :: split_sep_fuel fuel' (drop (i + length sep) s) sep
      end
  end.

Definition split_sep (s sep : pystr) : list pystr :=
  split_sep_fuel (S (length s)) s sep.

(** ** [s.replace(old, new)]: for a non-empty [old], CPython replaces
    every non-overlapping occurrence from the left, that is
    [new.join(s.split(old))]. *)
Definition replace (s old new : pystr) : pystr := join new (split_sep s old).

(** ** [s.split()]: maximal runs of non-space characters; leading and
    trailing spaces produce no empty parts. [cur] is the current run,
    reversed. *)
Fixpoint split_ws_aux (s cur : pystr) : list pystr :=
  match s with
  | [] => match cur with [] => [] | _ => [reverse cur] end
  | c :: s' =>
      if is_space c then
        match cur with
        | [] => split_ws_aux s' []
        | _ => reverse cur :: split_ws_aux s' []
        end
      else split_ws_aux s' (c :: cur)
  end.

Definition split_ws (s : pystr) : list pystr := split_ws_aux s [].

(** ** [a < b] on strings: lexicographic on code points. *)
Fixpoint compare (a b : pystr) : comparison :=
  match a, b with
  | [], [] => Eq
  | [], _ :: _ => Lt
  | _ :: _, [] => Gt
  | c :: a', d :: b' =>
      match N.compare c d with
      | Eq => compare a' b'
      | o => o
      end
  end.

(** ** [str(n)] for a natural number: its decimal digits, most
    significant first. Each step divides by ten, so the fuel [n + 1] that
    [str] gives is never exhausted ([str_fuel_enough]). *)
Fixpoint str_fuel (fuel n : nat) (acc : pystr) : pystr :=
  match fuel with
  | 0 => acc
  | S fuel' =>
      let acc' := N.of_nat (48 + n mod 10) :: acc in
      if n <? 10 then acc' else str_fuel fuel' (n / 10) acc'
  end.

Definition str (n : nat) : pystr := str_fuel (S n) n [].

(** The value of a string of decimal digits, as [int(s)] reads it. *)
Definition digit_value (c : char) : nat := N.to_nat c - 48.

Definition decimal_value (s : pystr) : nat :=
  fold_left (fun acc c => acc * 10 + digit_value c) s 0.

(** * Lemmas *)

Lemma keep_digits_digits s : Forall (fun c => is_digit c = true) (keep_digits s).
Proof. apply Forall_forall. intros c Hc. by apply filter_In in Hc as [_ ?]. Qed.

Lemma keep_digits_id s :
  Forall (fun c => is_digit c = true) s -> keep_digits s = s.
Proof.
  induction 1 as [|c s Hc _ IH]; [done|]. unfold keep_digits in *; simpl.
  by rewrite Hc, IH.
Qed.

Lemma keep_digits_app s t : keep_digits (s ++ t) = keep_digits s ++ keep_digits t.
Proof. apply filter_app. Qed.

Lemma length_slice {A} (s : list A) i j :
  length (slice s i j) = Nat.min (j - i) (length s - i).
Proof. unfold slice. by rewrite length_take, length_drop. Qed.

Lemma slice_concat {A} (s : list A) i j k :
  i <= j <= k -> slice s i j ++ slice s j k = slice s i k.
Proof.
  intros Hijk. unfold slice.
  replace (drop j s) with (drop (j - i) (drop i s)) by (rewrite drop_drop; f_equal; lia).
  rewrite take_take_drop. f_equal. lia.
Qed.

Lemma slice_take {A} (s : list A) n i j :
  j <= n -> slice (take n s) i j = slice s i j.
Proof.
  intros Hj. unfold slice. destruct (decide (i <= j)).
  - rewrite !firstn_skipn_comm, take_take. do 2 f_equal. lia.
  - replace (j - i) with 0 by lia. by rewrite !take_0.
Qed.

Lemma slice_Forall {A} (P : A -> Prop) (s : list A) i j :
  Forall P s -> Forall P (slice s i j).
Proof. intros H. by apply Forall_take, Forall_drop. Qed.

Lemma get_Ok {A} (l : list A) i x : get l i = Ok x -> l !! i = Some x.
Proof. unfold get. by destruct (l !! i); intros [= ->]. Qed.

Lemma get_Err {A} (l : list A) i e : get l i = Err e -> e = IndexError /\ length l <= i.
Proof.
  unfold get. destruct (l !! i) eqn:E; intros [= <-].
  split; [done|]. by apply lookup_ge_None.
Qed.

Lemma get_only_raises {A} (l : list A) i : only_raises IndexError (get l i).
Proof. intros e H. by apply get_Err in H as [-> _]. Qed.

Lemma split_sep_fuel_cons fuel s sep : exists x xs, split_sep_fuel fuel s sep = x :: xs.
Proof. destruct fuel; simpl; [eauto|]. destruct (find s sep); eauto. Qed.

Lemma get_split_sep s sep : exists x, get (split_sep s sep) 0 = Ok x /\ head (split_sep s sep) = Some x.
Proof.
  unfold split_sep. destruct (split_sep_fuel_cons (S (length s)) s sep) as (x & xs & ->).
  by exists x.
Qed.

(** [s.split(sep)[0]]: the text before the first occurrence of [sep]. *)
Lemma get_split_sep_first s sep :
  get (split_sep s sep) 0 = Ok (match find s sep with Some i => take i s | None => s end).
Proof. unfold split_sep. simpl. by destruct (find s sep). Qed.

Lemma join_cons2 sep p q ps : join sep (p :: q :: ps) = p ++ sep ++ join sep (q :: ps).
Proof. simpl. by rewrite !app_assoc. Qed.

Lemma compare_refl a : compare a a = Eq.
Proof. induction a as [|c a IH]; simpl; [done|]. by rewrite N.compare_refl. Qed.

Lemma compare_eq a b : compare a b = Eq -> a = b.
Proof.
  revert b; induction a as [|c a IH]; intros [|d b]; simpl; try discriminate; [done|].
  destruct (N.compare c d) eqn:E; try discriminate.
  apply N.compare_eq in E as ->. intros H. by rewrite (IH b H).
Qed.

Lemma compare_antisym a b : compare b a = CompOpp (compare a b).
Proof.
  revert b; induction a as [|c a IH]; intros [|d b]; simpl; try done.
  rewrite (N.compare_antisym c d). destruct (N.compare c d); simpl; auto.
Qed.

Lemma compare_lt_trans a b c : compare a b = Lt -> compare b c = Lt -> compare a c = Lt.
Proof.
  revert b c; induction a as [|x a IH]; intros [|y b] [|z c]; simpl; try done.
  destruct (N.compare x y) eqn:Exy; intros H1; try discriminate;
    destruct (N.compare y z) eqn:Eyz; intros H2; try discriminate.
  - apply N.compare_eq in Exy, Eyz; subst. rewrite N.compare_refl. eauto.
  - apply N.compare_eq in Exy; subst. by rewrite Eyz.
  - apply N.compare_eq in Eyz; subst. by rewrite Exy.
  - rewrite N.compare_lt_iff in Exy, Eyz.
    assert ((x ?= z)%N = Lt) as -> by (apply N.compare_lt_iff; lia). done.
Qed.

Lemma startswith_app s p : startswith s p = true -> s = p ++ drop (length p) s.
Proof.
  revert s; induction p as [|c p IH]; intros [|d s]; simpl; try done.
  intros [Hc Hs]%andb_prop. apply N.eqb_eq in Hc as ->. by rewrite <-(IH s Hs).
Qed.

Lemma find_unfold s sep :
  find s sep = if startswith s sep then Some 0
               else match s with [] => None | _ :: s' => S <$> find s' sep end.
Proof. by destruct s. Qed.

Lemma find_Some_split s sep i :
  find s sep = Some i -> s = take i s ++ sep ++ drop (i + length sep) s.
Proof.
  revert i; induction s as [|c s IH]; intros i; rewrite find_unfold;
    destruct (startswith _ sep) eqn:E.
  - intros [= <-]. by apply startswith_app.
  - discriminate.
  - intros [= <-]. by apply startswith_app.
  - destruct (find s sep) as [j|] eqn:Ej; intros [= <-]. simpl. f_equal. by apply IH.
Qed.

Section SplitSep.
Context (sep : pystr) (Hsep : sep <> []).

Lemma find_Some_length s i : find s sep = Some i -> i + length sep <= length s.
Proof.
  intros H%find_Some_split. apply (f_equal length) in H.
  rewrite !length_app, length_drop, length_take in H.
  destruct sep; [congruence|]. simpl in *. lia.
Qed.

Lemma find_Some_shorter s i :
  find s sep = Some i -> length (drop (i + length sep) s) < length s.
Proof.
  intros H%find_Some_length. rewrite length_drop.
  destruct sep; [congruence|]. simpl in *. lia.
Qed.

Lemma split_sep_fuel_stable f1 f2 s :
  length s < f1 -> length s < f2 -> split_sep_fuel f1 s sep = split_sep_fuel f2 s sep.
Proof.
  revert f2 s; induction f1 as [|f1 IH]; intros [|f2] s H1 H2; try lia. simpl.
  destruct (find s sep) as [i|] eqn:E; [|done].
  pose proof (find_Some_shorter s i E). f_equal. apply IH; lia.
Qed.

Lemma join_split_sep_fuel f s : length s < f -> join sep (split_sep_fuel f s sep) = s.
Proof.
  revert s; induction f as [|f IH]; intros s Hf; [lia|]. cbn [split_sep_fuel].
  destruct (find s sep) as [i|] eqn:E; [|apply app_nil_r].
  pose proof (find_Some_shorter s i E) as Hlt.
  destruct (split_sep_fuel_cons f (drop (i + length sep) s) sep) as (x & xs & Hx).
  rewrite Hx, join_cons2, <-Hx, IH by lia. symmetry. by apply find_Some_split.
Qed.

End SplitSep.

(** [sep.join(s.split(sep)) == s] for a non-empty separator; in
    particular [s.replace(old, old) == s]. *)
Lemma join_split_sep sep s : sep <> [] -> join sep (split_sep s sep) = s.
Proof. intros Hsep. unfold split_sep. apply join_split_sep_fuel; [done|lia]. Qed.

(** [s.split(sep)] undoes [sep.join(parts)] when no part holds the first
    character of the separator. *)
Section SplitJoin.

Variables (c : char) (sep' : pystr).

Lemma startswith_prefix p r : startswith (p ++ r) p = true.
Proof. induction p as [|d p IH]; [by destruct r|]. simpl. by rewrite N.eqb_refl. Qed.

Lemma find_sep_free p r : c ∉ p -> find (p ++ c :: sep' ++ r) (c :: sep') = Some (length p).
Proof.
  induction p as [|d p IH]; intros Hp.
  - rewrite app_nil_l, find_unfold. change (c :: sep' ++ r) with ((c :: sep') ++ r).
    by rewrite startswith_prefix.
  - rewrite find_unfold. cbn [app startswith].
    assert ((c =? d)%N = false) as -> by (apply N.eqb_neq; intros ->; apply Hp; left).
    simpl. rewrite IH; [done|]. intros Hc. apply Hp. by right.
Qed.

Lemma find_sep_free_None p : c ∉ p -> find p (c :: sep') = None.
Proof.
  induction p as [|d p IH]; intros Hp; [done|]. rewrite find_unfold. cbn [startswith].
  assert ((c =? d)%N = false) as -> by (apply N.eqb_neq; intros ->; apply Hp; left).
  simpl. rewrite IH; [done|]. intros Hc. apply Hp. by right.
Qed.

Lemma split_join_fuel f parts :
  parts <> [] -> Forall (fun p => c ∉ p) parts -> length (join (c :: sep') parts) < f ->
  split_sep_fuel f (join (c :: sep') parts) (c :: sep') = parts.
Proof.
  revert parts; induction f as [|f IH]; intros parts Hne Hp Hf; [lia|].
  destruct parts as [|p [|q ps]]; [done| |]; cbn [split_sep_fuel].
  - apply Forall_cons_1 in Hp as [Hp _]. simpl. rewrite app_nil_r, find_sep_free_None by done. done.
  - apply Forall_cons_1 in Hp as [Hp Hps]. rewrite join_cons2 in Hf |- *.
    cbn [app]. rewrite find_sep_free by done.
    rewrite take_app_length.
    assert (p ++ c :: sep' ++ join (c :: sep') (q :: ps) = (p ++ c :: sep') ++ join (c :: sep') (q :: ps))
      as -> by (by rewrite <- app_assoc).
    rewrite drop_app_length' by (by rewrite length_app).
    rewrite IH; [done|done|done|]. rewrite !length_app in Hf. cbn [length] in Hf. lia.
Qed.

End SplitJoin.

Lemma replace_join c sep' parts new :
  parts <> [] -> Forall (fun p => c ∉ p) parts ->
  replace (join (c :: sep') parts) (c :: sep') new = join new parts.
Proof. intros Hne Hp. unfold replace, split_sep. rewrite split_join_fuel; [done|done|done|lia]. Qed.

(** ** [str(n)] *)

Lemma str_fuel_acc f n acc : str_fuel f n acc = str_fuel f n [] ++ acc.
Proof.
  revert n acc; induction f as [|f IH]; intros n acc; simpl; [done|].
  destruct (n <? 10); [done|]. rewrite IH, (IH _ [_]). by rewrite <- app_assoc.
Qed.

Lemma decimal_value_snoc s c : decimal_value (s ++ [c]) = decimal_value s * 10 + digit_value c.
Proof. unfold decimal_value. by rewrite fold_left_app. Qed.

Lemma digit_value_digit k : k < 10 -> digit_value (N.of_nat (48 + k)) = k.
Proof. intros Hk. unfold digit_value. rewrite Nat2N.id. lia. Qed.

Lemma is_digit_digit k : k < 10 -> is_digit (N.of_nat (48 + k)) = true.
Proof. intros Hk. unfold is_digit. apply andb_true_intro. split; apply N.leb_le; lia. Qed.

(** One step of [str_fuel]: the last digit is [n mod 10]. *)
Lemma str_fuel_step f n :
  10 <= n -> str_fuel (S f) n [] = str_fuel f (n / 10) [] ++ [N.of_nat (48 + n mod 10)].
Proof. intros Hn. simpl. destruct (Nat.ltb_spec n 10); [lia|]. apply str_fuel_acc. Qed.

Lemma str_fuel_small f n : n < 10 -> str_fuel (S f) n [] = [N.of_nat (48 + n)].
Proof.
  intros Hn. cbn [str_fuel]. rewrite (proj2 (Nat.ltb_lt n 10) Hn).
  by rewrite Nat.mod_small.
Qed.

Lemma str_fuel_value f n : n < f -> decimal_value (str_fuel f n []) = n.
Proof.
  revert n; induction f as [|f IH]; intros n Hf; [lia|].
  destruct (Nat.ltb_spec n 10) as [Hlt|Hge].
  - rewrite str_fuel_small by done. unfold decimal_value; cbn [fold_left].
    rewrite digit_value_digit; lia.
  - rewrite str_fuel_step, decimal_value_snoc, IH, digit_value_digit by
      (try apply Nat.mod_upper_bound; try apply Nat.Div0.div_lt_upper_bound; lia).
    pose proof (Nat.div_mod_eq n 10). lia.
Qed.

Lemma str_fuel_digits f n : Forall (fun c => is_digit c = true) (str_fuel f n []).
Proof.
  revert n; induction f as [|f IH]; intros n; [constructor|].
  destruct (Nat.ltb_spec n 10) as [Hlt|Hge].
  - rewrite str_fuel_small by done. repeat constructor. by apply is_digit_digit.
  - rewrite str_fuel_step by done. apply Forall_app. split; [apply IH|].
    repeat constructor. apply is_digit_digit, Nat.mod_upper_bound. lia.
Qed.

(** The first digit is [0] only for [0]. *)
Lemma str_fuel_head f n :
  n < f -> exists c rest, str_fuel f n [] = c :: rest /\ (c = 48%N -> n = 0).
Proof.
  revert n; induction f as [|f IH]; intros n Hf; [lia|].
  destruct (Nat.ltb_spec n 10) as [Hlt|Hge].
  - rewrite str_fuel_small by done. eexists _, []. split; [done|]. lia.
  - rewrite str_fuel_step by done.
    destruct (IH (n / 10)) as (c & rest & -> & Hc); [apply Nat.Div0.div_lt_upper_bound; lia|].
    exists c, (rest ++ [N.of_nat (48 + n mod 10)]). split; [done|].
    intros ->. specialize (Hc eq_refl). apply Nat.div_small_iff in Hc; lia.
Qed.

Lemma str_inj m n : str m = str n -> m = n.
Proof.
  intros H. rewrite <- (str_fuel_value (S m) m), <- (str_fuel_value (S n) n) by lia.
  unfold str in H. by rewrite H.
Qed.

(** [str(n)] is the canonical decimal representation of [n]: a
    non-empty string of ASCII digits, without a leading zero unless it is
    ["0"], whose decimal value is [n]. *)
Lemma str_decimal n :
  decimal_value (str n) = n /\
  Forall (fun c => is_digit c = true) (str n) /\
  exists c rest, str n = c :: rest /\ (c = 48%N -> n = 0).
Proof.
  unfold str. split; [apply str_fuel_value; lia|].
  split; [apply str_fuel_digits|]. apply str_fuel_head. lia.
Qed.

End PyStr.

#[export] Hint Resolve PyStr.keep_digits_digits PyStr.compare_refl PyStr.get_only_raises : pyx.
