(* ===== verification/Phone.v ===== *)
(** [format_phone_number] (asyncNotary.py lines 40-43): keep the
    digits of a string, cut them into the five slices [d[0:2]], ...,
    [d[8:10]] and join the slices with single spaces. The theorems give
    the alphabet, the exact length, the digits kept, the shape on a full
    number, idempotence, and the behaviour on short numbers (where the
    spec and the code disagree). *)

From S2P Require Import Prelude PyStr.
From stdpp Require Import base list.

Module Phone.

(** [" ".join(digits[i:i+2] for i in range(0, 10, 2))] after
    [digits = re.sub("[^0-9]", "", phone_number)]. *)
Definition format_phone_number (phone_number : pystr) : pystr :=
  let digits := PyStr.keep_digits phone_number in
  PyStr.join [PyStr.space]
    (map (fun i => PyStr.slice digits i (i + 2)) (PyStr.range 0 10 2)).

(** The five slices of a digit string. *)
Definition pairs (d : pystr) : list pystr :=
  [PyStr.slice d 0 2; PyStr.slice d 2 4; PyStr.slice d 4 6;
   PyStr.slice d 6 8; PyStr.slice d 8 10].

(** The values [get_phone] can return: the empty string of its
    [except] branch, or a formatted number. *)
Definition phone_wf (p : pystr) : bool :=
  bool_decide (p = []) || bool_decide (format_phone_number p = p).

(** The grouping the spec expects (section 8): the digits in groups of
    two, the last one shorter when the count is odd, and nothing more. *)
Fixpoint chunks2 (d : pystr) : list pystr :=
  match d with
  | a :: b :: r => [a; b] :: chunks2 r
  | [a] => [[a]]
  | [] => []
  end.

Section Lemmas.

Lemma format_phone_number_pairs s :
  format_phone_number s = PyStr.join [PyStr.space] (pairs (PyStr.keep_digits s)).
Proof. reflexivity. Qed.

Lemma concat_pairs d : concat (pairs d) = take 10 d.
Proof.
  unfold pairs; simpl. rewrite app_nil_r.
  rewrite (PyStr.slice_concat d 6 8 10), (PyStr.slice_concat d 4 6 10),
    (PyStr.slice_concat d 2 4 10), (PyStr.slice_concat d 0 2 10) by lia.
  reflexivity.
Qed.

Lemma pairs_take d : pairs (take 10 d) = pairs d.
Proof. unfold pairs. by rewrite !PyStr.slice_take by lia. Qed.

Lemma pairs_Forall (P : char -> Prop) d :
  Forall P d -> Forall (Forall P) (pairs d).
Proof. intros H. repeat constructor; by apply PyStr.slice_Forall. Qed.

Lemma keep_digits_join_space ps :
  PyStr.keep_digits (PyStr.join [PyStr.space] ps) = concat (map PyStr.keep_digits ps).
Proof.
  destruct ps as [|p ps]; [done|]. revert p.
  induction ps as [|q ps IH]; intros p; [simpl; by rewrite !app_nil_r|].
  rewrite PyStr.join_cons2, !PyStr.keep_digits_app, IH. reflexivity.
Qed.

Lemma length_join_space p ps :
  length (PyStr.join [PyStr.space] (p :: ps)) = length (concat (p :: ps)) + length ps.
Proof.
  revert p; induction ps as [|q ps IH]; intros p; [simpl; by rewrite !app_nil_r|].
  rewrite PyStr.join_cons2, !length_app, IH. simpl. rewrite !length_app. lia.
Qed.

Lemma join_space_Forall (P : char -> Prop) ps :
  P PyStr.space -> Forall (Forall P) ps -> Forall P (PyStr.join [PyStr.space] ps).
Proof.
  intros Hsp Hps. destruct Hps as [|p ps Hp Hps]; [constructor|]. revert p Hp.
  induction Hps as [|q ps Hq _ IH]; intros p Hp; [simpl; by rewrite app_nil_r|].
  rewrite PyStr.join_cons2. apply Forall_app; split; [done|].
  constructor; [done|]. by apply IH.
Qed.

Lemma keep_digits_slice s i j :
  PyStr.keep_digits (PyStr.slice (PyStr.keep_digits s) i j) = PyStr.slice (PyStr.keep_digits s) i j.
Proof. apply PyStr.keep_digits_id, PyStr.slice_Forall, PyStr.keep_digits_digits. Qed.

Lemma keep_digits_format s :
  PyStr.keep_digits (format_phone_number s) = take 10 (PyStr.keep_digits s).
Proof.
  rewrite format_phone_number_pairs, keep_digits_join_space, <- concat_pairs.
  f_equal. unfold pairs; cbn [map]. by rewrite !keep_digits_slice.
Qed.

Lemma format_phone_number_fix s :
  format_phone_number (format_phone_number s) = format_phone_number s.
Proof.
  rewrite (format_phone_number_pairs (format_phone_number s)),
    keep_digits_format, pairs_take.
  reflexivity.
Qed.

Lemma phone_wf_format s : phone_wf (format_phone_number s) = true.
Proof. unfold phone_wf. rewrite orb_true_iff. right. apply bool_decide_eq_true_2, format_phone_number_fix. Qed.

End Lemmas.

#[export] Hint Resolve pairs_Forall join_space_Forall : pyx.

(** ** Properties *)

(** C20: re-extracting the digits from a formatted number gives exactly
    the first ten digits of the input: the formatter loses nothing below
    ten digits and drops everything after the tenth. *)
Theorem format_phone_number_digits s :
  PyStr.keep_digits (format_phone_number s) = take 10 (PyStr.keep_digits s).
Proof. apply keep_digits_format. Qed.

(** The output holds only ASCII digits and spaces. *)
Lemma format_phone_number_alphabet s :
  Forall (fun c => PyStr.is_digit c = true \/ c = PyStr.space) (format_phone_number s).
Proof.
  rewrite format_phone_number_pairs. apply join_space_Forall; [by right|].
  apply pairs_Forall. eapply Forall_impl; [apply PyStr.keep_digits_digits|]. by left.
Qed.

(** C23: the output always has exactly four separators: its length is
    the number of digits kept (at most ten) plus four, whatever the
    input, so between 4 (no digit at all) and 14 characters. *)
Theorem format_phone_number_length s :
  length (format_phone_number s) = Nat.min 10 (length (PyStr.keep_digits s)) + 4.
Proof.
  rewrite format_phone_number_pairs. unfold pairs at 1. rewrite length_join_space.
  change (concat (_ :: _)) with (concat (pairs (PyStr.keep_digits s))).
  rewrite concat_pairs, length_take. simpl. lia.
Qed.

(** Formatting is idempotent: a formatted number is a fixed point. *)
Lemma format_phone_number_idem s :
  format_phone_number (format_phone_number s) = format_phone_number s.
Proof. apply format_phone_number_fix. Qed.

(** C21: with at least ten digits, the output is five two-digit groups
    joined by single spaces, which together are the first ten digits. *)
Theorem format_phone_number_full s :
  10 <= length (PyStr.keep_digits s) ->
  exists groups,
    format_phone_number s = PyStr.join [PyStr.space] groups /\
    length groups = 5 /\
    Forall (fun g => length g = 2) groups /\
    concat groups = take 10 (PyStr.keep_digits s).
Proof.
  intros H. exists (pairs (PyStr.keep_digits s)).
  split; [apply format_phone_number_pairs|]. split; [done|].
  split; [|apply concat_pairs].
  unfold pairs. repeat constructor; rewrite PyStr.length_slice; lia.
Qed.

Lemma format_phone_number_full_witness :
  10 <= length (PyStr.keep_digits (py "01-23-45-67-89 ext")) /\
  format_phone_number (py "01-23-45-67-89 ext") = py "01 23 45 67 89" /\
  exists groups,
    format_phone_number (py "01-23-45-67-89 ext") = PyStr.join [PyStr.space] groups /\
    length groups = 5 /\
    Forall (fun g => length g = 2) groups /\
    concat groups = take 10 (PyStr.keep_digits (py "01-23-45-67-89 ext")).
Proof.
  split; [vm_compute; lia|]. split; [vm_compute; reflexivity|].
  apply format_phone_number_full. vm_compute; lia.
Defined.

(** C22: on a number with one to nine digits the code still emits all
    five slices: the result is the grouping the spec expects (pairs of
    digits joined by single spaces, the last group short when the count
    is odd) followed by one trailing space per missing group. The spec
    (section 8) expects ["01 02 03"] for ["0102030"]; the code returns
    ["01 02 03 0 "]. *)
Theorem format_phone_number_short s :
  0 < length (PyStr.keep_digits s) < 10 ->
  format_phone_number s =
    PyStr.join [PyStr.space] (chunks2 (PyStr.keep_digits s)) ++
    replicate (5 - length (chunks2 (PyStr.keep_digits s))) PyStr.space.
Proof.
  intros Hk. rewrite format_phone_number_pairs.
  remember (PyStr.keep_digits s) as d eqn:Ed; clear Ed.
  do 10 (destruct d as [|? d]; [cbn in Hk |- *; try lia; reflexivity|]).
  cbn in Hk. lia.
Qed.

Lemma format_phone_number_short_witness :
  0 < length (PyStr.keep_digits (py "0102030")) < 10 /\
  format_phone_number (py "0102030") = py "01 02 03 0" ++ [PyStr.space].
Proof.
  split; [vm_compute; lia|]. rewrite format_phone_number_short; [reflexivity|vm_compute; lia].
Defined.

End Phone.
