(* ===== verification/Notary.v ===== *)
(** The [Notary] class. asyncNotary.py imports it ([from Notary import
    Notary]) from a module that is not part of the repository; it is
    modelled from the spec (section 3): an immutable record of five
    strings, built as [Notary(nom, phone, mail, website, address)], whose
    attributes are read directly ([notary.address]) or through getters
    ([notary.get_name()]). *)

From S2P Require Import Prelude.
From stdpp Require Import base list decidable.

Module Notary.

Record notary := mkNotary {
  name : pystr;
  phone : pystr;
  mail : pystr;
  website : pystr;
  address : pystr
}.

(** [Notary(nom, phone, mail, website, address)] *)
Definition Notary (nom phone mail website address : pystr) : notary :=
  mkNotary nom phone mail website address.

Definition get_name (n : notary) : pystr := name n.
Definition get_phone (n : notary) : pystr := phone n.
Definition get_mail (n : notary) : pystr := mail n.
Definition get_website (n : notary) : pystr := website n.
Definition get_address (n : notary) : pystr := address n.

#[export] Instance notary_eq_dec : EqDecision notary.
Proof. solve_decision. Defined.

End Notary.
