(* ===== verification/Dedup.v ===== *)
(** [sort_notaries] (asyncNotary.py lines 96-129): group the records by
    the key [(address, format_phone_number(phone), mail)] in a dict,
    keep one record per group (the only one, or the first whose first
    name equals the local part of its mail, or else the first), and sort
    the kept records by the same key.

    The dict is an association list in insertion order (Python dicts
    iterate in insertion order); [list.sort(key=...)] is a stable
    insertion sort on the key with Python's tuple order; the scan of a
    group can raise [IndexError] ([name.split()[0]] on a name made only
    of whitespace), so the whole function returns a [res]. *)

From S2P Require Import Prelude PyStr Phone Notary.
From stdpp Require Import base list decidable sorting sets.

#[local] Set Warnings "-clear-no-such-hyp".

Module Dedup.

Import Notary.

(** ** Keys *)

Definition key := (pystr * pystr * pystr)%type.

(** [(notary.address, format_phone_number(notary.phone), notary.mail)] *)
Definition notary_key (n : notary) : key :=
  (address n, Phone.format_phone_number (phone n), mail n).
Arguments notary_key : simpl never.

(** Python's [<] on 3-tuples of strings: lexicographic. *)
Definition key_compare (a b : key) : comparison :=
  let '(a1, a2, a3) := a in
  let '(b1, b2, b3) := b in
  match PyStr.compare a1 b1 with
  | Eq => match PyStr.compare a2 b2 with
          | Eq => PyStr.compare a3 b3
          | o => o
          end
  | o => o
  end.

Definition key_lt (a b : key) : bool :=
  match key_compare a b with Lt => true | _ => false end.

(** ** The grouping dict [notaries_dict] (lines 99-105) *)

Definition dict := list (key * list notary).

(** [if key in d: d[key].append(n) else: d[key] = [n]] *)
Fixpoint dict_add (k : key) (n : notary) (d : dict) : dict :=
  match d with
  | [] => [(k, [n])]
  | (k', ns) :: d' =>
      if decide (k = k') then (k', ns ++ [n]) :: d'
      else (k', ns) :: dict_add k n d'
  end.

Definition group (notaries : list notary) : dict :=
  fold_left (fun d n => dict_add (notary_key n) n d) notaries [].

(** ** The canonical record of a group (lines 110-125) *)

(** [notary.name.split()[0] == notary.mail.split('@')[0]] *)
Definition name_matches_mail (n : notary) : res bool :=
  first ← PyStr.get (PyStr.split_ws (name n)) 0;
  local ← PyStr.get (PyStr.split_sep (mail n) (py "@")) 0;
  Ok (bool_decide (first = local)).

(** The [for notary in notary_list] loop with its [break]. *)
Fixpoint find_matching (ns : list notary) : res (option notary) :=
  match ns with
  | [] => Ok None
  | n :: ns' =>
      if bool_decide (name n = []) then find_matching ns'
      else
        m ← name_matches_mail n;
        match m with true => Ok (Some n) | false => find_matching ns' end
  end.

(** What one group contributes to [sorted_notaries]. *)
Definition resolve_group (notary_list : list notary) : res (list notary) :=
  if bool_decide (length notary_list = 1) then Ok notary_list
  else
    m ← find_matching notary_list;
    match m with
    | Some n => Ok [n]
    | None => first ← PyStr.get notary_list 0; Ok [first]
    end.

Fixpoint resolve_groups (d : dict) : res (list notary) :=
  match d with
  | [] => Ok []
  | (_, ns) :: d' =>
      kept ← resolve_group ns;
      rest ← resolve_groups d';
      Ok (kept ++ rest)
  end.

(** ** [sorted_notaries.sort(key=...)] (line 128): a stable sort that
    inserts each element after every element whose key is not greater. *)

Fixpoint insert_by_key (n : notary) (l : list notary) : list notary :=
  match l with
  | [] => [n]
  | m :: l' => if key_lt (notary_key n) (notary_key m) then n :: l else m :: insert_by_key n l'
  end.

Definition sort_by_key (l : list notary) : list notary :=
  fold_left (fun acc n => insert_by_key n acc) l [].

(** ** [sort_notaries] *)
Definition sort_notaries (notaries : list notary) : res (list notary) :=
  sorted_notaries ← resolve_groups (group notaries);
  Ok (sort_by_key sorted_notaries).

(** ** Sample records for the examples: three listings of one office
    (same address, phone and mail) and one of another office. *)
Definition office_phone : pystr := py "01 02 03 04 05".
Definition jean := Notary (py "Jean Dupont") office_phone (py "Jean@etude.fr") [] (py "1 rue A").
Definition marie := Notary (py "Marie Martin") office_phone (py "Jean@etude.fr") [] (py "1 rue A").
Definition blank := Notary (py " ") office_phone (py "Jean@etude.fr") [] (py "1 rue A").
Definition paul := Notary (py "Paul Durand") (py "06 07 08 09 10") (py "p@b.fr") [] (py "2 av B").
(** The same office with a lower-case mailbox. *)
Definition jean_lc := Notary (py "Jean Dupont") office_phone (py "jean@etude.fr") [] (py "1 rue A").
Definition marie_lc := Notary (py "Marie Martin") office_phone (py "jean@etude.fr") [] (py "1 rue A").

(** [set_solver] loops on equations between concrete keys; it is run
    with [notary_key] abstracted into a variable. *)
Ltac key_set_solver :=
  repeat match goal with H : context [notary_key] |- _ => revert H end;
  generalize notary_key; intros; set_solver.

(** * Specification *)

(** The distinct keys of a list of keys, in order of first occurrence. *)
Fixpoint dedup_seen (seen : list key) (ks : list key) : list key :=
  match ks with
  | [] => []
  | k :: ks' =>
      if decide (k ∈ seen) then dedup_seen seen ks'
      else k :: dedup_seen (k :: seen) ks'
  end.

Definition keys_first (l : list notary) : list key := dedup_seen [] (map notary_key l).

(** The records of [l] with key [k], in the order of [l]. *)
Definition group_of (l : list notary) (k : key) : list notary :=
  filter (fun n => notary_key n = k) l.

(** What the grouping dict holds: one entry per distinct key, in order
    of first occurrence, with all the records of that key in order. *)
Definition group_spec (l : list notary) : dict :=
  map (fun k => (k, group_of l k)) (keys_first l).

(** The specification of [sort_notaries]: [out] is strictly sorted by
    key, has exactly the keys of the input, and each of its records is
    the canonical record of its group. *)
Definition dedup_spec (l out : list notary) : Prop :=
  StronglySorted (fun a b => key_lt (notary_key a) (notary_key b) = true) out /\
  (forall k, k ∈ map notary_key out <-> k ∈ map notary_key l) /\
  (forall n, n ∈ out -> resolve_group (group_of l (notary_key n)) = Ok [n]).

(** A record whose name is not empty but has no word: [name.split()[0]]
    raises [IndexError] on it. *)
Definition ws_name (n : notary) : bool :=
  bool_decide (name n <> []) && bool_decide (PyStr.split_ws (name n) = []).

(** The first word of the name equals the local part of the mail. *)
Definition matches (n : notary) : bool :=
  match PyStr.split_ws (name n) with
  | t :: _ => bool_decide (Some t = head (PyStr.split_sep (mail n) (py "@")))
  | [] => false
  end.

(** A record the scan passes over without stopping. *)
Definition skipped (n : notary) : Prop := ws_name n = false /\ matches n = false.

(** The order on records: strictly smaller key. *)
Definition key_ltR (a b : notary) : Prop := key_lt (notary_key a) (notary_key b) = true.

(** * Grouping *)

Section Grouping.

Lemma group_snoc l n : group (l ++ [n]) = dict_add (notary_key n) n (group l).
Proof. unfold group. by rewrite fold_left_app. Qed.

Lemma elem_of_dedup_seen seen ks k : k ∈ dedup_seen seen ks <-> k ∈ ks /\ k ∉ seen.
Proof.
  revert seen; induction ks as [|k' ks IH]; intros seen; simpl; [set_solver|].
  case_decide as Hk'.
  - rewrite IH, elem_of_cons. split; [intros [? ?]; auto|].
    intros [[->|?] ?]; [contradiction|auto].
  - rewrite !elem_of_cons, IH, not_elem_of_cons. split; [intros [->|(? & ? & ?)]; auto|].
    intros [[->|?] ?]; [auto|]. destruct (decide (k = k')); auto.
Qed.

Lemma NoDup_dedup_seen seen ks : NoDup (dedup_seen seen ks).
Proof.
  revert seen; induction ks as [|k ks IH]; intros seen; simpl; [constructor|].
  case_decide; [done|]. constructor; [|done].
  rewrite elem_of_dedup_seen. set_solver.
Qed.

Lemma dedup_seen_snoc seen ks k :
  dedup_seen seen (ks ++ [k]) =
  dedup_seen seen ks ++ (if decide (k ∈ seen ++ ks) then [] else [k]).
Proof.
  revert seen; induction ks as [|k' ks IH]; intros seen; simpl.
  - rewrite app_nil_r. by case_decide.
  - case_decide as Hk'; rewrite IH; [|simpl]; f_equal; [|f_equal];
      repeat case_decide; set_solver.
Qed.

Lemma elem_of_keys_first l k : k ∈ keys_first l <-> k ∈ map notary_key l.
Proof. unfold keys_first. rewrite elem_of_dedup_seen. set_solver. Qed.

Lemma NoDup_keys_first l : NoDup (keys_first l).
Proof. apply NoDup_dedup_seen. Qed.

Lemma keys_first_snoc l n :
  keys_first (l ++ [n]) =
  keys_first l ++ (if decide (notary_key n ∈ keys_first l) then [] else [notary_key n]).
Proof.
  unfold keys_first. rewrite map_app. cbn [map]. rewrite dedup_seen_snoc.
  generalize (notary_key n) (map notary_key l). intros k ks. f_equal.
  repeat case_decide; try done; rewrite ?elem_of_dedup_seen in *; set_solver.
Qed.

Lemma group_of_snoc l n k :
  group_of (l ++ [n]) k = group_of l k ++ (if decide (notary_key n = k) then [n] else []).
Proof. unfold group_of. by rewrite filter_app. Qed.

Lemma group_of_nil l k : k ∉ map notary_key l -> group_of l k = [].
Proof.
  intros Hk. induction l as [|m l IH]; [done|]. unfold group_of in *.
  rewrite filter_cons, decide_False by set_solver. apply IH. set_solver.
Qed.

Lemma dict_add_map (F : key -> list notary) ks k n :
  NoDup ks ->
  dict_add k n (map (fun k' => (k', F k')) ks) =
  map (fun k' => (k', if decide (k = k') then F k' ++ [n] else F k')) ks
  ++ (if decide (k ∈ ks) then [] else [(k, [n])]).
Proof.
  induction 1 as [|k' ks Hk' Hks IH]; simpl; [done|].
  destruct (decide (k = k')) as [<-|E]; simpl.
  - rewrite decide_True by set_solver. f_equal; f_equal.
    rewrite app_nil_r. apply map_ext_in. intros k'' Hk''%list_elem_of_In.
    rewrite decide_False; [done|]. set_solver.
  - rewrite IH. f_equal. f_equal. repeat case_decide; set_solver.
Qed.

End Grouping.

Lemma group_eq_spec l : group l = group_spec l.
Proof.
  induction l as [|n l IH] using rev_ind; [done|].
  rewrite group_snoc, IH. unfold group_spec at 1.
  rewrite dict_add_map by apply NoDup_keys_first.
  unfold group_spec. rewrite keys_first_snoc, map_app. f_equal.
  - apply map_ext. intros k'. rewrite group_of_snoc.
    case_decide; [done|by rewrite app_nil_r].
  - case_decide as Hk; [done|]. simpl.
    rewrite group_of_snoc, decide_True by done.
    rewrite group_of_nil; [done|]. by rewrite <- elem_of_keys_first.
Qed.

(** * The key order *)

Section KeyOrder.

Lemma key_compare_refl k : key_compare k k = Eq.
Proof. destruct k as [[a b] c]. simpl. by rewrite !PyStr.compare_refl. Qed.

Lemma key_compare_eq k k' : key_compare k k' = Eq -> k = k'.
Proof.
  destruct k as [[a b] c], k' as [[a' b'] c']. simpl.
  destruct (PyStr.compare a a') eqn:Ea; try discriminate.
  destruct (PyStr.compare b b') eqn:Eb; try discriminate. intros Ec.
  by apply PyStr.compare_eq in Ea as ->, Eb as ->, Ec as ->.
Qed.

Lemma key_compare_antisym k k' : key_compare k' k = CompOpp (key_compare k k').
Proof.
  destruct k as [[a b] c], k' as [[a' b'] c']. simpl.
  rewrite (PyStr.compare_antisym a a'), (PyStr.compare_antisym b b'),
    (PyStr.compare_antisym c c').
  by destruct (PyStr.compare a a'), (PyStr.compare b b').
Qed.

Lemma key_compare_lt_trans k1 k2 k3 :
  key_compare k1 k2 = Lt -> key_compare k2 k3 = Lt -> key_compare k1 k3 = Lt.
Proof.
  destruct k1 as [[a1 b1] c1], k2 as [[a2 b2] c2], k3 as [[a3 b3] c3]. simpl.
  destruct (PyStr.compare a1 a2) eqn:E12; try discriminate;
    destruct (PyStr.compare a2 a3) eqn:E23; try discriminate;
    rewrite ?(PyStr.compare_eq _ _ E12), ?(PyStr.compare_eq _ _ E23) in *;
    rewrite ?PyStr.compare_refl, ?E12, ?E23; try done;
    try (erewrite PyStr.compare_lt_trans by eassumption; done).
  destruct (PyStr.compare b1 b2) eqn:F12; try discriminate;
    destruct (PyStr.compare b2 b3) eqn:F23; try discriminate;
    rewrite ?(PyStr.compare_eq _ _ F12), ?(PyStr.compare_eq _ _ F23) in *;
    rewrite ?PyStr.compare_refl, ?F12, ?F23; try done;
    try (erewrite PyStr.compare_lt_trans by eassumption; done).
  apply PyStr.compare_lt_trans.
Qed.

Lemma key_lt_true k k' : key_lt k k' = true <-> key_compare k k' = Lt.
Proof. unfold key_lt. by destruct (key_compare k k'). Qed.

Lemma key_lt_irrefl k : key_lt k k = false.
Proof. unfold key_lt. by rewrite key_compare_refl. Qed.

Lemma key_lt_asym k k' : key_lt k k' = true -> key_lt k' k = false.
Proof.
  rewrite key_lt_true. intros H. unfold key_lt. by rewrite (key_compare_antisym k k'), H.
Qed.

Lemma key_lt_total k k' : key_lt k k' = false -> k <> k' -> key_lt k' k = true.
Proof.
  unfold key_lt. rewrite (key_compare_antisym k k').
  destruct (key_compare k k') eqn:E; try done.
  intros _ []. by apply key_compare_eq.
Qed.

Lemma key_lt_trans k1 k2 k3 : key_lt k1 k2 = true -> key_lt k2 k3 = true -> key_lt k1 k3 = true.
Proof. rewrite !key_lt_true. apply key_compare_lt_trans. Qed.

End KeyOrder.

(** * Sorting *)

Section Sorting.

Lemma insert_by_key_perm n l : insert_by_key n l ≡ₚ n :: l.
Proof.
  induction l as [|m l IH]; simpl; [done|].
  destruct (key_lt _ _); [done|]. rewrite IH. by constructor.
Qed.

Lemma sort_by_key_aux_perm l acc :
  fold_left (fun acc n => insert_by_key n acc) l acc ≡ₚ l ++ acc.
Proof.
  revert acc; induction l as [|n l IH]; intros acc; simpl; [done|].
  rewrite IH, insert_by_key_perm. by rewrite Permutation_middle.
Qed.

Lemma sort_by_key_perm l : sort_by_key l ≡ₚ l.
Proof. unfold sort_by_key. by rewrite sort_by_key_aux_perm, app_nil_r. Qed.

Lemma not_in_keys_cons k m l :
  k ∉ map notary_key (m :: l) -> k <> notary_key m /\ k ∉ map notary_key l.
Proof. intros H. split; [intros ->|]; set_solver. Qed.

Lemma insert_by_key_strict n l :
  StronglySorted key_ltR l -> notary_key n ∉ map notary_key l ->
  StronglySorted key_ltR (insert_by_key n l).
Proof.
  induction 1 as [|m l Hl IH Hm]; intros Hn; simpl; [by repeat constructor|].
  unfold key_ltR in *. destruct (key_lt _ _) eqn:E.
  - constructor; [by constructor|]. constructor; [done|].
    eapply Forall_impl; [exact Hm|]. intros x. by apply key_lt_trans.
  - apply not_in_keys_cons in Hn as [Hnm Hn].
    constructor; [by apply IH|].
    rewrite (insert_by_key_perm n l).
    constructor; [|done]. by apply key_lt_total.
Qed.

Lemma sort_by_key_strict l :
  NoDup (map notary_key l) -> StronglySorted key_ltR (sort_by_key l).
Proof.
  unfold sort_by_key. cut (forall acc, StronglySorted key_ltR acc ->
    NoDup (map notary_key (l ++ acc)) ->
    StronglySorted key_ltR (fold_left (fun acc n => insert_by_key n acc) l acc)).
  { intros H Hl. apply H; [constructor|by rewrite app_nil_r]. }
  induction l as [|n l IH]; intros acc Hacc Hnd; simpl; [done|].
  apply IH.
  - apply insert_by_key_strict; [done|]. simpl in Hnd. rewrite map_app in Hnd.
    apply NoDup_cons in Hnd as [Hn _]. clear - Hn. key_set_solver.
  - rewrite map_app, insert_by_key_perm. rewrite map_app in Hnd. simpl in *.
    by rewrite <- Permutation_middle.
Qed.

Lemma StronglySorted_key_ltR_NoDup l : StronglySorted key_ltR l -> NoDup l.
Proof.
  induction 1 as [|m l Hl IH Hm]; constructor; [|done].
  intros Hin. eapply Forall_forall in Hm; [|exact Hin].
  unfold key_ltR in Hm. by rewrite key_lt_irrefl in Hm.
Qed.

(** Two strictly sorted lists with the same elements are equal. *)
Lemma StronglySorted_key_ltR_unique l1 l2 :
  StronglySorted key_ltR l1 -> StronglySorted key_ltR l2 ->
  (forall x, x ∈ l1 <-> x ∈ l2) -> l1 = l2.
Proof.
  intros H1 H2 Hx. apply (StronglySorted_unique_strong key_ltR); [|done..|].
  - unfold key_ltR. intros x1 x2 _ _ Ha Hb. by rewrite (key_lt_asym _ _ Ha) in Hb.
  - apply NoDup_Permutation; auto using StronglySorted_key_ltR_NoDup.
Qed.

End Sorting.

(** * The scan of a group *)

Section Scan.

Lemma split_ws_name_nil n : name n = [] -> PyStr.split_ws (name n) = [].
Proof. by intros ->. Qed.

Lemma name_matches_mail_words n t ts :
  PyStr.split_ws (name n) = t :: ts -> name_matches_mail n = Ok (matches n).
Proof.
  intros Hw. unfold name_matches_mail, matches. rewrite Hw.
  destruct (PyStr.get_split_sep (mail n) (py "@")) as (x & Hx & Hhd).
  simpl. rewrite Hx, Hhd. simpl. f_equal.
  apply bool_decide_ext. split; [by intros ->|by intros [= ->]].
Qed.

Lemma find_matching_skip pre rest :
  Forall skipped pre -> find_matching (pre ++ rest) = find_matching rest.
Proof.
  induction 1 as [|m pre [Hws Hm] _ IH]; [done|]. simpl.
  case_bool_decide as Hname; [done|].
  unfold ws_name in Hws. rewrite (bool_decide_eq_true_2 _ Hname) in Hws. simpl in Hws.
  apply bool_decide_eq_false_1 in Hws.
  destruct (PyStr.split_ws (name m)) as [|t ts] eqn:Hw; [done|].
  rewrite (name_matches_mail_words m t ts Hw), Hm. simpl. done.
Qed.

Lemma find_matching_hit n rest :
  matches n = true -> find_matching (n :: rest) = Ok (Some n).
Proof.
  intros Hm. simpl. case_bool_decide as Hname.
  { unfold matches in Hm. by rewrite split_ws_name_nil in Hm. }
  destruct (PyStr.split_ws (name n)) as [|t ts] eqn:Hw; [unfold matches in Hm; by rewrite Hw in Hm|].
  by rewrite (name_matches_mail_words n t ts Hw), Hm.
Qed.

Lemma find_matching_ws n rest :
  ws_name n = true -> find_matching (n :: rest) = Err IndexError.
Proof.
  unfold ws_name. intros [Hname Hw]%andb_prop.
  apply bool_decide_eq_true_1 in Hname, Hw. simpl.
  rewrite bool_decide_eq_false_2 by done. unfold name_matches_mail. by rewrite Hw.
Qed.

Lemma find_matching_only_raises ns : only_raises IndexError (find_matching ns).
Proof.
  induction ns as [|n ns IH]; simpl; [auto with pyx|]. case_bool_decide; [done|].
  unfold name_matches_mail. apply only_raises_bind; [|intros []; auto with pyx]. auto with pyx.
Qed.

Lemma resolve_group_only_raises ns : only_raises IndexError (resolve_group ns).
Proof.
  unfold resolve_group. case_bool_decide; [auto with pyx|].
  apply only_raises_bind; [apply find_matching_only_raises|].
  intros [n|]; auto with pyx.
Qed.

Lemma resolve_groups_only_raises d : only_raises IndexError (resolve_groups d).
Proof.
  induction d as [|[k ns] d IH]; simpl; [auto with pyx|].
  apply only_raises_bind; [apply resolve_group_only_raises|]. auto with pyx.
Qed.

End Scan.

(** * Resolving groups *)

Section Resolve.

Lemma find_matching_Some ns n : find_matching ns = Ok (Some n) -> n ∈ ns.
Proof.
  induction ns as [|m ns IH]; simpl; [done|]. case_bool_decide as Hname.
  - intros H. apply IH in H. by right.
  - intros H. inv_bind H. destruct a; [injection H as <-; by left|].
    apply IH in H. by right.
Qed.

Lemma resolve_group_Ok ns r : resolve_group ns = Ok r -> exists n, r = [n] /\ n ∈ ns.
Proof.
  unfold resolve_group. case_bool_decide as Hlen.
  - intros [= <-]. destruct ns as [|n [|]]; simpl in Hlen; try lia. exists n. set_solver.
  - intros H. inv_bind H. destruct a as [n|].
    + injection H as <-. exists n. split; [done|]. by apply find_matching_Some.
    + inv_bind H. injection H as <-. exists a. split; [done|].
      apply PyStr.get_Ok in Ha0. by apply list_elem_of_lookup_2 in Ha0.
Qed.

Lemma resolve_group_key l k n :
  resolve_group (group_of l k) = Ok [n] -> notary_key n = k /\ n ∈ l.
Proof.
  intros H. apply resolve_group_Ok in H as (m & [= <-] & Hm).
  unfold group_of in Hm. by apply list_elem_of_filter in Hm.
Qed.

Lemma resolve_groups_map (F : key -> list notary) ks rs :
  resolve_groups (map (fun k => (k, F k)) ks) = Ok rs <->
  Forall2 (fun k n => resolve_group (F k) = Ok [n]) ks rs.
Proof.
  revert rs; induction ks as [|k ks IH]; intros rs; simpl.
  - split; [intros [= <-]; constructor|]. by inversion 1.
  - split.
    + intros H. inv_bind H. inv_bind H. injection H as <-.
      destruct (resolve_group_Ok _ _ Ha) as (n & -> & _). constructor; [done|]. by apply IH.
    + inversion 1 as [|? n ? rs' Hk Hrest]; subst. rewrite Hk. simpl.
      apply IH in Hrest. by rewrite Hrest.
Qed.

Lemma Forall2_resolve_keys l ks rs :
  Forall2 (fun k n => resolve_group (group_of l k) = Ok [n]) ks rs ->
  map notary_key rs = ks /\ (forall n, n ∈ rs -> n ∈ l).
Proof.
  induction 1 as [|k n ks rs Hk _ [IH1 IH2]]; [split; [done|set_solver]|].
  apply resolve_group_key in Hk as [<- Hn]. simpl. rewrite IH1.
  split; [done|]. intros m. rewrite elem_of_cons. intros [->|]; auto.
Qed.

Lemma Forall2_resolve_exists l ks :
  (forall k, k ∈ ks -> exists n, resolve_group (group_of l k) = Ok [n]) ->
  exists rs, Forall2 (fun k n => resolve_group (group_of l k) = Ok [n]) ks rs.
Proof.
  induction ks as [|k ks IH]; intros H; [by exists []|].
  destruct (H k) as [n Hn]; [by left|]. destruct IH as [rs Hrs].
  { intros k' Hk'. apply H. by right. }
  exists (n :: rs). by constructor.
Qed.

Lemma Forall2_resolve_elem l ks rs n :
  Forall2 (fun k n => resolve_group (group_of l k) = Ok [n]) ks rs ->
  n ∈ rs <-> exists k, k ∈ ks /\ resolve_group (group_of l k) = Ok [n].
Proof.
  induction 1 as [|k m ks rs Hk _ IH]; [set_solver|].
  rewrite !elem_of_cons, IH. split.
  - intros [->|(k' & ? & ?)]; [exists k; split; [by left|done]|]. exists k'. split; [by right|done].
  - intros (k' & Hk' & Hn). apply elem_of_cons in Hk' as [->|Hk']; [left; congruence|right; eauto].
Qed.

Lemma elem_of_map_key k l : k ∈ map notary_key l <-> exists n, k = notary_key n /\ n ∈ l.
Proof.
  rewrite list_elem_of_In, in_map_iff. setoid_rewrite list_elem_of_In. naive_solver.
Qed.

Lemma sort_notaries_unfold l :
  sort_notaries l = (rs ← resolve_groups (group_spec l); Ok (sort_by_key rs)).
Proof. unfold sort_notaries. by rewrite group_eq_spec. Qed.

Lemma StronglySorted_keys_NoDup out :
  StronglySorted key_ltR out -> NoDup (map notary_key out).
Proof.
  induction 1 as [|m l Hl IH Hm]; simpl; constructor; [|done].
  intros (n & Heq & Hn)%elem_of_map_key. eapply Forall_forall in Hm; [|exact Hn].
  unfold key_ltR in Hm. by rewrite Heq, key_lt_irrefl in Hm.
Qed.

Lemma group_of_sorted out n :
  StronglySorted key_ltR out -> n ∈ out -> group_of out (notary_key n) = [n].
Proof.
  intros Hs Hn. pose proof (StronglySorted_keys_NoDup _ Hs) as Hnd.
  induction Hs as [|m l Hl IH Hm]; [set_solver|]. simpl in Hnd.
  apply NoDup_cons in Hnd as [Hmk Hnd]. unfold group_of.
  apply elem_of_cons in Hn as [->|Hn].
  - rewrite filter_cons_True by done. f_equal. by apply group_of_nil.
  - rewrite filter_cons_False; [by apply IH|]. intros Heq. apply Hmk.
    apply elem_of_map_key. eauto.
Qed.

Lemma elem_of_keys_group_of l k : k ∈ map notary_key l <-> group_of l k <> [].
Proof.
  split.
  - intros (n & -> & Hn)%elem_of_map_key Hnil.
    assert (n ∈ group_of l (notary_key n)) as Hin by (by apply list_elem_of_filter).
    rewrite Hnil in Hin. set_solver.
  - intros Hne. destruct (decide (k ∈ map notary_key l)) as [|Hk]; [done|].
    by apply group_of_nil in Hk.
Qed.

Lemma dedup_spec_groups l1 l2 out :
  (forall k, group_of l1 k = group_of l2 k) -> dedup_spec l1 out -> dedup_spec l2 out.
Proof.
  intros Hg (Hs & Hk & Hc). split; [done|split].
  - intros k. rewrite Hk, !elem_of_keys_group_of, Hg. done.
  - intros n Hn. rewrite <- Hg. by apply Hc.
Qed.

(** Without blank names, the scan of a group stops at a match or runs
    through the whole group. *)
Lemma find_matching_cases ns :
  Forall (fun n => ws_name n = false) ns ->
  Forall skipped ns \/
  exists pre n post, ns = pre ++ n :: post /\ Forall skipped pre /\ matches n = true.
Proof.
  induction 1 as [|m ns Hm _ IH]; [by left|].
  destruct (matches m) eqn:Em.
  - right. by exists [], m, ns.
  - destruct IH as [IH|(pre & n & post & -> & Hpre & Hn)].
    + left. constructor; [split|]; done.
    + right. exists (m :: pre), n, post. split; [done|]. split; [|done].
      constructor; [split|]; done.
Qed.

Lemma resolve_group_total ns :
  ns <> [] -> Forall (fun n => ws_name n = false) ns ->
  exists n, resolve_group ns = Ok [n].
Proof.
  intros Hne Hws. unfold resolve_group. case_bool_decide as Hlen.
  { destruct ns as [|n [|]]; simpl in Hlen; try lia. by exists n. }
  destruct (find_matching_cases ns Hws) as [Hall|(pre & n & post & -> & Hpre & Hn)].
  - rewrite <- (app_nil_r ns), find_matching_skip by done. simpl.
    destruct ns as [|n ns]; [done|]. by exists n.
  - exists n. by rewrite find_matching_skip, find_matching_hit.
Qed.

Lemma sort_notaries_only_raises l : only_raises IndexError (sort_notaries l).
Proof.
  unfold sort_notaries. apply only_raises_bind; [apply resolve_groups_only_raises|].
  auto with pyx.
Qed.

End Resolve.


(** C3: in a group of two or more records, the record kept is the first
    one whose first name equals the local part of its mail, provided the
    records before it are passed over (empty name, or a name whose first
    word does not match). The comparison is exact, case included. *)
Theorem resolve_group_first_match ns pre n post :
  2 <= length ns -> ns = pre ++ n :: post ->
  Forall skipped pre -> matches n = true ->
  resolve_group ns = Ok [n].
Proof.
  intros Hlen -> Hpre Hm. unfold resolve_group.
  rewrite bool_decide_eq_false_2 by lia.
  by rewrite find_matching_skip, find_matching_hit.
Qed.

Lemma resolve_group_first_match_witness : resolve_group [marie; jean] = Ok [jean].
Proof.
  apply (resolve_group_first_match _ [marie] jean []);
    [simpl; lia | reflexivity | repeat constructor | vm_compute; reflexivity].
Defined.


(** C4: in a group of two or more records none of which matches (and
    none of which has a blank name), the first record of the group, in
    fetch-completion order, is kept. *)
Theorem resolve_group_fallback ns n rest :
  2 <= length ns -> ns = n :: rest -> Forall skipped ns ->
  resolve_group ns = Ok [n].
Proof.
  intros Hlen Hns Hall. unfold resolve_group.
  rewrite bool_decide_eq_false_2 by lia.
  rewrite <- (app_nil_r ns), find_matching_skip by done. simpl. by rewrite Hns.
Qed.

Lemma resolve_group_fallback_witness : resolve_group [marie_lc; jean_lc] = Ok [marie_lc].
Proof.
  apply (resolve_group_fallback _ marie_lc [jean_lc]);
    [simpl; lia | reflexivity | repeat constructor].
Defined.


(** C5: in a group of two or more records, a record whose name is
    non-empty but made only of whitespace, reached before any matching
    record, makes the scan raise [IndexError] ([name.split()[0]] on an
    empty list), which aborts the whole run. *)
Theorem resolve_group_raises ns pre n post :
  2 <= length ns -> ns = pre ++ n :: post ->
  Forall skipped pre -> ws_name n = true ->
  resolve_group ns = Err IndexError.
Proof.
  intros Hlen -> Hpre Hws. unfold resolve_group.
  rewrite bool_decide_eq_false_2 by lia.
  by rewrite find_matching_skip, find_matching_ws.
Qed.

Lemma resolve_group_raises_witness : resolve_group [blank; jean] = Err IndexError.
Proof.
  apply (resolve_group_raises _ [] blank [jean]);
    [simpl; lia | reflexivity | constructor | vm_compute; reflexivity].
Defined.


(** * Correctness of [sort_notaries] *)

Lemma sort_notaries_dedup_spec l out :
  sort_notaries l = Ok out <-> dedup_spec l out.
Proof.
  rewrite sort_notaries_unfold. unfold group_spec. split.
  - intros H. inv_bind H. injection H as <-. apply resolve_groups_map in Ha.
    destruct (Forall2_resolve_keys _ _ _ Ha) as [Hkeys _].
    split; [|split].
    + apply sort_by_key_strict. rewrite Hkeys. apply NoDup_keys_first.
    + intros k. rewrite (sort_by_key_perm a), Hkeys. apply elem_of_keys_first.
    + intros n Hn. rewrite (sort_by_key_perm a) in Hn.
      apply (Forall2_resolve_elem _ _ _ n Ha) in Hn as (k & _ & Hres).
      by rewrite (proj1 (resolve_group_key _ _ _ Hres)).
  - intros (Hsorted & Hkeys & Hcanon).
    destruct (Forall2_resolve_exists l (keys_first l)) as [rs Hrs].
    { intros k Hk. apply elem_of_keys_first, Hkeys, elem_of_map_key in Hk as (n & -> & Hn).
      exists n. by apply Hcanon. }
    rewrite (proj2 (resolve_groups_map _ _ _) Hrs). simpl. f_equal.
    destruct (Forall2_resolve_keys _ _ _ Hrs) as [Hk _].
    apply StronglySorted_key_ltR_unique; [| exact Hsorted |].
    { apply sort_by_key_strict. rewrite Hk. apply NoDup_keys_first. }
    intros x. rewrite (sort_by_key_perm rs), (Forall2_resolve_elem _ _ _ x Hrs). split.
    + intros (k & Hkf & Hres).
      apply elem_of_keys_first, Hkeys, elem_of_map_key in Hkf as (m & -> & Hm).
      rewrite Hcanon in Hres by done. by injection Hres as ->.
    + intros Hx. exists (notary_key x). split; [|by apply Hcanon].
      apply elem_of_keys_first, Hkeys, elem_of_map_key. eauto.
Qed.

(** Every record [sort_notaries] returns is one of its input records. *)
Lemma sort_notaries_sub l out : sort_notaries l = Ok out -> forall n, n ∈ out -> n ∈ l.
Proof.
  intros (_ & _ & Hc)%sort_notaries_dedup_spec n Hn.
  by apply (resolve_group_key l (notary_key n)), Hc.
Qed.

Lemma StronglySorted_map_key out :
  StronglySorted key_ltR out ->
  StronglySorted (fun a b => key_lt a b = true) (map notary_key out).
Proof.
  induction 1 as [|m l Hl IH Hm]; simpl; constructor; [done|].
  apply Forall_map. exact Hm.
Qed.

(** Permuting the input does not change the keys of the output, nor
    their order. *)
Lemma sort_notaries_perm_keys l1 l2 o1 o2 :
  l1 ≡ₚ l2 -> sort_notaries l1 = Ok o1 -> sort_notaries l2 = Ok o2 ->
  map notary_key o1 = map notary_key o2.
Proof.
  intros Hp (S1 & K1 & _)%sort_notaries_dedup_spec (S2 & K2 & _)%sort_notaries_dedup_spec.
  apply (StronglySorted_unique_strong (fun a b => key_lt a b = true));
    [|by apply StronglySorted_map_key..|].
  - intros x1 x2 _ _ Ha Hb. by rewrite (key_lt_asym _ _ Ha) in Hb.
  - apply NoDup_Permutation; [by apply StronglySorted_keys_NoDup..|].
    intros k. by rewrite K1, K2, Hp.
Qed.

(** C2: the grouping loop of [sort_notaries] builds, in insertion order,
    exactly one entry per distinct key, holding all the records with that
    key in input order: the dict refines [group_spec]. *)
Theorem group_refines l : group l = group_spec l.
Proof. apply group_eq_spec. Qed.

(** C1: [sort_notaries] returns [out] exactly when [out] is strictly
    sorted by (address, phone, mail), has the same keys as the input and
    holds, for each key, the canonical record of its group. The code
    therefore refines [dedup_spec], and it raises only when no list meets
    the specification. *)
Theorem sort_notaries_correct l out :
  sort_notaries l = Ok out <-> dedup_spec l out.
Proof. apply sort_notaries_dedup_spec. Qed.


(** C30: [sort_notaries] is idempotent: its output, fed back to it,
    comes out unchanged (every group is then a singleton). *)
Theorem sort_notaries_idem l out :
  sort_notaries l = Ok out -> sort_notaries out = Ok out.
Proof.
  rewrite !sort_notaries_dedup_spec. intros (Hs & _ & _).
  split; [done|split; [done|]]. intros n Hn.
  by rewrite (group_of_sorted out n Hs Hn).
Qed.

Lemma sort_notaries_idem_witness :
  sort_notaries [marie; paul; jean] = Ok [jean; paul] /\
  sort_notaries [jean; paul] = Ok [jean; paul].
Proof.
  assert (H : sort_notaries [marie; paul; jean] = Ok [jean; paul]) by (vm_compute; reflexivity).
  split; [exact H | exact (sort_notaries_idem _ _ H)].
Defined.


(** C28: the result, error included, depends on the input only through
    its groups: reordering records of different keys (the fetch
    completions of different listings) never changes it. Only the order
    of records that share a key can matter. *)
Theorem sort_notaries_groups_ext l1 l2 :
  (forall k, group_of l1 k = group_of l2 k) -> sort_notaries l1 = sort_notaries l2.
Proof.
  intros Hg. destruct (sort_notaries l1) as [o1|e1] eqn:E1.
  - symmetry. apply sort_notaries_dedup_spec, (dedup_spec_groups l1); [done|].
    by apply sort_notaries_dedup_spec.
  - destruct (sort_notaries l2) as [o2|e2] eqn:E2.
    + apply sort_notaries_dedup_spec, (dedup_spec_groups l2 l1) in E2; [|done].
      apply sort_notaries_dedup_spec in E2. congruence.
    + by rewrite (sort_notaries_only_raises _ _ E1), (sort_notaries_only_raises _ _ E2).
Qed.

Lemma sort_notaries_groups_ext_witness :
  sort_notaries [marie; paul; jean] = sort_notaries [paul; marie; jean].
Proof.
  apply sort_notaries_groups_ext. intros k. unfold group_of. rewrite !filter_cons.
  destruct (decide (notary_key marie = k)) as [Hm|],
    (decide (notary_key paul = k)) as [Hp|]; try reflexivity.
  exfalso. rewrite <- Hm in Hp. vm_compute in Hp. discriminate.
Defined.


Lemma sort_notaries_Ok l :
  Forall (fun n => ws_name n = false) l -> exists out, sort_notaries l = Ok out.
Proof.
  intros Hws. rewrite sort_notaries_unfold. unfold group_spec.
  destruct (Forall2_resolve_exists l (keys_first l)) as [rs Hrs].
  { intros k Hk. apply resolve_group_total.
    - by apply elem_of_keys_group_of, elem_of_keys_first.
    - apply Forall_forall. intros n Hn. apply list_elem_of_filter in Hn as [_ Hn].
      by eapply Forall_forall in Hws. }
  rewrite (proj2 (resolve_groups_map _ _ _) Hrs). by eexists.
Qed.

(** C29: [sort_notaries] can only raise [IndexError], and only when some
    record has a blank name. *)
Theorem sort_notaries_raises l e :
  sort_notaries l = Err e -> e = IndexError /\ Exists (fun n => ws_name n = true) l.
Proof.
  intros H. split; [by apply sort_notaries_only_raises in H|].
  destruct (decide (Exists (fun n => ws_name n = true) l)) as [|Hno]; [done|].
  exfalso. destruct (sort_notaries_Ok l) as [out Hout]; [|congruence].
  apply Forall_forall. intros n Hn. apply not_true_iff_false. intros Hw.
  apply Hno, Exists_exists. eauto.
Qed.

Lemma sort_notaries_raises_witness :
  IndexError = IndexError /\ Exists (fun n => ws_name n = true) [paul; blank; jean].
Proof.
  apply (sort_notaries_raises [paul; blank; jean] IndexError). vm_compute. reflexivity.
Defined.


(** The number of records after deduplication (printed by [main])
    is the number of distinct keys of the input. *)
Lemma sort_notaries_length l out :
  sort_notaries l = Ok out -> length out = length (keys_first l).
Proof.
  intros H. apply sort_notaries_dedup_spec in H as (Hs & Hk & _).
  rewrite <- (length_map notary_key out). apply Permutation_length, NoDup_Permutation.
  - by apply StronglySorted_keys_NoDup.
  - apply NoDup_keys_first.
  - intros k. by rewrite elem_of_keys_first, Hk.
Qed.

Lemma dedup_seen_length seen ks : length (dedup_seen seen ks) <= length ks.
Proof.
  revert seen; induction ks as [|k ks IH]; intros seen; simpl; [done|].
  destruct (decide (k ∈ seen)); simpl; [specialize (IH seen)|specialize (IH (k :: seen))]; lia.
Qed.

(** Deduplication never adds a record and keeps at least one of a
    non-empty list. *)
Lemma sort_notaries_length_le l out :
  sort_notaries l = Ok out -> length out <= length l /\ (l <> [] -> out <> []).
Proof.
  intros H. pose proof (sort_notaries_length _ _ H) as Hl. unfold keys_first in Hl. split.
  - rewrite Hl, <- (length_map notary_key l). apply dedup_seen_length.
  - destruct l as [|n l]; [done|]. intros _ ->. cbn [map dedup_seen] in Hl.
    destruct (decide (notary_key n ∈ [])) as [Hin|]; [by apply elem_of_nil in Hin|discriminate].
Qed.

Lemma sort_notaries_length_witness :
  length [jean; paul] = length (keys_first [marie; paul; jean]).
Proof. apply (sort_notaries_length [marie; paul; jean]). vm_compute. reflexivity. Defined.

(** C6: whether [sort_notaries] raises depends on the order of the
    records of a group: for any two records with the same key, one whose
    name is white space only and one whose first name matches its
    mailbox, the group [b, j] raises [IndexError] at [name.split()[0]]
    while the group [j, b] keeps [j]. In [main] that order is the order
    in which detail pages complete. *)
Theorem sort_notaries_order_dependent b j :
  notary_key b = notary_key j -> ws_name b = true -> matches j = true ->
  sort_notaries [b; j] = Err IndexError /\ sort_notaries [j; b] = Ok [j].
Proof.
  intros Hk Hb Hj. unfold sort_notaries, group. cbn [fold_left dict_add].
  rewrite Hk, !decide_True by done. cbn [resolve_groups app]. unfold resolve_group.
  rewrite !bool_decide_eq_false_2 by (simpl; lia).
  rewrite find_matching_ws, find_matching_hit by done. done.
Qed.

Lemma sort_notaries_order_dependent_witness :
  sort_notaries [blank; jean] = Err IndexError /\ sort_notaries [jean; blank] = Ok [jean].
Proof. apply sort_notaries_order_dependent; vm_compute; reflexivity. Defined.

(** The name/mail comparison is case-sensitive: with the mailbox
    [jean@etude.fr], "Jean Dupont" does not match and the first listing
    of the group is kept, whichever it is. *)
Lemma sort_notaries_case_sensitive :
  sort_notaries [marie_lc; jean_lc] = Ok [marie_lc] /\
  sort_notaries [jean_lc; marie_lc] = Ok [jean_lc].
Proof. split; vm_compute; reflexivity. Qed.


End Dedup.
