(* ===== verification/Html.v ===== *)
(** The part of BeautifulSoup (bs4, an external library) that the
    extractors of asyncNotary.py call, with the semantics of its
    documentation and source: a parsed page is a tree of tags and
    strings; [tag.find(name, class_)] returns the first matching tag among
    the descendants in document order, or [None]; [tag.findAll(name)]
    returns all of them; [tag.text] concatenates the strings below a tag;
    [tag[attr]] reads an attribute and raises [KeyError] when it is absent.
    A [class] attribute is multi-valued: [class_="a b"] matches a tag one of
    whose classes is ["a b"] or whose classes, joined by one space, are
    ["a b"].

    The Python-level operations on a value that may be [None] are kept
    apart: a method call on [None] raises [AttributeError], a subscript of
    [None] raises [TypeError]. *)

From S2P Require Import Prelude PyStr.
From stdpp Require Import base list decidable.

Module Html.

Inductive node :=
  | Element (tag : pystr) (attrs : list (pystr * pystr)) (children : list node)
  | Text (s : pystr).

(** The descendants of a node, in document order (pre-order). *)
Fixpoint descendants (n : node) : list node :=
  match n with
  | Text _ => []
  | Element _ _ kids =>
      (fix go (ks : list node) : list node :=
         match ks with
         | [] => []
         | k :: ks' => k :: descendants k ++ go ks'
         end) kids
  end.

(** Attribute lookup; the parser keeps the last of duplicate attributes. *)
Definition attr_value (attrs : list (pystr * pystr)) (k : pystr) : option pystr :=
  snd <$> head (filter (fun kv => kv.1 = k) (reverse attrs)).

Definition classes (attrs : list (pystr * pystr)) : list pystr :=
  match attr_value attrs (py "class") with
  | Some v => PyStr.split_ws v
  | None => []
  end.

(** [class_=c] on a tag: one class equals [c], or all of them joined. *)
Definition class_matches (attrs : list (pystr * pystr)) (c : pystr) : bool :=
  match classes attrs with
  | [] => false
  | cs => bool_decide (c ∈ cs) || bool_decide (PyStr.join [PyStr.space] cs = c)
  end.

(** The search filter [name, class_=cls] of [find] and [findAll]. *)
Definition matches_filter (name : pystr) (cls : option pystr) (n : node) : bool :=
  match n with
  | Element t attrs _ =>
      bool_decide (t = name) &&
      match cls with None => true | Some c => class_matches attrs c end
  | Text _ => false
  end.

Definition find_all (n : node) (name : pystr) (cls : option pystr) : list node :=
  List.filter (matches_filter name cls) (descendants n).

Definition find (n : node) (name : pystr) (cls : option pystr) : option node :=
  head (find_all n name cls).

(** [tag.text]: the strings below the tag, in document order. *)
Definition get_text (n : node) : pystr :=
  mjoin (map (fun d => match d with Text s => s | Element _ _ _ => [] end) (descendants n)).

(** ** Python calls on a value that may be [None] *)

(** [x.find(name, class_=cls)] *)
Definition find_ (x : option node) (name : pystr) (cls : option pystr) : res (option node) :=
  match x with
  | None => Err AttributeError
  | Some n => Ok (find n name cls)
  end.

(** [x.findAll(name, cls)] *)
Definition find_all_ (x : option node) (name : pystr) (cls : option pystr) : res (list node) :=
  match x with
  | None => Err AttributeError
  | Some n => Ok (find_all n name cls)
  end.

(** [x.text] *)
Definition text_ (x : option node) : res pystr :=
  match x with
  | None => Err AttributeError
  | Some n => Ok (get_text n)
  end.

(** [x[k]] on a tag or [None] *)
Definition subscript (x : option node) (k : pystr) : res pystr :=
  match x with
  | None => Err TypeError
  | Some (Element _ attrs _) =>
      match attr_value attrs k with
      | Some v => Ok v
      | None => Err KeyError
      end
  | Some (Text _) => Err TypeError
  end.

(** * Lemmas *)

Lemma find_Some n name cls d :
  find n name cls = Some d -> d ∈ descendants n /\ matches_filter name cls d = true.
Proof.
  unfold find, find_all. intros H.
  destruct (List.filter _ _) as [|x xs] eqn:E; simpl in H; [done|]. injection H as ->.
  assert (In d (List.filter (matches_filter name cls) (descendants n))) as Hin
    by (rewrite E; by left).
  apply filter_In in Hin as [Hin ?]. split; [by apply list_elem_of_In|done].
Qed.

Lemma find_None n name cls :
  find n name cls = None -> forall d, d ∈ descendants n -> matches_filter name cls d = false.
Proof.
  unfold find, find_all. intros H d Hd.
  destruct (List.filter _ _) as [|x xs] eqn:E; [|done].
  destruct (matches_filter name cls d) eqn:Em; [|done].
  assert (In d (List.filter (matches_filter name cls) (descendants n))) as Hin.
  { apply filter_In. split; [by apply list_elem_of_In|done]. }
  by rewrite E in Hin.
Qed.

Lemma find_Some_tag n name cls d :
  find n name cls = Some d -> exists attrs kids, d = Element name attrs kids.
Proof.
  intros [_ Hm]%find_Some. destruct d as [t attrs kids|]; [|done].
  simpl in Hm. apply andb_prop in Hm as [Ht _]. apply bool_decide_eq_true_1 in Ht as ->.
  eauto.
Qed.

(** Case on every [find] of the goal. *)
Ltac destruct_finds :=
  repeat match goal with
  | |- context [find ?n ?t ?c] =>
      let E := fresh "Efind" in destruct (find n t c) eqn:E
  end.

(** The same on a hypothesis, reducing the binds it unblocks. *)
Ltac destruct_finds_in H :=
  repeat match type of H with
  | context [find ?n ?t ?c] =>
      let E := fresh "Efind" in
      destruct (find n t c) eqn:E; cbn [mbind res_bind except_attr] in H
  end.

End Html.
