(* ===== verification/HtmlParse.v ===== *)
(** [BeautifulSoup(text, 'html.parser')] (asyncNotary.py line 17) on the
    markup of well-formed pages: Python's [html.parser.HTMLParser] cuts
    the text into start tags, end tags and character data, and bs4's tree
    builder ([BeautifulSoup.handle_starttag], [handle_endtag],
    [endData], [_popToTag], [pushTag], [popTag]) turns the events into
    the tree of [Html].

    The tokenizer ([lex_from], [tokenize]) accepts a fragment of HTML and
    returns [None] outside it: lower-case tag names, attributes written
    [ name="value"] with a value without [&], quotes or angle brackets,
    text without [<] or [&] (so no character reference), no comment,
    declaration or self-closing tag, and none of the tags the parser or
    bs4 treat apart (void elements, raw-text elements such as [script],
    and the string containers [template], [rt], [rp]). On that fragment
    it gives the events [HTMLParser] gives.

    The tree builder ([bstep], [build]) follows bs4 on every sequence of
    events: attributes go through a dict (a repeated name keeps its first
    position and its last value), data is buffered until the next tag and
    a buffer made only of ASCII white space becomes one newline or one
    space outside [pre] and [textarea], an end tag closes the most recent
    open tag of its name and every tag opened after it (and is ignored
    when none is open), and the end of the text closes every open tag.

    The theorem: rendering a well-formed forest and parsing it back
    gives the forest. *)

From S2P Require Import Prelude PyStr Html.
From stdpp Require Import base list decidable.

Module HtmlParse.

Import Html.

(** ** Characters *)

Definition lt_ : char := 60%N.
Definition gt_ : char := 62%N.
Definition slash : char := 47%N.
Definition equals : char := 61%N.
Definition dquote : char := 34%N.
Definition amp : char := 38%N.
Definition lf : char := 10%N.

Definition is_lower (c : char) : bool := (97 <=? c)%N && (c <=? 122)%N.

(** The characters of the tag and attribute names of the fragment. *)
Definition name_char (c : char) : bool := is_lower c || PyStr.is_digit c || bool_decide (c = 45%N).

Definition text_char (c : char) : bool := negb (bool_decide (c = lt_)) && negb (bool_decide (c = amp)).

Definition value_char (c : char) : bool :=
  text_char c && negb (bool_decide (c = gt_)) && negb (bool_decide (c = dquote)).

(** bs4's [ASCII_SPACES]: space, newline, tab, form feed, carriage return. *)
Definition ascii_space (c : char) : bool :=
  bool_decide (c = 32%N) || bool_decide (c = 10%N) || bool_decide (c = 9%N) ||
  bool_decide (c = 12%N) || bool_decide (c = 13%N).

Definition name_ok (n : pystr) : bool :=
  match n with c :: _ => is_lower c && forallb name_char n | [] => false end.

(** The tags the fragment leaves out: bs4's empty-element tags, the
    raw-text and escapable raw-text elements of [HTMLParser], and bs4's
    string containers. *)
Definition special_tags : list pystr :=
  [py "area"; py "base"; py "br"; py "col"; py "embed"; py "hr"; py "img"; py "input";
   py "keygen"; py "link"; py "menuitem"; py "meta"; py "param"; py "source"; py "track";
   py "wbr"; py "basefont"; py "bgsound"; py "command"; py "frame"; py "image";
   py "isindex"; py "nextid"; py "spacer"; py "script"; py "style"; py "textarea";
   py "title"; py "xmp"; py "iframe"; py "noembed"; py "noframes"; py "noscript";
   py "plaintext"; py "template"; py "rt"; py "rp"].

Definition tag_allowed (n : pystr) : bool := name_ok n && negb (bool_decide (n ∈ special_tags)).

(** ** Tokens and the tokenizer *)

Inductive token :=
  | StartTag (tag : pystr) (attrs : list (pystr * pystr))
  | EndTag (tag : pystr)
  | Data (s : pystr).

(** Where the tokenizer is: in character data (with the data read so
    far), after [<], in a tag name, between attributes, in an attribute
    name, after [=], in a quoted value, in an end tag's name. *)
Inductive lstate :=
  | LData (buf : pystr)
  | LLt
  | LName (n : pystr)
  | LTag (n : pystr) (attrs : list (pystr * pystr))
  | LAname (n : pystr) (attrs : list (pystr * pystr)) (a : pystr)
  | LEq (n : pystr) (attrs : list (pystr * pystr)) (a : pystr)
  | LVal (n : pystr) (attrs : list (pystr * pystr)) (a v : pystr)
  | LEnd (n : pystr).

(** After a tag name or a quoted value: [>] ends the start tag, a space
    starts an attribute. *)
Definition lstep_tag (n : pystr) (attrs : list (pystr * pystr)) (c : char) :
    option (lstate * option token) :=
  if bool_decide (c = gt_) then
    if tag_allowed n then Some (LData [], Some (StartTag n attrs)) else None
  else if bool_decide (c = PyStr.space) then Some (LAname n attrs [], None)
  else None.

Definition lstep (st : lstate) (c : char) : option (lstate * option token) :=
  match st with
  | LData buf =>
      if bool_decide (c = lt_) then
        Some (LLt, match buf with [] => None | _ => Some (Data buf) end)
      else if text_char c then Some (LData (buf ++ [c]), None) else None
  | LLt =>
      if bool_decide (c = slash) then Some (LEnd [], None)
      else if is_lower c then Some (LName [c], None) else None
  | LName n => if name_char c then Some (LName (n ++ [c]), None) else lstep_tag n [] c
  | LTag n attrs => lstep_tag n attrs c
  | LAname n attrs a =>
      if name_char c then Some (LAname n attrs (a ++ [c]), None)
      else if bool_decide (c = equals) && bool_decide (a <> []) then Some (LEq n attrs a, None)
      else None
  | LEq n attrs a => if bool_decide (c = dquote) then Some (LVal n attrs a [], None) else None
  | LVal n attrs a v =>
      if bool_decide (c = dquote) then Some (LTag n (attrs ++ [(a, v)]), None)
      else if value_char c then Some (LVal n attrs a (v ++ [c]), None) else None
  | LEnd n =>
      if name_char c then Some (LEnd (n ++ [c]), None)
      else if bool_decide (c = gt_) && tag_allowed n then Some (LData [], Some (EndTag n))
      else None
  end.

Definition emit (acc : list token) (o : option token) : list token :=
  match o with Some t => acc ++ [t] | None => acc end.

(** [HTMLParser.close()]: the data left is flushed; the text may not
    stop inside a tag. *)
Definition lex_end (st : lstate) (acc : list token) : option (list token) :=
  match st with
  | LData [] => Some acc
  | LData buf => Some (acc ++ [Data buf])
  | _ => None
  end.

Fixpoint lex_from (st : lstate) (acc : list token) (s : pystr) : option (list token) :=
  match s with
  | [] => lex_end st acc
  | c :: s' =>
      match lstep st c with
      | Some (st', o) => lex_from st' (emit acc o) s'
      | None => None
      end
  end.

Definition tokenize (s : pystr) : option (list token) := lex_from (LData []) [] s.

(** ** The tree builder *)

Record frame := Frame { f_tag : pystr; f_attrs : list (pystr * pystr); f_kids : list node }.

(** bs4's parser state: the open tags, the innermost first (the
    [BeautifulSoup] object itself is not on it), the children of the
    document, and the buffered data ([current_data]). *)
Record bstate := BState { stack : list frame; root : list node; pending : pystr }.

Definition doc_tag : pystr := py "[document]".

Definition preserve_tags : list pystr := [py "pre"; py "textarea"].

(** [attr_dict[key] = value] on a dict kept in insertion order. *)
Definition attr_add (d : list (pystr * pystr)) (kv : pystr * pystr) : list (pystr * pystr) :=
  if bool_decide (kv.1 ∈ d.*1) then (fun kv' => if bool_decide (kv'.1 = kv.1) then kv else kv') <$> d
  else d ++ [kv].

(** The attribute dict of [handle_starttag]. *)
Definition attr_dict (attrs : list (pystr * pystr)) : list (pystr * pystr) :=
  fold_left attr_add attrs [].

(** [object_was_parsed] / [pushTag]: a new child of the current tag. *)
Definition add_child (k : node) (st : bstate) : bstate :=
  match stack st with
  | f :: fs => BState (Frame (f_tag f) (f_attrs f) (f_kids f ++ [k]) :: fs) (root st) (pending st)
  | [] => BState [] (root st ++ [k]) (pending st)
  end.

Definition preserving (st : bstate) : bool :=
  existsb (fun f => bool_decide (f_tag f ∈ preserve_tags)) (stack st).

Definition collapse (pres : bool) (s : pystr) : pystr :=
  if pres then s
  else if forallb ascii_space s then (if bool_decide (lf ∈ s) then [lf] else [PyStr.space])
  else s.

Definition endData (st : bstate) : bstate :=
  match pending st with
  | [] => st
  | s => add_child (Text (collapse (preserving st) s)) (BState (stack st) (root st) [])
  end.

Definition pushTag (n : pystr) (attrs : list (pystr * pystr)) (st : bstate) : bstate :=
  BState (Frame n (attr_dict attrs) [] :: stack st) (root st) (pending st).

Definition popTag (st : bstate) : bstate :=
  match stack st with
  | f :: fs => add_child (Element (f_tag f) (f_attrs f) (f_kids f)) (BState fs (root st) (pending st))
  | [] => st
  end.

(** [_popToTag(name)]: pop up to the most recent open tag [name]. *)
Definition popToTag (n : pystr) (st : bstate) : bstate :=
  if bool_decide (n = doc_tag) then st else
  match list_find (fun f => f_tag f = n) (stack st) with
  | Some (i, _) => Nat.iter (S i) popTag st
  | None => st
  end.

Definition bstep (st : bstate) (t : token) : bstate :=
  match t with
  | Data s => BState (stack st) (root st) (pending st ++ s)
  | StartTag n attrs => pushTag n attrs (endData st)
  | EndTag n => popToTag n (endData st)
  end.

(** [BeautifulSoup._feed]: the events, then [endData] and every open
    tag popped. *)
Definition build (ts : list token) : node :=
  let st := endData (fold_left bstep ts (BState [] [] [])) in
  Element doc_tag [] (root (endData (Nat.iter (length (stack st)) popTag st))).

Definition parse (s : pystr) : option node := build <$> tokenize s.

(** ** Rendering and the well-formed fragment *)

Definition render_attr (kv : pystr * pystr) : pystr :=
  [PyStr.space] ++ kv.1 ++ [equals; dquote] ++ kv.2 ++ [dquote].

Fixpoint render (n : node) : pystr :=
  match n with
  | Text s => s
  | Element t attrs kids =>
      [lt_] ++ t ++ mjoin (map render_attr attrs) ++ [gt_] ++
      (fix go (ks : list node) : pystr := match ks with [] => [] | k :: ks' => render k ++ go ks' end) kids ++
      [lt_; slash] ++ t ++ [gt_]
  end.

Definition render_doc (kids : list node) : pystr := mjoin (map render kids).

(** Text that comes back as it is: not empty, no markup character, and
    not white space that bs4 would collapse. *)
Definition text_ok (s : pystr) : bool :=
  bool_decide (s <> []) && forallb text_char s &&
  (negb (forallb ascii_space s) || bool_decide (s = [PyStr.space]) || bool_decide (s = [lf])).

Definition attrs_ok (attrs : list (pystr * pystr)) : bool :=
  bool_decide (NoDup attrs.*1) &&
  forallb (fun kv => bool_decide (kv.1 <> []) && forallb name_char kv.1 && forallb value_char kv.2) attrs.

(** Two strings in a row would come back as one. *)
Fixpoint no_adj_text (ks : list node) : bool :=
  match ks with
  | [] => true
  | k :: ks' =>
      match k, ks' with Text _, Text _ :: _ => false | _, _ => true end && no_adj_text ks'
  end.

Fixpoint wf_node (n : node) : bool :=
  match n with
  | Text s => text_ok s
  | Element t attrs kids =>
      tag_allowed t && attrs_ok attrs && no_adj_text kids &&
      (fix go (ks : list node) : bool := match ks with [] => true | k :: ks' => wf_node k && go ks' end) kids
  end.

Definition wf_doc (kids : list node) : bool := forallb wf_node kids && no_adj_text kids.

(** The events [HTMLParser] reports for a tree it reads back. *)
Fixpoint tokens_of (n : node) : list token :=
  match n with
  | Text s => [Data s]
  | Element t attrs kids => StartTag t attrs :: concat (map tokens_of kids) ++ [EndTag t]
  end.

(** The rest of the input after a string: nothing, or a tag. *)
Definition opens (r : pystr) : Prop := match r with [] => True | c :: _ => c = lt_ end.

Definition attr_ok (kv : pystr * pystr) : bool :=
  bool_decide (kv.1 <> []) && forallb name_char kv.1 && forallb value_char kv.2.

Definition lex_ok (n : node) : Prop :=
  forall acc r, match n with Text _ => opens r | Element _ _ _ => True end ->
  lex_from (LData []) acc (render n ++ r) = lex_from (LData []) (acc ++ tokens_of n) r.

(** Children attached in order to the current tag. *)
Definition add_children (kids : list node) (st : bstate) : bstate :=
  fold_left (fun st k => add_child k st) kids st.

Definition build_ok (n : node) : Prop :=
  match n with
  | Element _ _ _ => forall st ts,
      fold_left bstep (tokens_of n ++ ts) st = fold_left bstep ts (add_child n (endData st))
  | Text _ => True
  end.

(** A quoted attribute value. *)
Definition quoted (s : pystr) : pystr := [dquote] ++ s ++ [dquote].

(** A small detail page. *)
Definition sample_doc : list node :=
  [Element (py "div") [(py "class", py "office-sheet__email field--email")]
     [Text (py "Mail: "); Element (py "a") [(py "href", py "mailto:jean@etude.fr")] [Text (py "jean@etude.fr")]];
   Text (py " "); Element (py "p") [] [Text (py "Lyon")]].

(** * Lemmas *)

(** Induction on a tree with a hypothesis on each list of children, in
    the manner of [ltree_ind2]. *)
Section node_ind2.

Variable P : node -> Prop.
Hypothesis HText : forall s, P (Text s).
Hypothesis HElement : forall t attrs kids, Forall P kids -> P (Element t attrs kids).

Fixpoint node_ind2 (n : node) : P n :=
  match n with
  | Text s => HText s
  | Element t attrs kids =>
      HElement t attrs kids
        ((fix go (ks : list node) : Forall P ks :=
            match ks with
            | [] => Forall_nil_2 _
            | k :: ks' => Forall_cons_2 _ _ _ (node_ind2 k) (go ks')
            end) kids)
  end.

End node_ind2.

Lemma render_Element t attrs kids :
  render (Element t attrs kids) =
  [lt_] ++ t ++ mjoin (map render_attr attrs) ++ [gt_] ++ mjoin (map render kids) ++ [lt_; slash] ++ t ++ [gt_].
Proof. cbn [render]. repeat f_equal. induction kids as [|k ks IH]; [done|]. cbn. by rewrite IH. Qed.

Lemma wf_node_Element t attrs kids :
  wf_node (Element t attrs kids) =
  tag_allowed t && attrs_ok attrs && no_adj_text kids && forallb wf_node kids.
Proof. reflexivity. Qed.

Lemma text_char_lt c : text_char c = true -> c <> lt_.
Proof. intros H ->. discriminate H. Qed.

Lemma value_char_dquote c : value_char c = true -> text_char c = true /\ c <> dquote.
Proof. intros H. split; [unfold value_char in H; by destruct (text_char c)|]. intros ->. discriminate H. Qed.

Lemma name_ok_lower t : name_ok t = true -> exists c t', t = c :: t' /\ is_lower c = true /\ forallb name_char t' = true.
Proof. destruct t as [|c t']; [done|]. simpl. intros [? [_ ?]%andb_prop]%andb_prop. eauto. Qed.

Lemma lower_not_slash c : is_lower c = true -> c <> slash.
Proof. intros H ->. discriminate H. Qed.

Lemma name_ok_not_doc t : name_ok t = true -> t <> doc_tag.
Proof. intros H ->. discriminate H. Qed.

#[local] Hint Resolve text_char_lt lower_not_slash name_ok_not_doc : core.

(** ** The tokenizer on rendered text *)

(** A state that reads a run of characters into its buffer. *)
Lemma lex_accum (F : pystr -> lstate) (p : char -> bool)
    (HF : forall b c, p c = true -> lstep (F b) c = Some (F (b ++ [c]), None)) b acc s r :
  forallb p s = true -> lex_from (F b) acc (s ++ r) = lex_from (F (b ++ s)) acc r.
Proof.
  revert b. induction s as [|c s IH]; intros b Hs; simpl; [by rewrite app_nil_r|].
  apply andb_prop in Hs as [Hc Hs]. rewrite HF by done. cbn [emit]. rewrite IH by done.
  by rewrite <- app_assoc.
Qed.

Lemma lstep_data b c : text_char c = true -> lstep (LData b) c = Some (LData (b ++ [c]), None).
Proof. intros H. simpl. rewrite bool_decide_false by auto. by rewrite H. Qed.

Lemma lstep_name n c : name_char c = true -> lstep (LName n) c = Some (LName (n ++ [c]), None).
Proof. intros H. simpl. by rewrite H. Qed.

Lemma lstep_aname n attrs a c : name_char c = true -> lstep (LAname n attrs a) c = Some (LAname n attrs (a ++ [c]), None).
Proof. intros H. simpl. by rewrite H. Qed.

Lemma lstep_val n attrs a v c : value_char c = true -> lstep (LVal n attrs a v) c = Some (LVal n attrs a (v ++ [c]), None).
Proof. intros H. simpl. destruct (value_char_dquote _ H) as [_ Hq]. rewrite bool_decide_false by done. by rewrite H. Qed.

Lemma lstep_end n c : name_char c = true -> lstep (LEnd n) c = Some (LEnd (n ++ [c]), None).
Proof. intros H. simpl. by rewrite H. Qed.

Lemma lex_text s acc r :
  text_ok s = true -> opens r -> lex_from (LData []) acc (s ++ r) = lex_from (LData []) (acc ++ [Data s]) r.
Proof.
  intros Hs Hr. unfold text_ok in Hs. apply andb_prop in Hs as [[Hne Hs]%andb_prop _].
  rewrite (lex_accum LData text_char lstep_data) by done. simpl.
  apply bool_decide_eq_true_1 in Hne. destruct s as [|c s]; [done|].
  destruct r as [|c' r]; [done|]. simpl in Hr. subst c'. simpl. by rewrite ?bool_decide_true.
Qed.

Lemma lstep_tag_gt n attrs :
  tag_allowed n = true -> lstep_tag n attrs gt_ = Some (LData [], Some (StartTag n attrs)).
Proof. intros Hn. unfold lstep_tag. by rewrite Hn. Qed.

Lemma lstep_tag_space n attrs : lstep_tag n attrs PyStr.space = Some (LAname n attrs [], None).
Proof. reflexivity. Qed.

Lemma lstep_aname_eq n attrs a :
  a <> [] -> lstep (LAname n attrs a) equals = Some (LEq n attrs a, None).
Proof. intros Ha. simpl. by rewrite bool_decide_true. Qed.

Lemma lstep_eq n attrs a : lstep (LEq n attrs a) dquote = Some (LVal n attrs a [], None).
Proof. reflexivity. Qed.

Lemma lstep_val_close n attrs a v : lstep (LVal n attrs a v) dquote = Some (LTag n (attrs ++ [(a, v)]), None).
Proof. reflexivity. Qed.

Lemma lex_attrs n pre attrs acc r :
  tag_allowed n = true -> forallb attr_ok attrs = true ->
  lex_from (LTag n pre) acc (mjoin (map render_attr attrs) ++ gt_ :: r) =
  lex_from (LData []) (acc ++ [StartTag n (pre ++ attrs)]) r.
Proof.
  intros Hn. revert pre. induction attrs as [|[k v] attrs IH]; intros pre Ha; simpl.
  - rewrite lstep_tag_gt by done. by rewrite app_nil_r.
  - apply andb_prop in Ha as [Hkv Ha]. unfold attr_ok in Hkv; simpl in Hkv.
    apply andb_prop in Hkv as [[Hk Hkc]%andb_prop Hv].
    rewrite <- !app_assoc. rewrite (lex_accum (LAname n pre) name_char (lstep_aname n pre)) by done.
    apply bool_decide_eq_true_1 in Hk.
    cbn [lex_from app]. rewrite lstep_aname_eq by done. cbn [emit lex_from]. rewrite lstep_eq. cbn [emit].
    rewrite <- !app_assoc. rewrite (lex_accum (LVal n pre k) value_char (lstep_val n pre k)) by done.
    cbn [lex_from app]. rewrite lstep_val_close. cbn [emit].
    rewrite IH by done. by rewrite <- app_assoc.
Qed.

(** A tag name is followed by a space or [>], which end it. *)
Lemma lex_name_attrs n attrs acc r :
  tag_allowed n = true -> forallb attr_ok attrs = true ->
  lex_from (LName n) acc (mjoin (map render_attr attrs) ++ gt_ :: r) =
  lex_from (LData []) (acc ++ [StartTag n attrs]) r.
Proof.
  intros Hn Ha. pose proof (lex_attrs n [] attrs acc r Hn Ha) as E. rewrite app_nil_l in E.
  rewrite <- E. by destruct attrs as [|[k v] attrs].
Qed.

Lemma name_ok_chars t : name_ok t = true -> forallb name_char t = true.
Proof. destruct t; [done|]. by intros [_ ?]%andb_prop. Qed.

Lemma lstep_end_gt t : tag_allowed t = true -> lstep (LEnd t) gt_ = Some (LData [], Some (EndTag t)).
Proof. intros H. cbn -[tag_allowed]. by rewrite H. Qed.

Lemma lex_endtag t acc r :
  tag_allowed t = true ->
  lex_from (LData []) acc (lt_ :: slash :: t ++ gt_ :: r) = lex_from (LData []) (acc ++ [EndTag t]) r.
Proof.
  intros Ht. simpl. pose proof Ht as Hok. unfold tag_allowed in Hok. apply andb_prop in Hok as [Hok _].
  rewrite (lex_accum LEnd name_char lstep_end [] acc t) by (by apply name_ok_chars).
  cbn [lex_from app]. by rewrite lstep_end_gt.
Qed.

Lemma lex_kids kids acc r :
  Forall (fun k => wf_node k = true -> lex_ok k) kids ->
  forallb wf_node kids = true -> no_adj_text kids = true -> opens r ->
  lex_from (LData []) acc (mjoin (map render kids) ++ r) =
  lex_from (LData []) (acc ++ concat (map tokens_of kids)) r.
Proof.
  intros HP. revert acc. induction HP as [|k ks Hk HP IH]; intros acc Hwf Hadj Hr; simpl.
  - by rewrite app_nil_r.
  - apply andb_prop in Hwf as [Hwk Hwf]. apply andb_prop in Hadj as [Hkk Hadj].
    rewrite <- app_assoc, (Hk Hwk). 2:{ destruct k as [|s]; [done|].
      destruct ks as [|[]]; [done|by simpl|done]. }
    rewrite IH by done. by rewrite app_assoc.
Qed.

Lemma lex_node n : wf_node n = true -> lex_ok n.
Proof.
  induction n as [s|t attrs kids IH] using node_ind2; intros Hwf acc r Hr.
  - simpl. by apply lex_text.
  - rewrite wf_node_Element in Hwf.
    rewrite !andb_true_iff in Hwf. destruct Hwf as [[[Ht Ha] Hadj] Hk].
    unfold attrs_ok in Ha. apply andb_prop in Ha as [_ Ha].
    rewrite render_Element. cbn [tokens_of].
    pose proof Ht as Ht'. unfold tag_allowed in Ht'. apply andb_prop in Ht' as [Hok _].
    destruct (name_ok_lower _ Hok) as (c & t' & Et & Hc & Ht'').
    rewrite <- !app_assoc. rewrite Et at 1. simpl. rewrite bool_decide_false by auto. rewrite Hc.
    rewrite (lex_accum LName name_char lstep_name [c] acc t') by done. simpl. rewrite <- Et.
    rewrite lex_name_attrs by done.
    rewrite lex_kids by done. rewrite (lex_endtag _ _ _ Ht).
    by rewrite <- !app_assoc.
Qed.

Lemma tokenize_render_doc kids :
  wf_doc kids = true -> tokenize (render_doc kids) = Some (concat (map tokens_of kids)).
Proof.
  unfold wf_doc, tokenize, render_doc. intros [Hw Hadj]%andb_prop.
  rewrite <- (app_nil_r (mjoin _)). rewrite lex_kids by (try done; eapply Forall_forall; intros k _; apply lex_node).
  done.
Qed.

(** ** The tree builder on the events of a tree *)

Lemma pending_add_child k st : pending (add_child k st) = pending st.
Proof. unfold add_child. by destruct (stack st). Qed.

Lemma endData_nil st : pending st = [] -> endData st = st.
Proof. destruct st as [S R p]. simpl. by intros ->. Qed.

Lemma pending_endData st : pending (endData st) = [].
Proof. destruct st as [S R [|c p]]; [done|]. apply pending_add_child. Qed.

Lemma collapse_ok b s : text_ok s = true -> collapse b s = s.
Proof.
  unfold text_ok, collapse. intros [_ Hs]%andb_prop. destruct b; [done|].
  destruct (forallb ascii_space s); [|done]. simpl in Hs.
  apply orb_prop in Hs as [->%bool_decide_eq_true_1 | ->%bool_decide_eq_true_1]; reflexivity.
Qed.

Lemma endData_text S R s :
  text_ok s = true -> endData (BState S R s) = add_child (Text s) (BState S R []).
Proof.
  intros Hs. pose proof (collapse_ok (preserving (BState S R s)) s Hs) as Hc.
  unfold endData. cbn [pending]. destruct s as [|c s']; [done|]. by rewrite Hc.
Qed.

Lemma add_child_frame k t a k0 S R p :
  add_child k (BState (Frame t a k0 :: S) R p) = BState (Frame t a (k0 ++ [k]) :: S) R p.
Proof. reflexivity. Qed.

Lemma add_child_root k R p : add_child k (BState [] R p) = BState [] (R ++ [k]) p.
Proof. reflexivity. Qed.

Lemma add_children_frame kids t a k0 S R p :
  add_children kids (BState (Frame t a k0 :: S) R p) = BState (Frame t a (k0 ++ kids) :: S) R p.
Proof.
  revert k0. induction kids as [|k ks IH]; intros k0; cbn [add_children fold_left]; [by rewrite app_nil_r|].
  rewrite add_child_frame. unfold add_children in IH. by rewrite IH, <- app_assoc.
Qed.

Lemma add_children_root kids R p : add_children kids (BState [] R p) = BState [] (R ++ kids) p.
Proof.
  revert R. induction kids as [|k ks IH]; intros R; cbn [add_children fold_left]; [by rewrite app_nil_r|].
  rewrite add_child_root. unfold add_children in IH. by rewrite IH, <- app_assoc.
Qed.

Lemma attr_dict_app d attrs :
  NoDup (d.*1 ++ attrs.*1) -> fold_left attr_add attrs d = d ++ attrs.
Proof.
  revert d. induction attrs as [|kv attrs IH]; intros d Hnd; simpl; [by rewrite app_nil_r|].
  unfold attr_add at 2. rewrite bool_decide_false.
  - rewrite IH; [by rewrite <- app_assoc|]. by rewrite fmap_app, <- app_assoc.
  - intros Hin. apply list.NoDup_app in Hnd as (_ & Hnd & _).
    apply (Hnd _ Hin). simpl. constructor.
Qed.

Lemma attr_dict_NoDup attrs : NoDup attrs.*1 -> attr_dict attrs = attrs.
Proof. intros H. unfold attr_dict. by rewrite attr_dict_app. Qed.

Lemma build_kids kids :
  Forall (fun k => wf_node k = true -> build_ok k) kids ->
  forallb wf_node kids = true -> no_adj_text kids = true ->
  forall st, pending st = [] ->
  endData (fold_left bstep (concat (map tokens_of kids)) st) = add_children kids st.
Proof.
  induction 1 as [|k ks Hk HP IH]; intros Hwf Hadj st Hst; [by apply endData_nil|].
  apply andb_prop in Hwf as [Hwk Hwf]. apply andb_prop in Hadj as [Hkk Hadj].
  cbn [map concat]. destruct k as [t a kk|s].
  - rewrite (Hk Hwk), (endData_nil st) by done. apply IH; [done|exact Hadj|]. by rewrite pending_add_child.
  - destruct st as [S R p]; simpl in Hst; subst p. cbn [tokens_of app fold_left bstep stack root pending].
    destruct ks as [|[t' a' kk'|s'] ks']; [by apply endData_text|..|done].
    apply Forall_cons_1 in HP as [Hk' _]. pose proof Hwf as [Hwk' _]%andb_prop.
    cbn [map concat] in IH |- *. rewrite (Hk' Hwk'), (endData_text S R s Hwk).
    set (st2 := add_child (Text s) (BState S R [])).
    rewrite <- (endData_nil st2) at 1 by exact (pending_add_child _ _). rewrite <- (Hk' Hwk').
    exact (IH Hwf Hadj st2 (pending_add_child _ _)).
Qed.

Lemma build_node n : wf_node n = true -> build_ok n.
Proof.
  induction n as [s|t a kids IH] using node_ind2; intros Hwf; [done|]. intros st ts.
  rewrite wf_node_Element in Hwf. rewrite !andb_true_iff in Hwf. destruct Hwf as [[[Ht Ha] Hadj] Hk].
  cbn [tokens_of app fold_left bstep]. rewrite <- app_assoc, fold_left_app.
  cbn [app fold_left bstep]. rewrite build_kids; [|exact IH|done|done|exact (pending_endData st)].
  pose proof (pending_endData st) as Hp. destruct (endData st) as [S R p]. simpl in Hp. subst p.
  unfold pushTag. cbn [stack root pending]. rewrite add_children_frame.
  unfold popToTag. apply andb_prop in Ht as [Hok _]. rewrite bool_decide_false by auto.
  cbn [stack list_find]. rewrite decide_True by done. cbn [Nat.iter popTag stack f_tag f_attrs f_kids root pending].
  unfold attrs_ok in Ha. apply andb_prop in Ha as [Hnd _]. apply bool_decide_eq_true_1 in Hnd.
  by rewrite attr_dict_NoDup.
Qed.

Lemma build_doc kids :
  wf_doc kids = true -> build (concat (map tokens_of kids)) = Element doc_tag [] kids.
Proof.
  unfold wf_doc, build. intros [Hw Hadj]%andb_prop.
  rewrite build_kids; [|by apply Forall_forall; intros k _; apply build_node|done|done|done].
  by rewrite add_children_root.
Qed.

(** * Properties *)

(** C17: parsing is the inverse of rendering on the well-formed fragment:
    [BeautifulSoup(render_doc kids, 'html.parser')] is the document whose
    children are [kids], for every forest of allowed tags with distinct
    attribute names, where no text is empty, collapsible white space or
    next to another text. *)
Theorem parse_render kids : wf_doc kids = true -> parse (render_doc kids) = Some (Element doc_tag [] kids).
Proof. intros H. unfold parse. rewrite tokenize_render_doc by done. simpl. by rewrite build_doc. Qed.

Lemma parse_render_witness :
  wf_doc sample_doc = true /\ parse (render_doc sample_doc) = Some (Element doc_tag [] sample_doc).
Proof. split; [vm_compute; reflexivity|]. apply parse_render. vm_compute. reflexivity. Defined.

End HtmlParse.
