(* ===== verification/Extract.v ===== *)
(** The field extractors of asyncNotary.py (lines 33-77): [get_name],
    [get_phone], [get_mail], [get_website], [get_address]. Each one is a
    chain of BeautifulSoup calls inside [try: ... except AttributeError:
    return ""]. The chain is a [res] computation over [Html]; only
    [AttributeError] is caught ([except_attr]), so the [TypeError] of
    [None['href']] and the [KeyError] of a link without [href] escape from
    [get_mail] and [get_website]. *)

From S2P Require Import Prelude PyStr Phone Html.
From stdpp Require Import base list decidable.

Module Extract.

Import Html.

(** ** The class strings the code searches for *)
Definition title_class : pystr := py "office-sheet__title text-center text-m-start".
Definition phone_class : pystr := py "office-sheet__phone field--telephone".
Definition email_class : pystr := py "office-sheet__email field--email".
Definition url_class : pystr := py "office-sheet__url field--link".
Definition address_class : pystr := py "office-sheet__address field--address".

(** [soup.find("h1", class_=...).find("span").text.split(" : ")[0]] *)
Definition get_name (soup : node) : res pystr :=
  except_attr (
    h1 ← find_ (Some soup) (py "h1") (Some title_class);
    span ← find_ h1 (py "span") None;
    t ← text_ span;
    PyStr.get (PyStr.split_sep t (py " : ")) 0).

(** [format_phone_number(soup.find("div", class_=...).find("a").text)] *)
Definition get_phone (soup : node) : res pystr :=
  except_attr (
    div ← find_ (Some soup) (py "div") (Some phone_class);
    a ← find_ div (py "a") None;
    phone ← text_ a;
    Ok (Phone.format_phone_number phone)).

(** [soup.find("div", class_=...).find("a")['href'].replace("mailto:", "")] *)
Definition get_mail (soup : node) : res pystr :=
  except_attr (
    div ← find_ (Some soup) (py "div") (Some email_class);
    a ← find_ div (py "a") None;
    href ← subscript a (py "href");
    Ok (PyStr.replace href (py "mailto:") [])).

(** The link target, with [https://] prepended unless it starts with
    ["http"]. *)
Definition get_website (soup : node) : res pystr :=
  except_attr (
    div ← find_ (Some soup) (py "div") (Some url_class);
    a ← find_ div (py "a") None;
    website ← subscript a (py "href");
    if PyStr.startswith website (py "http") then Ok website
    else Ok (py "https://" ++ website)).

(** [" ".join([span.text for span in soup.find("div", ...).find("p",
    "address").findAll("span")])] *)
Definition get_address (soup : node) : res pystr :=
  except_attr (
    div ← find_ (Some soup) (py "div") (Some address_class);
    p ← find_ div (py "p") (Some (py "address"));
    spans ← find_all_ p (py "span") None;
    Ok (PyStr.join [PyStr.space] (map get_text spans))).

(** The values [get_website] can return: the empty string of its
    [except] branch, or a string starting with "http". *)
Definition website_wf (w : pystr) : bool :=
  bool_decide (w = []) || PyStr.startswith w (py "http").

(** ** A sample detail page *)
Definition link (href text : pystr) : node := Element (py "a") [(py "href", href)] [Text text].
Definition title_h1 : node :=
  Element (py "h1") [(py "class", title_class)] [Element (py "span") [] [Text (py "Jean Dupont : Notaire")]].
Definition phone_link : node := link (py "tel:0102030405") (py "01.02.03.04.05").
Definition mail_link : node := link (py "mailto:Jean@etude.fr") (py "mail").
Definition url_link : node := link (py "www.etude.fr") (py "site").
Definition phone_div : node := Element (py "div") [(py "class", phone_class)] [phone_link].
Definition mail_div : node := Element (py "div") [(py "class", email_class)] [mail_link].
Definition url_div : node := Element (py "div") [(py "class", url_class)] [url_link].
Definition address_p : node :=
  Element (py "p") [(py "class", py "address")]
    [Element (py "span") [] [Text (py "1 rue A")]; Element (py "span") [] [Text (py "69001 Lyon")]].
Definition address_div : node := Element (py "div") [(py "class", address_class)] [address_p].
Definition sample_page : node :=
  Element (py "[document]") [] [title_h1; phone_div; mail_div; url_div; address_div].

(** A page whose e-mail block has no link, and one whose website link has no [href]. *)
Definition page_no_link : node :=
  Element (py "[document]") [] [Element (py "div") [(py "class", email_class)] []].
Definition page_no_href : node :=
  Element (py "[document]") []
    [Element (py "div") [(py "class", url_class)] [Element (py "a") [] [Text (py "site")]]].

(** * Lemmas *)

Lemma get_phone_wf soup p : get_phone soup = Ok p -> Phone.phone_wf p = true.
Proof.
  unfold get_phone, find_, text_. intros H. cbn [mbind res_bind] in H.
  destruct_finds_in H; injection H as <-; [apply Phone.phone_wf_format|reflexivity..].
Qed.

Lemma get_website_wf soup w : get_website soup = Ok w -> website_wf w = true.
Proof.
  unfold get_website, find_. intros H. cbn [mbind res_bind] in H.
  destruct_finds_in H; try (injection H as <-; reflexivity).
  all: destruct (subscript _ _) as [href|[]]; cbn [mbind res_bind except_attr] in H;
    try discriminate; try (injection H as <-; reflexivity).
  all: unfold website_wf; destruct (PyStr.startswith href _) eqn:E; injection H as <-;
    [by rewrite E, orb_true_r | apply orb_true_iff; right; reflexivity].
Qed.

(** The chain [soup.find("div", class_=cls).find("a")['href']] followed
    by a step that cannot raise: under [except AttributeError] the only
    exceptions left are [TypeError] (no link) and [KeyError] (no [href]). *)
Lemma href_chain_raises soup cls (k : pystr -> res pystr) e :
  (forall h e', k h <> Err e') ->
  except_attr (
    div ← find_ (Some soup) (py "div") (Some cls);
    a ← find_ div (py "a") None;
    h ← subscript a (py "href");
    k h) = Err e ->
  (e = TypeError /\ exists div,
     find soup (py "div") (Some cls) = Some div /\ find div (py "a") None = None) \/
  (e = KeyError /\ exists div a,
     find soup (py "div") (Some cls) = Some div /\ find div (py "a") None = Some a /\
     subscript (Some a) (py "href") = Err KeyError).
Proof.
  intros Hk. unfold find_.
  destruct (find soup _ _) as [div|] eqn:E1; cbn [mbind res_bind except_attr]; [|discriminate].
  destruct (find div _ _) as [a|] eqn:E2; cbn [mbind res_bind except_attr subscript]; intros H.
  - destruct (find_Some_tag _ _ _ _ E2) as (attrs & kids & ->).
    cbn [subscript] in H. destruct (attr_value attrs (py "href")) as [h|] eqn:Ea;
      cbn [mbind res_bind except_attr] in H.
    + destruct (k h) as [v|e'] eqn:Ekh; [discriminate|]. by apply Hk in Ekh.
    + injection H as <-. right. split; [done|]. exists div, (Element (py "a") attrs kids).
      split; [done|]. split; [done|]. cbn [subscript]. by rewrite Ea.
  - injection H as <-. left. eauto.
Qed.

(** On a page whose e-mail block has a link, [get_mail] returns its
    target through [replace]. *)
Lemma get_mail_spec soup div a h :
  find soup (py "div") (Some email_class) = Some div ->
  find div (py "a") None = Some a ->
  subscript (Some a) (py "href") = Ok h ->
  get_mail soup = Ok (PyStr.replace h (py "mailto:") []).
Proof.
  intros E1 E2 E3. unfold get_mail, find_. rewrite E1. simpl. rewrite E2.
  cbn [mbind res_bind]. rewrite E3. done.
Qed.

(** On a page whose link block is present, [get_website] returns the
    link target, prefixed with [https://] unless it starts with "http". *)
Lemma get_website_spec soup div a w :
  find soup (py "div") (Some url_class) = Some div ->
  find div (py "a") None = Some a ->
  subscript (Some a) (py "href") = Ok w ->
  get_website soup = Ok (if PyStr.startswith w (py "http") then w else py "https://" ++ w).
Proof.
  intros E1 E2 E3. unfold get_website, find_. rewrite E1. simpl. rewrite E2.
  cbn [mbind res_bind]. rewrite E3. simpl. by destruct (PyStr.startswith w _).
Qed.

Lemma join_nil_sep (parts : list pystr) : PyStr.join [] parts = concat parts.
Proof.
  destruct parts as [|p ps]; [done|]. unfold PyStr.join. simpl. f_equal.
  induction ps as [|q ps IH]; [done|]. simpl. by rewrite IH.
Qed.

(** * Properties *)

(** C26: [get_name], [get_phone] and [get_address] never raise: on any
    page, however malformed, they return a string. *)
Theorem extract_total soup :
  (exists s, get_name soup = Ok s) /\
  (exists s, get_phone soup = Ok s) /\
  (exists s, get_address soup = Ok s).
Proof.
  unfold get_name, get_phone, get_address, find_, find_all_, text_.
  split; [|split]; repeat (destruct_finds; cbn [mbind res_bind except_attr]);
    rewrite ?PyStr.get_split_sep_first; cbn [mbind res_bind except_attr]; eauto.
Qed.

(** A page that lacks the block an extractor looks for gives the
    empty string for that field. *)
Lemma extract_missing soup :
  (find soup (py "h1") (Some title_class) = None -> get_name soup = Ok []) /\
  (find soup (py "div") (Some phone_class) = None -> get_phone soup = Ok []) /\
  (find soup (py "div") (Some email_class) = None -> get_mail soup = Ok []) /\
  (find soup (py "div") (Some url_class) = None -> get_website soup = Ok []) /\
  (find soup (py "div") (Some address_class) = None -> get_address soup = Ok []).
Proof.
  unfold get_name, get_phone, get_mail, get_website, get_address, find_.
  repeat split; intros E; by rewrite E.
Qed.

(** C25: [get_mail] raises when the e-mail block exists but has no link
    ([TypeError]: [None['href']]) or a link without [href] ([KeyError]);
    these are the only exceptions it lets escape. *)
Theorem get_mail_raises soup e :
  get_mail soup = Err e ->
  (e = TypeError /\ exists div,
     find soup (py "div") (Some email_class) = Some div /\ find div (py "a") None = None) \/
  (e = KeyError /\ exists div a,
     find soup (py "div") (Some email_class) = Some div /\ find div (py "a") None = Some a /\
     subscript (Some a) (py "href") = Err KeyError).
Proof.
  unfold get_mail. apply (href_chain_raises soup email_class (fun h => Ok (PyStr.replace h (py "mailto:") []))).
  intros h e'. discriminate.
Qed.

Lemma get_mail_raises_witness :
  (TypeError = TypeError /\ exists div,
     find page_no_link (py "div") (Some email_class) = Some div /\ find div (py "a") None = None) \/
  (TypeError = KeyError /\ exists div a,
     find page_no_link (py "div") (Some email_class) = Some div /\ find div (py "a") None = Some a /\
     subscript (Some a) (py "href") = Err KeyError).
Proof. apply get_mail_raises. vm_compute. reflexivity. Defined.

(** C24: the spec (sections 4.1 and 8) says every extractor returns ""
    on a page missing the expected structure; [get_website] raises
    exactly when the website block exists but has no link
    ([TypeError]: [None['href']]) or a link without [href] ([KeyError]),
    and the exception aborts the crawl. A page without the block gives
    "". *)
Theorem get_website_raises soup e :
  get_website soup = Err e <->
  (e = TypeError /\ exists div,
     find soup (py "div") (Some url_class) = Some div /\ find div (py "a") None = None) \/
  (e = KeyError /\ exists div a,
     find soup (py "div") (Some url_class) = Some div /\ find div (py "a") None = Some a /\
     subscript (Some a) (py "href") = Err KeyError).
Proof.
  split.
  - unfold get_website. apply href_chain_raises. intros h e'. by destruct (PyStr.startswith h _).
  - intros [(-> & div & E1 & E2) | (-> & div & a & E1 & E2 & E3)];
      unfold get_website, find_; rewrite E1; cbn [mbind res_bind]; rewrite E2; [done|].
    cbn [mbind res_bind]. by rewrite E3.
Qed.

Lemma get_website_raises_witness : get_website page_no_href = Err KeyError.
Proof.
  apply get_website_raises. right. split; [done|]. do 2 eexists.
  split; [reflexivity|]. split; reflexivity.
Defined.

(** C27: [get_mail] removes every occurrence of "mailto:" from the link
    target, not only a leading one: a target made of pieces separated by
    "mailto:" (none of which holds an "m") gives the pieces put
    together. *)
Theorem get_mail_replace_all soup div a parts :
  find soup (py "div") (Some email_class) = Some div ->
  find div (py "a") None = Some a ->
  subscript (Some a) (py "href") = Ok (PyStr.join (py "mailto:") parts) ->
  parts <> [] -> Forall (fun p => 109%N ∉ p) parts ->
  get_mail soup = Ok (concat parts).
Proof.
  intros E1 E2 E3 Hne Hp. rewrite (get_mail_spec soup div a _ E1 E2 E3).
  change (py "mailto:") with (109%N :: py "ailto:"). by rewrite PyStr.replace_join, join_nil_sep.
Qed.

Lemma get_mail_replace_all_witness :
  let parts := [[]; py "jean."; py "x@etude.fr"] in
  let a := link (PyStr.join (py "mailto:") parts) (py "mail") in
  let div := Element (py "div") [(py "class", email_class)] [a] in
  get_mail (Element (py "[document]") [] [div]) = Ok (py "jean.x@etude.fr").
Proof.
  intros parts a div. apply (get_mail_replace_all _ div a parts);
    try (vm_compute; reflexivity); [discriminate|].
  apply (bool_decide_eq_true_1 _). vm_compute. reflexivity.
Defined.

(** The name is the text of the title's first [span] up to the first
    " : ", or the whole text when there is none. *)
Lemma get_name_spec soup h1 span :
  find soup (py "h1") (Some title_class) = Some h1 ->
  find h1 (py "span") None = Some span ->
  get_name soup =
    Ok (match PyStr.find (get_text span) (py " : ") with
        | Some i => take i (get_text span)
        | None => get_text span
        end).
Proof.
  intros E1 E2. unfold get_name, find_, text_. rewrite E1. simpl. rewrite E2. simpl.
  rewrite PyStr.get_split_sep_first. by destruct (PyStr.find _ _).
Qed.

Lemma get_name_spec_witness : get_name sample_page = Ok (py "Jean Dupont").
Proof.
  rewrite (get_name_spec _ title_h1 (Element (py "span") [] [Text (py "Jean Dupont : Notaire")]));
    vm_compute; reflexivity.
Defined.

End Extract.
