(* ===== verification/Csv.v ===== *)
(** The export of asyncNotary.py on rows: [format_notary] (lines 80-93)
    projects each record to a row [{name, mail, phone, website, address}];
    [remove_empty_rows] (lines 132-135) reads the CSV file back with
    pandas, drops the rows whose five fields are all missing
    ([dropna(how='all')]) and writes the file again. With no record at
    all the file written at line 158 has no column and [read_csv] raises
    [EmptyDataError].

    pandas is an external library. Its reader turns a field into NaN
    when the field is empty or one of its default NA strings ([NA],
    [null], [None], [nan], ...); its writer writes NaN as an empty field.
    Both are modelled on strings only: the type inference of [read_csv]
    (a column of digits read as numbers) is not. [CsvFile] models the
    same steps on the text of the file and proves that it agrees with
    this row-level model. *)

From S2P Require Import Prelude PyStr Notary.
From stdpp Require Import base list decidable.

Module Csv.

Import Notary.

(** A row of the DataFrame, in the column order of the dict literal. *)
Record row := mkRow {
  r_name : pystr;
  r_mail : pystr;
  r_phone : pystr;
  r_website : pystr;
  r_address : pystr
}.

Definition row_fields (r : row) : list pystr :=
  [r_name r; r_mail r; r_phone r; r_website r; r_address r].

(** [if notary:]: a [Notary] instance defines neither [__bool__] nor
    [__len__], so it is always true. *)
Definition notary_truthy (n : notary) : bool := true.

Definition format_notary (notary_array : list notary) : list row :=
  map (fun n => mkRow (get_name n) (get_mail n) (get_phone n) (get_website n) (get_address n))
    (List.filter notary_truthy notary_array).

(** pandas' default NA strings of [read_csv]. *)
Definition na_values : list pystr :=
  [py ""; py "#N/A"; py "#N/A N/A"; py "#NA"; py "-1.#IND";
   py "-1.#QNAN"; py "-NaN"; py "-nan"; py "1.#IND"; py "1.#QNAN";
   py "<NA>"; py "N/A"; py "NA"; py "NULL"; py "NaN";
   py "None"; py "n/a"; py "nan"; py "null"].

(** A field as [read_csv] sees it: [None] is NaN. *)
Definition read_field (f : pystr) : option pystr :=
  if bool_decide (f ∈ na_values) then None else Some f.

(** [to_csv] writes NaN as an empty field. *)
Definition write_field (o : option pystr) : pystr :=
  match o with Some f => f | None => [] end.

(** [df.dropna(how='all')]: keep a row when one of its fields is not NaN. *)
Definition keep_row (fields : list (option pystr)) : bool :=
  existsb (fun o => bool_decide (is_Some o)) fields.

(** The rows of the file after [remove_empty_rows]: read, drop, write. *)
Definition drop_empty_rows (rows : list row) : list (list pystr) :=
  map (map write_field)
    (List.filter keep_row (map (fun r => map read_field (row_fields r)) rows)).

(** Lines 157-159 and 132-135 on the rows: with no record at all the
    DataFrame has no column, the file written at line 158 is one empty
    line, and [pd.read_csv] raises [EmptyDataError] on it ([CsvFile]
    proves this on the text of the file). *)
Definition remove_empty_rows (rows : list row) : res (list (list pystr)) :=
  match rows with
  | [] => Err EmptyDataError
  | _ => Ok (drop_empty_rows rows)
  end.

(** * Properties *)

Lemma read_field_None f : read_field f = None <-> f ∈ na_values.
Proof. unfold read_field. case_bool_decide; split; congruence || done. Qed.

Lemma keep_row_read fs :
  keep_row (map read_field fs) = negb (forallb (fun f => bool_decide (f ∈ na_values)) fs).
Proof.
  unfold keep_row, read_field. induction fs as [|f fs IH]; [done|].
  cbn [map existsb forallb]. rewrite IH. by destruct (bool_decide (f ∈ na_values)).
Qed.

Lemma drop_empty_rows_eq rows :
  drop_empty_rows rows =
  map (fun r => map (fun f => if bool_decide (f ∈ na_values) then [] else f) (row_fields r))
    (List.filter (fun r => negb (forallb (fun f => bool_decide (f ∈ na_values)) (row_fields r))) rows).
Proof.
  unfold drop_empty_rows. induction rows as [|r rows IH]; [done|].
  cbn [map List.filter]. rewrite keep_row_read.
  destruct (negb _); cbn [map]; rewrite IH; [|done]. f_equal.
  rewrite map_map. apply map_ext. intros f. unfold read_field. by case_bool_decide.
Qed.


(** Each field written back is the field of the record, or empty. *)
Lemma drop_empty_rows_fields rows out :
  out ∈ drop_empty_rows rows ->
  exists r, r ∈ rows /\ Forall2 (fun o f => o = f \/ o = []) out (row_fields r).
Proof.
  rewrite drop_empty_rows_eq. intros (r & -> & Hr)%list_elem_of_fmap.
  apply list_elem_of_In, filter_In in Hr as [Hr _]. exists r.
  split; [by apply list_elem_of_In|].
  generalize (row_fields r) as fs. induction fs as [|f fs IH]; constructor; [|done].
  case_bool_decide; auto.
Qed.

Lemma remove_empty_rows_Ok rows out : remove_empty_rows rows = Ok out -> out = drop_empty_rows rows.
Proof. unfold remove_empty_rows. destruct rows; [done|]. by intros [= <-]. Qed.

Lemma drop_empty_rows_length_le rows : length (drop_empty_rows rows) <= length rows.
Proof.
  unfold drop_empty_rows. rewrite length_map.
  rewrite <- (length_map (fun r => map read_field (row_fields r)) rows).
  generalize (map (fun r => map read_field (row_fields r)) rows) as xs.
  induction xs as [|x xs IH]; simpl; [lia|]. destruct (keep_row x); simpl; lia.
Qed.

Lemma format_notary_length ns : length (format_notary ns) = length ns.
Proof. unfold format_notary. rewrite length_map. induction ns; simpl; auto. Qed.

(** The rows of [format_notary] are the records' fields. *)
Lemma format_notary_elem ns r :
  r ∈ format_notary ns -> exists n, n ∈ ns /\ r_phone r = phone n.
Proof.
  unfold format_notary. intros (n & -> & Hn)%list_elem_of_fmap.
  apply list_elem_of_In, filter_In in Hn as [Hn _]. exists n.
  split; [by apply list_elem_of_In|done].
Qed.

(** The rows of [format_notary] are the records' five fields, in the
    column order of the dict literal. *)
Lemma format_notary_fields ns r :
  r ∈ format_notary ns ->
  exists n, n ∈ ns /\ row_fields r = [get_name n; get_mail n; get_phone n; get_website n; get_address n].
Proof.
  unfold format_notary. intros (n & -> & Hn)%list_elem_of_fmap.
  apply list_elem_of_In, filter_In in Hn as [Hn _]. exists n.
  split; [by apply list_elem_of_In|done].
Qed.

(** A row written back has no NA string left, and one field that is not
    an NA string (so not empty). *)
Lemma drop_empty_rows_clean rows out :
  out ∈ drop_empty_rows rows ->
  Forall (fun f => f = [] \/ f ∉ na_values) out /\ Exists (fun f => f ∉ na_values) out.
Proof.
  rewrite drop_empty_rows_eq. intros (r & -> & Hr)%list_elem_of_fmap.
  apply list_elem_of_In, filter_In in Hr as [_ Hr]. split.
  - apply list.Forall_forall. intros f (g & -> & _)%list_elem_of_fmap. case_bool_decide; auto.
  - revert Hr. generalize (row_fields r) as fs. induction fs as [|f fs IH]; [done|].
    cbn [forallb map]. case_bool_decide as Hf; cbn; intros Hr.
    + apply Exists_cons_tl. by apply IH.
    + by apply Exists_cons_hd.
Qed.

End Csv.
