(* ===== verification/CsvFile.v ===== *)
(** notaries.csv as a string: what [df.to_csv(..., index=False)] writes
    (asyncNotary.py lines 157-158 and 135) and what [pd.read_csv] reads
    back (line 133).

    pandas writes through Python's [csv.writer] with its defaults:
    delimiter [,] (code 44), the double quote (code 34) as quote
    character, [QUOTE_MINIMAL] (a field is
    quoted when it holds a delimiter, a quote, a carriage return or a line
    feed), quotes doubled inside a quoted field, and a row made of one
    empty field written as two quotes so that it is not a blank line. The
    line terminator is [os.linesep]: CR LF on Windows, the only platform
    the script runs on ([Script]), LF elsewhere.

    [read_csv] is pandas' C tokenizer, a state machine over the
    characters ([tstep], folded over the file by [tokenize]): fields end
    at a delimiter or at a line end (LF, CR, or CR LF); inside quotes
    everything but a quote is data and a doubled quote is one quote; a
    blank line, or a line of spaces and tabs only, is skipped; a byte
    order mark at the start is skipped; the end of the text inside a
    quoted field raises [ParserError]. The first record is the header; a record with
    more fields than the header raises [ParserError], a shorter one is
    padded with NaN; a file with no record raises [EmptyDataError]
    ("No columns to parse from file"). The NA conversion of [Csv] is
    applied to every field, quoted or not. Type inference (a column of
    numbers read as numbers) is not modelled. *)

From S2P Require Import Prelude PyStr Notary Csv.
From stdpp Require Import base list decidable.

Module CsvFile.

Import Csv.

Definition comma : char := 44%N.
Definition dquote : char := 34%N.
Definition cr : char := 13%N.
Definition lf : char := 10%N.

(** ** The writer *)

Definition special (c : char) : bool :=
  bool_decide (c = comma) || bool_decide (c = dquote) || bool_decide (c = cr) || bool_decide (c = lf).

Definition escape (f : pystr) : pystr :=
  mjoin (map (fun c => if bool_decide (c = dquote) then [dquote; dquote] else [c]) f).

(** [QUOTE_MINIMAL] *)
Definition quote_field (f : pystr) : pystr :=
  if existsb special f then dquote :: escape f ++ [dquote] else f.

(** [writer.writerow(row)] *)
Definition write_row (eol : pystr) (r : list pystr) : pystr :=
  match r with
  | [[]] => [dquote; dquote] ++ eol
  | _ => PyStr.join [comma] (map quote_field r) ++ eol
  end.

(** [df.to_csv(path, index=False)]: the header, then one line per row. *)
Definition write_csv (eol : pystr) (header : list pystr) (rows : list (list pystr)) : pystr :=
  mjoin (map (write_row eol) (header :: rows)).

(** The columns of [pd.DataFrame(formated_notary)]: the keys of the
    dicts built by [format_notary], in order. *)
Definition columns : list pystr := [py "name"; py "mail"; py "phone"; py "website"; py "address"].

(** ** The reader *)

(** [IS_WHITESPACE] of the tokenizer: space and tab. *)
Definition ws_char (c : char) : bool := bool_decide (c = 32%N) || bool_decide (c = 9%N).

(** The byte order mark the tokenizer skips at the start of the data. *)
Definition bom : char := 65279%N.

Inductive mode :=
  | StartRecord | StartField | InField | InQuoted | QuoteInQuoted | EatCRNL
  | EatCRNLNop | WhitespaceLine.

(** The tokenizer's state: the field being read and the record being
    read (both reversed), and the records read so far (reversed). *)
Record tstate := mkT {
  t_mode : mode;
  t_field : pystr;
  t_row : list pystr;
  t_rows : list (list pystr)
}.

Definition end_field (t : tstate) (m : mode) : tstate :=
  mkT m [] (reverse (t_field t) :: t_row t) (t_rows t).

Definition end_record (t : tstate) (m : mode) : tstate :=
  mkT m [] [] (reverse (reverse (t_field t) :: t_row t) :: t_rows t).

Definition push (t : tstate) (c : char) (m : mode) : tstate :=
  mkT m (c :: t_field t) (t_row t) (t_rows t).

(** [START_FIELD]: a character at the start of a field. *)
Definition start_field (t : tstate) (c : char) : tstate :=
  if bool_decide (c = lf) then end_record t StartRecord
  else if bool_decide (c = cr) then end_record t EatCRNL
  else if bool_decide (c = dquote) then mkT InQuoted (t_field t) (t_row t) (t_rows t)
  else if bool_decide (c = comma) then end_field t StartField
  else push t c InField.

(** [IN_FIELD]: a character inside an unquoted field. *)
Definition in_field (t : tstate) (c : char) : tstate :=
  if bool_decide (c = lf) then end_record t StartRecord
  else if bool_decide (c = cr) then end_record t EatCRNL
  else if bool_decide (c = comma) then end_field t StartField
  else push t c InField.

(** [START_RECORD]: a line end there is a blank line, skipped; a space
    or a tab may start a line of white space, skipped as well. *)
Definition start_record (t : tstate) (c : char) : tstate :=
  if bool_decide (c = lf) then t
  else if bool_decide (c = cr) then mkT EatCRNLNop [] [] (t_rows t)
  else if ws_char c then mkT WhitespaceLine [c] [] (t_rows t)
  else start_field t c.

Definition tstep (t : tstate) (c : char) : tstate :=
  match t_mode t with
  | StartRecord => start_record t c
  | StartField => start_field t c
  | InField => in_field t c
  | InQuoted =>
      if bool_decide (c = dquote) then mkT QuoteInQuoted (t_field t) (t_row t) (t_rows t)
      else push t c InQuoted
  | QuoteInQuoted =>
      if bool_decide (c = dquote) then push t c InQuoted
      else if bool_decide (c = lf) then end_record t StartRecord
      else if bool_decide (c = cr) then end_record t EatCRNL
      else if bool_decide (c = comma) then end_field t StartField
      else push t c InField
  | EatCRNL =>
      if bool_decide (c = lf) then mkT StartRecord [] [] (t_rows t)
      else start_record t c
  | EatCRNLNop =>
      (* after a skipped CR: a LF or a delimiter is consumed *)
      if bool_decide (c = lf) || bool_decide (c = comma) then mkT StartRecord [] [] (t_rows t)
      else start_record t c
  | WhitespaceLine =>
      if bool_decide (c = lf) then mkT StartRecord [] [] (t_rows t)
      else if bool_decide (c = cr) then mkT EatCRNLNop [] [] (t_rows t)
      else if ws_char c then push t c WhitespaceLine
      (* not a blank line: read it again from the start, as a field *)
      else in_field (mkT InField (t_field t) (t_row t) (t_rows t)) c
  end.

(** [parser_handle_eof]: a record in progress is ended; the input may
    not stop inside quotes. *)
Definition finish (t : tstate) : res (list (list pystr)) :=
  match t_mode t with
  | StartRecord | EatCRNL | EatCRNLNop | WhitespaceLine => Ok (reverse (t_rows t))
  | InQuoted => Err ParserError
  | _ => Ok (reverse (t_rows (end_record t StartRecord)))
  end.

Definition strip_bom (s : pystr) : pystr :=
  match s with c :: s' => if bool_decide (c = bom) then s' else s | [] => [] end.

Definition tokenize (s : pystr) : res (list (list pystr)) :=
  finish (fold_left tstep (strip_bom s) (mkT StartRecord [] [] [])).

(** [pd.read_csv(path)]: the header and the rows, NaN as [None]. The
    header is taken as written: pandas renames empty and repeated column
    names, which the five names of [columns] never are. *)
Definition read_csv (s : pystr) : res (list pystr * list (list (option pystr))) :=
  records ← tokenize s;
  match records with
  | [] => Err EmptyDataError
  | header :: recs =>
      rows ← res_all (map (fun r =>
                if bool_decide (length header < length r) then Err ParserError
                else Ok (map read_field r ++ replicate (length header - length r) None)) recs);
      Ok (header, rows)
  end.

(** [remove_empty_rows(csv_file)] on the text of the file: read, drop
    the rows of NaN, write again. *)
Definition remove_empty_rows_file (eol : pystr) (s : pystr) : res pystr :=
  frame ← read_csv s;
  let '(header, rows) := frame in
  Ok (write_csv eol header (map (map write_field) (List.filter keep_row rows))).

(** [pd.DataFrame(formated_notary).to_csv("notaries.csv", index=False)]:
    with no record the frame has no column and the file is one empty
    line. *)
Definition notaries_csv (eol : pystr) (rows : list row) : pystr :=
  match rows with
  | [] => eol
  | _ => write_csv eol columns (map row_fields rows)
  end.
(** Rows with a delimiter, quotes and a line break inside fields, and a
    row of empty fields. *)
Definition tricky_rows : list (list pystr) :=
  [[py "Dupont, Jean"; [dquote] ++ py "Etude" ++ [dquote]; py "01 02 03 04 05";
    py "1 rue A" ++ [cr; lf] ++ py "69001 Lyon"; []];
   [[]; []; []; []; []]].

(** A line that pandas skips as blank: one unquoted field of spaces and
    tabs. *)
Definition blank_line (r : list pystr) : bool :=
  match r with [f] => bool_decide (f <> []) && forallb ws_char f | _ => false end.

(** The first character of a string that is not a space or a tab. *)
Fixpoint first_solid (s : pystr) : option char :=
  match s with [] => None | c :: s' => if ws_char c then first_solid s' else Some c end.

(** * Lemmas *)

(** The state after the text of a field, before its terminator. *)
Definition pmode (f : pystr) : mode :=
  if existsb special f then QuoteInQuoted else match f with [] => StartField | _ => InField end.

Definition pending (f : pystr) (row : list pystr) (rows : list (list pystr)) : tstate :=
  mkT (pmode f) (reverse f) row rows.

Lemma special_false c : special c = false -> c <> comma /\ c <> dquote /\ c <> cr /\ c <> lf.
Proof. unfold special. rewrite !orb_false_iff, !bool_decide_eq_false. tauto. Qed.

Ltac decide_chars :=
  repeat first
    [ rewrite bool_decide_eq_false_2 by (done || (unfold comma, dquote, cr, lf; lia))
    | rewrite bool_decide_eq_true_2 by done ].

Lemma fold_plain f fld row rows :
  existsb special f = false ->
  fold_left tstep f (mkT InField fld row rows) = mkT InField (reverse f ++ fld) row rows.
Proof.
  revert fld; induction f as [|c f IH]; intros fld Hf; [done|].
  simpl in Hf. apply orb_false_iff in Hf as [Hc Hf].
  destruct (special_false c Hc) as (H1 & H2 & H3 & H4).
  cbn [fold_left]. unfold tstep; cbn [t_mode]. unfold in_field. decide_chars.
  unfold push; cbn [t_field t_row t_rows]. rewrite IH by done.
  by rewrite reverse_cons, <- app_assoc.
Qed.

Lemma escape_cons c f :
  escape (c :: f) = (if bool_decide (c = dquote) then [dquote; dquote] else [c]) ++ escape f.
Proof. reflexivity. Qed.

Lemma fold_escape f fld row rows :
  fold_left tstep (escape f) (mkT InQuoted fld row rows) = mkT InQuoted (reverse f ++ fld) row rows.
Proof.
  revert fld; induction f as [|c f IH]; intros fld; [done|].
  rewrite escape_cons, fold_left_app.
  case_bool_decide as Hc.
  - subst c. cbn [fold_left]. unfold tstep; cbn [t_mode]. decide_chars.
    cbn [t_field t_row t_rows t_mode]. decide_chars. unfold push; cbn [t_field t_row t_rows].
    by rewrite IH, reverse_cons, <- app_assoc.
  - cbn [fold_left]. unfold tstep; cbn [t_mode]. rewrite bool_decide_eq_false_2 by done.
    unfold push; cbn [t_field t_row t_rows]. by rewrite IH, reverse_cons, <- app_assoc.
Qed.

(** The text of a field read from the start of a field. *)
Lemma fold_quote_field f row rows :
  fold_left tstep (quote_field f) (mkT StartField [] row rows) = pending f row rows.
Proof.
  unfold quote_field, pending, pmode. destruct (existsb special f) eqn:Es.
  - cbn [fold_left]. unfold tstep at 2; cbn [t_mode]. unfold start_field. decide_chars.
    cbn [t_field t_row t_rows]. rewrite fold_left_app, fold_escape, app_nil_r. cbn [fold_left].
    unfold tstep; cbn [t_mode]. by decide_chars.
  - destruct f as [|c f]; [done|]. simpl in Es. apply orb_false_iff in Es as [Hc Hf].
    destruct (special_false c Hc) as (H1 & H2 & H3 & H4).
    cbn [fold_left]. unfold tstep at 2; cbn [t_mode]. unfold start_field. decide_chars.
    unfold push; cbn [t_field t_row t_rows]. rewrite fold_plain by done.
    by rewrite reverse_cons.
Qed.

Lemma ws_char_cases c : ws_char c = true -> c = 32%N \/ c = 9%N.
Proof. unfold ws_char. intros [?%bool_decide_eq_true_1|?%bool_decide_eq_true_1]%orb_prop; auto. Qed.

Lemma first_solid_app a b :
  first_solid (a ++ b) = match first_solid a with Some c => Some c | None => first_solid b end.
Proof. induction a as [|c a IH]; [done|]. simpl. by destruct (ws_char c). Qed.

Lemma first_solid_Some s c : first_solid s = Some c -> c ∈ s /\ ws_char c = false.
Proof.
  induction s as [|d s IH]; [done|]. simpl. destruct (ws_char d) eqn:Ed.
  - intros (? & ?)%IH. split; [by right|done].
  - intros [= ->]. split; [left|done].
Qed.

Lemma first_solid_None s : first_solid s = None -> forallb ws_char s = true.
Proof. induction s as [|d s IH]; [done|]. simpl. destruct (ws_char d); [done|discriminate]. Qed.

(** On a line that is not blank, [WHITESPACE_LINE] backs up and reads
    the white space as the start of a field. *)
Lemma fold_wsline x fld rows c :
  first_solid x = Some c -> c <> lf -> c <> cr ->
  fold_left tstep x (mkT WhitespaceLine fld [] rows) = fold_left tstep x (mkT InField fld [] rows).
Proof.
  revert fld. induction x as [|d x IH]; intros fld Hx Hl Hr; [done|]. simpl in Hx.
  cbn [fold_left]. unfold tstep at 2 4; cbn [t_mode].
  destruct (ws_char d) eqn:Ed.
  - destruct (ws_char_cases d Ed) as [-> | ->]; unfold in_field; decide_chars;
      cbn [t_field t_row t_rows]; rewrite ?Ed; apply IH; done.
  - injection Hx as ->. by decide_chars.
Qed.

Lemma start_field_mode m1 m2 fld row rows c :
  start_field (mkT m1 fld row rows) c = start_field (mkT m2 fld row rows) c.
Proof. reflexivity. Qed.

(** A line whose first character other than white space is not a line
    end is read from the start of the record as from the start of a
    field. *)
Lemma fold_record_field x rows c :
  first_solid x = Some c -> c <> lf -> c <> cr ->
  fold_left tstep x (mkT StartRecord [] [] rows) = fold_left tstep x (mkT StartField [] [] rows).
Proof.
  intros Hx Hl Hr. destruct x as [|d x]; [done|]. simpl in Hx. cbn [fold_left].
  unfold tstep at 2 4; cbn [t_mode]. unfold start_record.
  destruct (ws_char d) eqn:Ed.
  - destruct (ws_char_cases d Ed) as [-> | ->]; unfold start_field; decide_chars;
      cbn [t_rows]; rewrite ?Ed; apply fold_wsline with c; done.
  - injection Hx as Hdc. subst d. decide_chars. by rewrite ?Ed.
Qed.

Lemma pmode_cases f : pmode f = StartField \/ pmode f = InField \/ pmode f = QuoteInQuoted.
Proof. unfold pmode. destruct (existsb special f); [auto|]. destruct f; auto. Qed.

(** The terminators of a field. *)
Lemma pending_comma f row rows :
  tstep (pending f row rows) comma = mkT StartField [] (f :: row) rows.
Proof.
  unfold pending, tstep; cbn [t_mode].
  destruct (pmode_cases f) as [-> | [-> | ->]]; unfold start_field, in_field; decide_chars;
    unfold end_field; cbn [t_field t_row t_rows]; by rewrite reverse_involutive.
Qed.

(** A line end after a field ends the field and the record. *)
Lemma term_eol eol m fld row rows :
  eol = [lf] \/ eol = [cr; lf] -> m = StartField \/ m = InField \/ m = QuoteInQuoted ->
  fold_left tstep eol (mkT m fld row rows) = mkT StartRecord [] [] (reverse (reverse fld :: row) :: rows).
Proof.
  intros Heol Hm.
  destruct Hm as [-> | [-> | ->]]; destruct Heol as [-> | ->]; cbn [fold_left];
    repeat (unfold tstep; cbn [t_mode]; unfold start_field, in_field; decide_chars;
            unfold end_record; cbn [t_field t_row t_rows t_mode]);
    reflexivity.
Qed.

Lemma pending_eol eol f row rows :
  eol = [lf] \/ eol = [cr; lf] ->
  fold_left tstep eol (pending f row rows) = mkT StartRecord [] [] (reverse (f :: row) :: rows).
Proof.
  intros Heol. unfold pending. rewrite term_eol by (done || apply pmode_cases).
  by rewrite reverse_involutive.
Qed.

Lemma mjoin_cons {A} (x : list A) l : mjoin (x :: l) = x ++ mjoin l.
Proof. reflexivity. Qed.

(** The fields after the first, each after a delimiter, then the line end. *)
Lemma fold_row_tail eol fs f row rows :
  eol = [lf] \/ eol = [cr; lf] ->
  fold_left tstep (mjoin (map (fun q => comma :: q) (map quote_field fs)) ++ eol) (pending f row rows) =
  mkT StartRecord [] [] ((reverse row ++ f :: fs) :: rows).
Proof.
  intros Heol. revert f row; induction fs as [|q fs IH]; intros f row.
  - cbn. rewrite pending_eol by done. by rewrite reverse_cons.
  - cbn [map]. rewrite mjoin_cons, <- app_assoc. cbn [app fold_left].
    rewrite pending_comma, fold_left_app, fold_quote_field, IH.
    by rewrite reverse_cons, <- app_assoc.
Qed.

(** The text of a row: its first field, then the others after delimiters. *)
Lemma write_row_split eol f fs :
  f :: fs <> [[]] ->
  write_row eol (f :: fs) = quote_field f ++ mjoin (map (fun q => comma :: q) (map quote_field fs)) ++ eol.
Proof.
  intros Hone. destruct f as [|c f]; [destruct fs; [done|]|];
    unfold write_row; cbn [map]; unfold PyStr.join; by rewrite <- app_assoc.
Qed.

(** A written row that is not blank starts with a character other than
    white space that is not a line end. *)
Lemma write_row_solid eol r :
  eol = [lf] \/ eol = [cr; lf] -> r <> [] -> r <> [[]] -> blank_line r = false ->
  exists c, first_solid (write_row eol r) = Some c /\ c <> lf /\ c <> cr.
Proof.
  intros Heol Hr Hone Hb. destruct r as [|f fs]; [done|].
  rewrite write_row_split, first_solid_app by done.
  unfold quote_field. destruct (existsb special f) eqn:Es.
  { exists dquote. split; [done|]. unfold dquote, lf, cr. split; lia. }
  destruct (first_solid f) as [c|] eqn:Ef.
  - exists c. split; [done|]. destruct (first_solid_Some _ _ Ef) as [Hc _].
    assert (special c = false) as Hsc.
    { apply not_true_is_false. intros Hsc.
      assert (existsb special f = true) as Ht
        by (apply existsb_exists; exists c; split; [by apply list_elem_of_In|done]).
      congruence. }
    destruct (special_false c Hsc) as (_ & _ & ? & ?). done.
  - destruct fs as [|q fs].
    + exfalso. apply first_solid_None in Ef. destruct f as [|d f]; [done|].
      unfold blank_line in Hb. by rewrite Ef, bool_decide_eq_true_2 in Hb.
    + exists comma. split; [done|]. unfold comma, lf, cr. split; lia.
Qed.

Lemma fold_write_row eol r rows :
  eol = [lf] \/ eol = [cr; lf] -> r <> [] -> blank_line r = false ->
  fold_left tstep (write_row eol r) (mkT StartRecord [] [] rows) = mkT StartRecord [] [] (r :: rows).
Proof.
  intros Heol Hr Hb. destruct (decide (r = [[]])) as [-> | Hone].
  - cbn [write_row]. rewrite fold_left_app.
    assert (fold_left tstep [dquote; dquote] (mkT StartRecord [] [] rows) = mkT QuoteInQuoted [] [] rows)
      as -> by reflexivity.
    rewrite term_eol by auto. done.
  - destruct (write_row_solid eol r Heol Hr Hone Hb) as (c & Hc & Hl & Hcr).
    rewrite (fold_record_field _ _ c) by done.
    destruct r as [|f fs]; [done|]. rewrite write_row_split, fold_left_app, fold_quote_field by done.
    by rewrite fold_row_tail.
Qed.

Lemma fold_rows eol rs acc :
  eol = [lf] \/ eol = [cr; lf] -> Forall (fun r => r <> [] /\ blank_line r = false) rs ->
  fold_left tstep (mjoin (map (write_row eol) rs)) (mkT StartRecord [] [] acc) =
  mkT StartRecord [] [] (reverse rs ++ acc).
Proof.
  intros Heol Hrs. revert acc; induction Hrs as [|r rs [Hr Hb] _ IH]; intros acc; [done|].
  cbn [map]. rewrite mjoin_cons, fold_left_app, fold_write_row, IH by done.
  by rewrite reverse_cons, <- app_assoc.
Qed.

Lemma strip_bom_id s : head s <> Some bom -> strip_bom s = s.
Proof. destruct s as [|c s]; [done|]. simpl. intros Hc. rewrite bool_decide_eq_false_2; [done|]. congruence. Qed.

Lemma tokenize_write eol header rows :
  eol = [lf] \/ eol = [cr; lf] -> Forall (fun r => r <> [] /\ blank_line r = false) (header :: rows) ->
  head (write_csv eol header rows) <> Some bom ->
  tokenize (write_csv eol header rows) = Ok (header :: rows).
Proof.
  intros Heol Hrs Hbom. unfold tokenize. rewrite strip_bom_id by done.
  unfold write_csv. rewrite fold_rows by done.
  unfold finish; cbn [t_mode t_rows]. by rewrite app_nil_r, reverse_involutive.
Qed.

(** A record of two fields or more is neither empty nor a blank line. *)
Lemma wide_row (r : list pystr) : 2 <= length r -> r <> [] /\ blank_line r = false.
Proof. destruct r as [|f [|g r]]; simpl; [lia|lia|done]. Qed.

Lemma read_csv_write eol header rows :
  eol = [lf] \/ eol = [cr; lf] -> 2 <= length header ->
  Forall (fun r => length r = length header) rows ->
  head (write_csv eol header rows) <> Some bom ->
  read_csv (write_csv eol header rows) = Ok (header, map (map read_field) rows).
Proof.
  intros Heol Hh Hrs Hbom. unfold read_csv. rewrite tokenize_write; [|done| |done].
  - cbn [mbind res_bind]. assert (res_all (map (fun r =>
        if bool_decide (length header < length r) then Err ParserError
        else Ok (map read_field r ++ replicate (length header - length r) None)) rows) =
        Ok (map (map read_field) rows)) as -> ; [|done].
    apply res_all_Ok. rewrite map_map. apply map_ext_in. intros r Hr.
    rewrite Forall_forall in Hrs. rewrite (Hrs r Hr), bool_decide_eq_false_2 by lia.
    by rewrite Nat.sub_diag, app_nil_r.
  - constructor; [by apply wide_row|]. rewrite List.Forall_forall in Hrs |- *. intros r Hr.
    apply wide_row. rewrite (Hrs r Hr). done.
Qed.

Lemma write_csv_columns_head eol rows :
  eol = [lf] \/ eol = [cr; lf] -> head (write_csv eol columns rows) = Some 110%N.
Proof. by intros [-> | ->]. Qed.

Lemma remove_empty_rows_file_eq eol rows :
  eol = [lf] \/ eol = [cr; lf] ->
  remove_empty_rows_file eol (notaries_csv eol rows) =
  match Csv.remove_empty_rows rows with
  | Ok out => Ok (write_csv eol columns out)
  | Err e => Err e
  end.
Proof.
  intros Heol. destruct rows as [|r rs]; [by destruct Heol as [-> | ->]|].
  unfold remove_empty_rows_file, notaries_csv.
  rewrite read_csv_write; [|done|simpl; lia| |by rewrite write_csv_columns_head].
  - cbn [mbind res_bind Csv.remove_empty_rows]. unfold drop_empty_rows. by rewrite map_map.
  - apply Forall_fmap, Forall_forall. intros x _. reflexivity.
Qed.

(** The file [remove_empty_rows] leaves reads back as its rows. *)
Lemma tokenize_write_columns eol rows :
  eol = [lf] \/ eol = [cr; lf] -> Forall (fun r => length r = 5) rows ->
  tokenize (write_csv eol columns rows) = Ok (columns :: rows).
Proof.
  intros Heol Hrows. apply tokenize_write; [done| |by rewrite write_csv_columns_head].
  constructor; [by apply wide_row; simpl; lia|].
  rewrite List.Forall_forall in Hrows |- *. intros r Hr. apply wide_row. rewrite (Hrows r Hr). lia.
Qed.

Lemma drop_empty_rows_length rows : Forall (fun r => length r = 5) (drop_empty_rows rows).
Proof.
  apply List.Forall_forall. intros out Hout. apply list_elem_of_In in Hout.
  destruct (drop_empty_rows_fields _ _ Hout) as (r & _ & Hf).
  apply Forall2_length in Hf. by rewrite Hf.
Qed.

(** * Properties *)

(** C11: pandas reads back exactly the records [to_csv] wrote, whatever
    the fields hold (delimiters, quotes, line breaks, leading white space,
    nothing), with either line terminator, on every file whose records
    have a field, where no record is one unquoted field of spaces and tabs
    (pandas skips such a line as blank) and which does not begin with a
    byte order mark (pandas skips it). *)
Theorem tokenize_write_csv eol header rows :
  eol = [lf] \/ eol = [cr; lf] ->
  Forall (fun r => r <> [] /\ blank_line r = false) (header :: rows) ->
  head (write_csv eol header rows) <> Some bom ->
  tokenize (write_csv eol header rows) = Ok (header :: rows).
Proof. apply tokenize_write. Qed.

Lemma tokenize_write_csv_witness :
  tokenize (write_csv [cr; lf] [py "name"] ([py "  Jean"] :: [py " "; py "x"] :: tricky_rows)) =
    Ok ([py "name"] :: [py "  Jean"] :: [py " "; py "x"] :: tricky_rows).
Proof.
  apply tokenize_write_csv; [by right| |vm_compute; discriminate].
  apply (bool_decide_eq_true_1 _). vm_compute. reflexivity.
Defined.

(** C12: the row-level model of lines 157-159 and 132-135 ([Csv]) is
    refined by the text-level one: writing the records with [to_csv],
    reading the file back, dropping the rows of NaN and writing again
    gives the text of the rows [Csv.remove_empty_rows] computes, and the
    same [EmptyDataError] when there is no record. *)
Theorem remove_empty_rows_file_refines eol rows :
  eol = [lf] \/ eol = [cr; lf] ->
  remove_empty_rows_file eol (notaries_csv eol rows) =
  match Csv.remove_empty_rows rows with
  | Ok out => Ok (write_csv eol columns out)
  | Err e => Err e
  end.
Proof. apply remove_empty_rows_file_eq. Qed.

Lemma remove_empty_rows_file_refines_witness :
  remove_empty_rows_file [cr; lf] (notaries_csv [cr; lf] []) = Err EmptyDataError.
Proof. apply (remove_empty_rows_file_refines [cr; lf] []). by right. Defined.

End CsvFile.
