(* ===== verification/Crawl.v ===== *)
(** The crawl orchestrator of asyncNotary.py: [swoup] (lines 15-17),
    [get_endpoints] (lines 20-30) and [main] (lines 138-162).

    The network and the HTML parser are the [Web] interface: [http_get]
    returns the status code and the text of a response, or fails ([None],
    raised by aiohttp and never caught: [TransportError]); [parse_html]
    is [BeautifulSoup(text, 'html.parser')]. aiohttp raises for no status
    code by default, and [swoup] never looks at it ([Fetch]).

    [get_endpoints] first extracts every card's link (an exception there
    propagates before any await), then awaits the detail pages with
    [asyncio.as_completed]: the results come in completion order, which
    the model takes as an argument, a list of indices into the submitted
    tasks ([as_completed]). A schedule gives the completion order of each
    listing page; it is valid when each order is a permutation of the
    page's tasks. The event loop is single-threaded and the pages are
    processed one after the other, so a run is the sequential
    composition below; [Loop] gives the same loop as a transition system.
    [main] ends with the export of [Csv], which raises [EmptyDataError]
    when no record was gathered. *)

From S2P Require Import Prelude PyStr Phone Notary Dedup Html Extract Csv.
From stdpp Require Import base list decidable sorting.

Module Crawl.

Import Notary Html.

(** What [main] needs from aiohttp and bs4: [session.get(url)] gives
    the status code and the body of the response, or fails. *)
Class Web := {
  http_get : pystr -> option (nat * pystr);
  parse_html : pystr -> node
}.

Definition baseUrl : pystr := py "https://www.notaires.fr".
Definition uri : pystr := py "/fr/directory/notaries?location=lyon&lat=45.758&lon=4.835&page=".
Definition pageNb : nat := 10.

(** [asyncio.as_completed(tasks)]: the results of the tasks in the
    order given by [order], a list of task indices. *)
Definition as_completed {A} (order : list nat) (results : list A) : list A :=
  omap (fun i => results !! i) order.

Definition notary_card_class : pystr := py "notary-card notary-card--notary".

(** [Notary(nom, phone, mail, website, address)] from one detail page. *)
Definition run := (list (list pystr) * list notary * nat * nat)%type.

Section WithWeb.

Context `{!Web}.

(** [BeautifulSoup(await (await session.get(url)).text(), 'html.parser')]:
    the body is parsed whatever the status code. *)
Definition swoup (url : pystr) : res node :=
  match http_get url with
  | Some (_, text) => Ok (parse_html text)
  | None => Err TransportError
  end.

(** [card.find("a", class_="arrow-link")['href'].split('?')[0]] *)
Definition card_link (card : node) : res pystr :=
  a ← find_ (Some card) (py "a") (Some (py "arrow-link"));
  href ← subscript a (py "href");
  PyStr.get (PyStr.split_sep href (py "?")) 0.

Definition get_endpoints (order : list nat) (cards : list node) : res (list node) :=
  links ← res_all (map card_link cards);
  soups ← res_all (map (fun link => swoup (baseUrl ++ link)) links);
  Ok (as_completed order soups).

(** Lines 147-152. *)
Definition extract_notary (endpoint : node) : res notary :=
  nom ← Extract.get_name endpoint;
  phone ← Extract.get_phone endpoint;
  mail ← Extract.get_mail endpoint;
  website ← Extract.get_website endpoint;
  address ← Extract.get_address endpoint;
  Ok (Notary.Notary nom phone mail website address).

Definition page_url (page : nat) : pystr := baseUrl ++ uri ++ PyStr.str page.

(** One iteration of the page loop (lines 142-153). *)
Definition crawl_page (order : list nat) (page : nat) (notaries : list notary) : res (list notary) :=
  soup ← swoup (page_url page);
  let cards := find_all soup (py "article") (Some notary_card_class) in
  endpoints ← get_endpoints order cards;
  found ← res_all (map extract_notary endpoints);
  Ok (notaries ++ found).

Fixpoint crawl_pages (sched : nat -> list nat) (pages : list nat) (notaries : list notary)
    : res (list notary) :=
  match pages with
  | [] => Ok notaries
  | page :: pages' =>
      notaries' ← crawl_page (sched page) page notaries;
      crawl_pages sched pages' notaries'
  end.

(** [main]: the rows of notaries.csv, the sorted records, and the two
    counts it prints. *)
Definition main (sched : nat -> list nat) : res run :=
  notaries ← crawl_pages sched (PyStr.range 0 (pageNb + 1) 1) [];
  sorted_notaries ← Dedup.sort_notaries notaries;
  let formated_notary := Csv.format_notary sorted_notaries in
  rows ← Csv.remove_empty_rows formated_notary;
  Ok (rows, sorted_notaries, length notaries, length sorted_notaries).

(** The number of detail pages a listing page asks for. *)
Definition cards_on (page : nat) : nat :=
  match swoup (page_url page) with
  | Ok soup => length (find_all soup (py "article") (Some notary_card_class))
  | Err _ => 0
  end.

(** A schedule completes the tasks of each page it visits in some order. *)
Definition valid_schedule (sched : nat -> list nat) (pages : list nat) : Prop :=
  Forall (fun page => sched page ≡ₚ seq 0 (cards_on page)) pages.

End WithWeb.

(** ** A test site: two listing pages of three cards each, the other
    listing pages empty; detail pages [/d/1] to [/d/6], where [/d/6] is a
    second listing of the office of [/d/1]. *)

Definition detail (name phone mail address : pystr) : node :=
  Element (py "[document]") []
    [Element (py "h1") [(py "class", Extract.title_class)] [Element (py "span") [] [Text (name ++ py " : Notaire")]];
     Element (py "div") [(py "class", Extract.phone_class)] [Extract.link [] phone];
     Element (py "div") [(py "class", Extract.email_class)] [Extract.link (py "mailto:" ++ mail) mail];
     Element (py "div") [(py "class", Extract.url_class)] [Extract.link (py "www.etude.fr") (py "Site")];
     Element (py "div") [(py "class", Extract.address_class)]
       [Element (py "p") [(py "class", py "address")] [Element (py "span") [] [Text address]]]].

Definition card (href : pystr) : node :=
  Element (py "article") [(py "class", notary_card_class)]
    [Element (py "a") [(py "class", py "arrow-link"); (py "href", href)] []].

Definition listing (hrefs : list pystr) : node :=
  Element (py "[document]") [] (map card hrefs).

Definition test_pages : list (pystr * node) :=
  [(page_url 0, listing [py "/d/1?from=list"; py "/d/2"; py "/d/3"]);
   (page_url 1, listing [py "/d/4"; py "/d/5"; py "/d/6"])] ++
  map (fun p => (page_url p, listing [])) (seq 2 9) ++
  [(baseUrl ++ py "/d/1", detail (py "Jean Dupont") (py "0478000001") (py "Jean@a.fr") (py "1 rue A"));
   (baseUrl ++ py "/d/2", detail (py "Paul Durand") (py "0478000002") (py "p@b.fr") (py "2 rue B"));
   (baseUrl ++ py "/d/3", detail (py "Luc Petit") (py "0478000003") (py "l@c.fr") (py "3 rue C"));
   (baseUrl ++ py "/d/4", detail (py "Anne Roy") (py "0478000004") (py "a@d.fr") (py "4 rue D"));
   (baseUrl ++ py "/d/5", detail (py "Marc Noir") (py "0478000005") (py "m@e.fr") (py "5 rue E"));
   (baseUrl ++ py "/d/6", detail (py "Marie Martin") (py "04.78.00.00.01") (py "Jean@a.fr") (py "1 rue A"))].

Definition site_lookup (site : list (pystr * node)) (url : pystr) : option node :=
  snd <$> head (filter (fun kv => kv.1 = url) site).

(** A web serving a table of pages with the given status codes: the
    response text is the URL itself and parsing it looks the page up; a
    URL outside the table fails. *)
Definition table_web_status (status : pystr -> nat) (site : list (pystr * node)) : Web := {|
  http_get url := match site_lookup site url with Some _ => Some (status url, url) | None => None end;
  parse_html text := default (Element [] [] []) (site_lookup site text)
|}.

Definition table_web (site : list (pystr * node)) : Web := table_web_status (fun _ => 200) site.

(** A directory whose listing pages are all empty. *)
Definition empty_pages : list (pystr * node) :=
  map (fun p => (page_url p, listing [])) (seq 0 11).

(** Completion orders for the test sites: last-submitted first, and
    first-submitted first. *)
Definition sched_rev (p : nat) : list nat := if p <? 2 then [2; 1; 0] else [].
Definition sched_fwd (p : nat) : list nat := if p <? 2 then [0; 1; 2] else [].
(** * Lemmas *)

Lemma omap_lookup_seq {A} (ys xs : list A) :
  omap (fun i => (ys ++ xs) !! i) (seq (length ys) (length xs)) = xs.
Proof.
  revert ys; induction xs as [|x xs IH]; intros ys; [done|].
  change (seq (length ys) (length (x :: xs))) with (length ys :: seq (S (length ys)) (length xs)).
  change (omap ?f (?a :: ?l)) with (match f a with Some y => y :: omap f l | None => omap f l end).
  cbv beta. rewrite list_lookup_middle by done. f_equal.
  replace (ys ++ x :: xs) with ((ys ++ [x]) ++ xs) by by rewrite <- app_assoc.
  replace (S (length ys)) with (length (ys ++ [x])) by (rewrite length_app; simpl; lia).
  apply IH.
Qed.

Lemma res_all_length {A} (rs : list (res A)) xs : res_all rs = Ok xs -> length xs = length rs.
Proof. intros ->%res_all_Ok. by rewrite length_map. Qed.

Lemma as_completed_Permutation {A} (order : list nat) (results : list A) :
  order ≡ₚ seq 0 (length results) -> as_completed order results ≡ₚ results.
Proof.
  intros Hp. unfold as_completed. rewrite Hp.
  by rewrite <- (omap_lookup_seq [] results) at 2.
Qed.

Section Schedules.

Context `{!Web}.

Lemma crawl_page_perm o1 o2 page acc1 acc2 ns1 :
  o1 ≡ₚ seq 0 (cards_on page) -> o2 ≡ₚ seq 0 (cards_on page) -> acc1 ≡ₚ acc2 ->
  crawl_page o1 page acc1 = Ok ns1 ->
  exists ns2, crawl_page o2 page acc2 = Ok ns2 /\ ns1 ≡ₚ ns2.
Proof.
  intros H1 H2 Hacc. unfold crawl_page, cards_on, get_endpoints in *.
  destruct (swoup (page_url page)) as [soup|]; cbn [mbind res_bind]; [|discriminate].
  destruct (res_all (map card_link _)) as [links|] eqn:El; cbn [mbind res_bind]; [|discriminate].
  destruct (res_all (map (fun link => swoup (baseUrl ++ link)) links)) as [soups|] eqn:Es;
    cbn [mbind res_bind]; [|discriminate].
  intros Hr. inv_bind Hr. injection Hr as <-.
  apply res_all_length in El, Es. rewrite length_map in El, Es. rewrite <- El, <- Es in H1, H2.
  assert (as_completed o1 soups ≡ₚ as_completed o2 soups) as Hperm
    by by rewrite (as_completed_Permutation o1 soups H1), (as_completed_Permutation o2 soups H2).
  destruct (res_all_map_perm extract_notary _ _ _ Hperm Ha) as (found2 & Hf2 & Hp).
  exists (acc2 ++ found2). rewrite Hf2. split; [done|]. by rewrite Hacc, Hp.
Qed.

Lemma crawl_pages_perm s1 s2 pages acc1 acc2 ns1 :
  valid_schedule s1 pages -> valid_schedule s2 pages -> acc1 ≡ₚ acc2 ->
  crawl_pages s1 pages acc1 = Ok ns1 ->
  exists ns2, crawl_pages s2 pages acc2 = Ok ns2 /\ ns1 ≡ₚ ns2.
Proof.
  intros V1 V2. revert acc1 acc2.
  induction pages as [|p pages IH]; intros acc1 acc2 Hacc; simpl.
  - intros [= <-]. eauto.
  - inversion V1 as [|? ? Hp1 V1']; inversion V2 as [|? ? Hp2 V2']; subst.
    intros Hr. inv_bind Hr.
    destruct (crawl_page_perm _ _ _ _ acc2 _ Hp1 Hp2 Hacc Ha) as (ns' & -> & Hns).
    cbn [mbind res_bind]. by apply (IH V1' V2' a).
Qed.

End Schedules.

Lemma main_schedule_eq `{!Web} s1 s2 rows1 sorted1 n1 m1 rows2 sorted2 n2 m2 :
  valid_schedule s1 (PyStr.range 0 (pageNb + 1) 1) ->
  valid_schedule s2 (PyStr.range 0 (pageNb + 1) 1) ->
  main s1 = Ok (rows1, sorted1, n1, m1) -> main s2 = Ok (rows2, sorted2, n2, m2) ->
  n1 = n2 /\ m1 = m2 /\ map Dedup.notary_key sorted1 = map Dedup.notary_key sorted2.
Proof.
  intros V1 V2 H1 H2. unfold main in H1, H2.
  apply bind_Ok_inv in H1 as (ns1 & Hc1 & H1), H2 as (ns2 & Hc2 & H2).
  apply bind_Ok_inv in H1 as (o1 & Hs1 & H1), H2 as (o2 & Hs2 & H2).
  apply bind_Ok_inv in H1 as (r1 & _ & H1), H2 as (r2 & _ & H2).
  injection H1 as <- <- <- <-. injection H2 as <- <- <- <-.
  destruct (crawl_pages_perm s1 s2 _ [] [] _ V1 V2 ltac:(done) Hc1) as (ns & Hns & Hp).
  rewrite Hc2 in Hns. injection Hns as <-.
  pose proof (Dedup.sort_notaries_perm_keys _ _ _ _ Hp Hs1 Hs2) as Hk.
  split; [by apply Permutation_length|]. split; [|done].
  by rewrite <- (length_map Dedup.notary_key o1), Hk, length_map.
Qed.

Lemma main_Ok_inv `{!Web} sched rows sorted n m :
  main sched = Ok (rows, sorted, n, m) ->
  exists ns, crawl_pages sched (PyStr.range 0 (pageNb + 1) 1) [] = Ok ns /\
    Dedup.sort_notaries ns = Ok sorted /\ Csv.remove_empty_rows (Csv.format_notary sorted) = Ok rows /\
    n = length ns /\ m = length sorted.
Proof.
  unfold main. intros Hm.
  apply bind_Ok_inv in Hm as (ns & Hc & Hm). apply bind_Ok_inv in Hm as (o & Hs & Hm).
  apply bind_Ok_inv in Hm as (r & Hr & Hm). injection Hm as <- <- <- <-. eauto 10.
Qed.



(** [as_completed] with a valid completion order returns every
    result exactly once. *)
Lemma as_completed_perm {A} (order : list nat) (results : list A) :
  order ≡ₚ seq 0 (length results) -> as_completed order results ≡ₚ results.
Proof. apply as_completed_Permutation. Qed.

Lemma as_completed_perm_witness :
  [2; 0; 1] ≡ₚ seq 0 (length [10; 20; 30]) /\
  as_completed [2; 0; 1] [10; 20; 30] = [30; 10; 20] /\
  as_completed [2; 0; 1] [10; 20; 30] ≡ₚ [10; 20; 30].
Proof.
  assert (Hp : [2; 0; 1] ≡ₚ seq 0 (length [10; 20; 30]))
    by (apply (bool_decide_eq_true_1 _); vm_compute; reflexivity).
  split; [exact Hp|]. split; [reflexivity|]. exact (as_completed_perm _ _ Hp).
Defined.

(** C8: whichever valid completion order the event loop follows, a crawl
    that succeeds under one order succeeds under every other one, and
    collects the same records up to order. *)
Theorem crawl_pages_schedule `{!Web} s1 s2 pages ns1 :
  valid_schedule s1 pages -> valid_schedule s2 pages ->
  crawl_pages s1 pages [] = Ok ns1 ->
  exists ns2, crawl_pages s2 pages [] = Ok ns2 /\ ns1 ≡ₚ ns2.
Proof. intros V1 V2. by apply crawl_pages_perm. Qed.

Lemma crawl_pages_schedule_witness :
  exists ns2, @crawl_pages (table_web test_pages) sched_fwd (PyStr.range 0 (pageNb + 1) 1) [] = Ok ns2 /\
    (match @crawl_pages (table_web test_pages) sched_rev (PyStr.range 0 (pageNb + 1) 1) [] with
     | Ok ns1 => ns1 | Err _ => [] end) ≡ₚ ns2.
Proof.
  apply (@crawl_pages_schedule (table_web test_pages) sched_rev).
  - apply (bool_decide_eq_true_1 _). vm_compute. reflexivity.
  - apply (bool_decide_eq_true_1 _). vm_compute. reflexivity.
  - vm_compute. reflexivity.
Defined.

(** C7: the counts [main] prints and the keys of the deduplicated list,
    in order, do not depend on the order in which detail pages complete
    (when both runs succeed; C6 shows a group whose result depends on that order). *)
Theorem main_schedule `{!Web} s1 s2 rows1 sorted1 n1 m1 rows2 sorted2 n2 m2 :
  valid_schedule s1 (PyStr.range 0 (pageNb + 1) 1) ->
  valid_schedule s2 (PyStr.range 0 (pageNb + 1) 1) ->
  main s1 = Ok (rows1, sorted1, n1, m1) -> main s2 = Ok (rows2, sorted2, n2, m2) ->
  n1 = n2 /\ m1 = m2 /\ map Dedup.notary_key sorted1 = map Dedup.notary_key sorted2.
Proof. apply main_schedule_eq. Qed.


Lemma main_schedule_witness :
  exists rows1 sorted1 rows2 sorted2,
    @main (table_web test_pages) sched_rev = Ok (rows1, sorted1, 6, 5) /\
    @main (table_web test_pages) sched_fwd = Ok (rows2, sorted2, 6, 5) /\
    (6 = 6 /\ 5 = 5 /\ map Dedup.notary_key sorted1 = map Dedup.notary_key sorted2).
Proof.
  do 4 eexists. split; [vm_compute; reflexivity|]. split; [vm_compute; reflexivity|].
  eapply (@main_schedule (table_web test_pages) sched_rev sched_fwd);
    try (apply (bool_decide_eq_true_1 _)); vm_compute; reflexivity.
Defined.


End Crawl.
