(* ===== verification/Fetch.v ===== *)
(** What [main] does with the responses it fetches and how much it
    gathers (asyncNotary.py lines 15-17 and 138-162).

    [swoup] parses the body of every response: aiohttp's [session.get]
    does not raise for an error status ([raise_for_status] is off by
    default), so a 404 or 500 page is parsed as HTML like any other. The
    spec (section 7) lists a non-2xx response among the fatal transport
    failures; in the code the run goes on with whatever the error page
    holds. [main] depends on the web only through the bodies of the
    responses and whether the request failed.

    Counting: under a valid schedule each listing page contributes one
    record per card; deduplication keeps between one and that many; the
    clean-up keeps at most one row per kept record, and every row written
    comes from a kept record with no NA string left. *)

From S2P Require Import Prelude PyStr Phone Notary Dedup Html HtmlParse Extract Csv Crawl.
From stdpp Require Import base list list_numbers decidable.

Module Fetch.

Import Notary Html Crawl.

(** What a response gives [swoup]: the body, or a failure. *)
Definition body_of `{!Web} (url : pystr) : option pystr := snd <$> http_get url.

(** A server's error page: no field of a detail page. *)
Definition not_found : node :=
  Element (py "[document]") [] [Element (py "h1") [] [Text (py "404 Not Found")]].

Definition d5 : pystr := baseUrl ++ py "/d/5".

(** The test site of [Crawl] where [/d/5] answers 404 with an error page. *)
Definition site_404 : list (pystr * node) :=
  filter (fun kv => kv.1 <> d5) test_pages ++ [(d5, not_found)].

Definition status_404 (url : pystr) : nat := if bool_decide (url = d5) then 404 else 200.

(** What [swoup] makes of a URL: the parsed body, or a failure. *)
Definition doc_of `{!Web} (url : pystr) : option node := parse_html <$> body_of url.

(** The number of records the listing pages ask for. *)
Definition cards_total `{!Web} (pages : list nat) : nat := sum_list_with cards_on pages.

(** * Lemmas *)

Section Ext.

Context (W1 W2 : Web).
Hypothesis Hdoc : forall url, @doc_of W1 url = @doc_of W2 url.

Lemma swoup_doc `{!Web} url : swoup url = match doc_of url with Some d => Ok d | None => Err TransportError end.
Proof. unfold swoup, doc_of, body_of. by destruct http_get as [[]|]. Qed.

Lemma swoup_ext url : @swoup W1 url = @swoup W2 url.
Proof. by rewrite !swoup_doc, Hdoc. Qed.

Lemma get_endpoints_ext o cards : @get_endpoints W1 o cards = @get_endpoints W2 o cards.
Proof.
  unfold get_endpoints. destruct (res_all (map card_link cards)) as [links|]; [|done].
  cbn [mbind res_bind]. by erewrite map_ext by (intros; apply swoup_ext).
Qed.

Lemma crawl_page_ext o page acc : @crawl_page W1 o page acc = @crawl_page W2 o page acc.
Proof.
  unfold crawl_page. rewrite swoup_ext.
  destruct (@swoup W2 _) as [soup|]; cbn [mbind res_bind]; [|done]. by rewrite get_endpoints_ext.
Qed.

Lemma crawl_pages_ext sched pages acc :
  @crawl_pages W1 sched pages acc = @crawl_pages W2 sched pages acc.
Proof.
  revert acc; induction pages as [|page pages IH]; intros acc; [done|]. simpl.
  rewrite crawl_page_ext. destruct (@crawl_page W2 _ _ _); [apply IH|done].
Qed.

Lemma main_ext sched : @main W1 sched = @main W2 sched.
Proof. unfold main. by rewrite crawl_pages_ext. Qed.

End Ext.

Lemma doc_of_body (W1 W2 : Web) :
  (forall url, @body_of W1 url = @body_of W2 url) -> (forall t, @parse_html W1 t = @parse_html W2 t) ->
  forall url, @doc_of W1 url = @doc_of W2 url.
Proof. intros Hb Hp url. unfold doc_of. rewrite Hb. destruct (@body_of W2 url); simpl; [by rewrite Hp|done]. Qed.

Section Count.

Context `{!Web}.

Lemma crawl_page_length o page acc acc' :
  o ≡ₚ seq 0 (cards_on page) -> crawl_page o page acc = Ok acc' ->
  length acc' = length acc + cards_on page.
Proof.
  intros Ho. unfold crawl_page, cards_on, get_endpoints in *.
  destruct (swoup (page_url page)) as [soup|]; cbn [mbind res_bind]; [|discriminate].
  destruct (res_all (map card_link _)) as [links|] eqn:El; cbn [mbind res_bind]; [|discriminate].
  destruct (res_all (map (fun link => swoup (baseUrl ++ link)) links)) as [soups|] eqn:Es;
    cbn [mbind res_bind]; [|discriminate].
  intros Hr. inv_bind Hr. injection Hr as <-.
  apply res_all_length in El, Es, Ha. rewrite length_map in El, Es, Ha.
  rewrite <- El, <- Es in Ho. rewrite length_app, Ha.
  rewrite (Permutation_length (as_completed_Permutation _ _ Ho)).
  by rewrite Es, El.
Qed.

Lemma crawl_pages_length sched pages acc ns :
  valid_schedule sched pages -> crawl_pages sched pages acc = Ok ns ->
  length ns = length acc + cards_total pages.
Proof.
  unfold cards_total. intros V. revert acc.
  induction V as [|page pages Hp V IH]; intros acc; simpl.
  - intros [= <-]. lia.
  - intros Hr. inv_bind Hr. rewrite (IH _ Hr), (crawl_page_length _ _ _ _ Hp Ha). lia.
Qed.

End Count.

(** * Properties *)

(** C16: [main] never looks at the status code of a response: two webs
    that give the same bodies (and fail on the same URLs) and parse alike
    give the same run, so an error page is processed like a 200 page. *)
Theorem main_status_blind (W1 W2 : Web) sched :
  (forall url, @body_of W1 url = @body_of W2 url) ->
  (forall t, @parse_html W1 t = @parse_html W2 t) ->
  @main W1 sched = @main W2 sched.
Proof. intros Hb Hp. apply main_ext, doc_of_body; assumption. Qed.

Lemma main_status_blind_witness :
  @main (table_web_status status_404 site_404) sched_fwd = @main (table_web site_404) sched_fwd.
Proof.
  apply main_status_blind; [|done].
  intros url. unfold body_of; cbn [http_get table_web table_web_status].
  by destruct (site_lookup site_404 url).
Defined.

(** C14: the counts of a successful run are bounded by the listing pages:
    under a valid schedule the number of records crawled is exactly the
    number of cards, at least one and at most that many records are kept,
    and notaries.csv has at most one row per kept record. *)
Theorem main_counts `{!Web} sched rows sorted n m :
  valid_schedule sched (PyStr.range 0 (pageNb + 1) 1) ->
  main sched = Ok (rows, sorted, n, m) ->
  n = cards_total (PyStr.range 0 (pageNb + 1) 1) /\ 1 <= m <= n /\ length rows <= m.
Proof.
  intros V (ns & Hc & Hs & Hr & -> & ->)%main_Ok_inv.
  pose proof (crawl_pages_length _ _ _ _ V Hc) as Hn.
  destruct (Dedup.sort_notaries_length_le _ _ Hs) as [Hle _].
  apply Csv.remove_empty_rows_Ok in Hr as Hrows.
  assert (length sorted <> 0) by (destruct sorted; [discriminate Hr|done]).
  split; [done|]. split; [lia|].
  rewrite Hrows, <- (Csv.format_notary_length sorted). apply Csv.drop_empty_rows_length_le.
Qed.

Lemma main_counts_witness :
  exists rows sorted,
    @main (table_web test_pages) sched_fwd = Ok (rows, sorted, 6, 5) /\
    6 = @cards_total (table_web test_pages) (PyStr.range 0 (pageNb + 1) 1) /\ 1 <= 5 <= 6 /\ length rows <= 5.
Proof.
  do 2 eexists. split; [vm_compute; reflexivity|].
  eapply (@main_counts (table_web test_pages) sched_fwd);
    [apply (bool_decide_eq_true_1 _); vm_compute; reflexivity|vm_compute; reflexivity].
Defined.

(** C15: every row of notaries.csv comes from a kept record: it has the
    record's five fields in the order name, mail, phone, website,
    address, each one copied or blanked; no field is a pandas NA string
    (those are written back empty), and one field is not one, so no row
    is empty. *)
Theorem main_rows_clean `{!Web} sched rows sorted n m out :
  main sched = Ok (rows, sorted, n, m) -> out ∈ rows ->
  (exists x, x ∈ sorted /\ Forall2 (fun o f => o = f \/ o = []) out
     [Notary.get_name x; Notary.get_mail x; Notary.get_phone x; Notary.get_website x; Notary.get_address x]) /\
  Forall (fun f => f = [] \/ f ∉ Csv.na_values) out /\ Exists (fun f => f ∉ Csv.na_values) out.
Proof.
  intros (ns & _ & _ & Hr & _ & _)%main_Ok_inv Hout.
  apply Csv.remove_empty_rows_Ok in Hr as ->.
  split; [|by apply (Csv.drop_empty_rows_clean _ _ Hout)].
  destruct (Csv.drop_empty_rows_fields _ _ Hout) as (r & Hr & Hf).
  destruct (Csv.format_notary_fields _ _ Hr) as (x & Hx & Hfx). rewrite Hfx in Hf. eauto.
Qed.

Lemma main_rows_clean_witness :
  exists rows sorted out,
    @main (table_web test_pages) sched_fwd = Ok (rows, sorted, 6, 5) /\ out ∈ rows /\
    (exists x, x ∈ sorted /\ Forall2 (fun o f => o = f \/ o = []) out
       [Notary.get_name x; Notary.get_mail x; Notary.get_phone x; Notary.get_website x; Notary.get_address x]) /\
    Forall (fun f => f = [] \/ f ∉ Csv.na_values) out /\ Exists (fun f => f ∉ Csv.na_values) out.
Proof.
  do 3 eexists. split; [vm_compute; reflexivity|]. split; [constructor|].
  eapply (main_rows_clean (H := table_web test_pages) sched_fwd); [vm_compute; reflexivity|constructor].
Defined.

End Fetch.
