(* ===== verification/Loop.v ===== *)
(** The page loop of [main] (asyncNotary.py lines 140-153) as a
    transition system. A state is the loop in progress (the pages still
    to visit and the list [notaries] built so far), or the loop left
    normally, or an exception that escaped from an iteration. One
    transition is one iteration of [for page in range(0, pageNb + 1)]:
    [crawl_page] of [Crawl] on the next page.

    The lemmas relate the relation to the loop function [crawl_pages]
    (a refinement in both directions) and show that every run reaches a
    final state within [length pages + 1] transitions; the theorems show
    that every reachable state holds only well-formed records (a phone field that
    is empty or formatted, a website that is empty or starts with
    "http"); from there, every record [main] returns is well formed. *)

From S2P Require Import Prelude PyStr Phone Notary Dedup Html Extract Csv Crawl.
From stdpp Require Import base list relations.

Module Loop.

Import Notary Crawl.

Inductive cstate :=
  | Running (pages : list nat) (notaries : list notary)
  | Finished (notaries : list notary)
  | Crashed (e : exc).

Definition final (st : cstate) : bool :=
  match st with Running _ _ => false | Finished _ | Crashed _ => true end.

(** A record as the extractors can build it. *)
Definition notary_wf (n : notary) : bool :=
  Phone.phone_wf (phone n) && Extract.website_wf (website n).

(** What the rest of the loop computes from a state. *)
Definition run_of `{!Web} (sched : nat -> list nat) (st : cstate) : res (list notary) :=
  match st with
  | Running pages acc => crawl_pages sched pages acc
  | Finished acc => Ok acc
  | Crashed e => Err e
  end.

Section WithWeb.

Context `{W : Web} (sched : nat -> list nat).

(** One iteration of the loop, or leaving it. *)
Definition next (st : cstate) : option cstate :=
  match st with
  | Running [] acc => Some (Finished acc)
  | Running (page :: pages) acc =>
      Some (match crawl_page (sched page) page acc with
            | Ok acc' => Running pages acc'
            | Err e => Crashed e
            end)
  | Finished _ | Crashed _ => None
  end.

Inductive step : cstate -> cstate -> Prop :=
  | step_page page pages acc acc' :
      crawl_page (sched page) page acc = Ok acc' ->
      step (Running (page :: pages) acc) (Running pages acc')
  | step_crash page pages acc e :
      crawl_page (sched page) page acc = Err e ->
      step (Running (page :: pages) acc) (Crashed e)
  | step_done acc :
      step (Running [] acc) (Finished acc).

(** The states of the loop of [main]. *)
Definition reachable (st : cstate) : Prop :=
  rtc step (Running (PyStr.range 0 (pageNb + 1) 1) []) st.

(** The records gathered so far are well formed. *)
Definition inv (st : cstate) : Prop :=
  match st with
  | Running _ acc | Finished acc => Forall (fun n => notary_wf n = true) acc
  | Crashed _ => True
  end.

End WithWeb.

(** * Lemmas *)

Section Lemmas.

Context `{W : Web} (sched : nat -> list nat).

Lemma step_next st st' : step sched st st' <-> next sched st = Some st'.
Proof.
  split.
  - destruct 1 as [? ? ? ? E|? ? ? ? E|]; simpl; rewrite ?E; done.
  - destruct st as [[|page pages] acc| |]; simpl; intros [= <-]; [constructor|].
    destruct (crawl_page _ _ _) eqn:E; by constructor.
Qed.

Lemma step_det st s1 s2 : step sched st s1 -> step sched st s2 -> s1 = s2.
Proof. rewrite !step_next. congruence. Qed.

(** A non-final state can always take a step, a final one never. *)
Lemma final_nf st : final st = true <-> nf (step sched) st.
Proof.
  split.
  - intros Hf [st' Hs]. by destruct Hs.
  - destruct st as [[|page pages] acc| |]; [..|done|done]; intros Hnf; exfalso; apply Hnf.
    + eexists. constructor.
    + eexists. apply step_next. reflexivity.
Qed.

Lemma step_run st st' : step sched st st' -> run_of sched st = run_of sched st'.
Proof. destruct 1 as [? ? ? ? E|? ? ? ? E|]; simpl; rewrite ?E; done. Qed.

Lemma rtc_run st st' : rtc (step sched) st st' -> run_of sched st = run_of sched st'.
Proof. induction 1 as [|? ? ? Hs _ IH]; [done|]. by rewrite (step_run _ _ Hs). Qed.

(** Every state reaches a final state in at most [length pages + 1]
    transitions. *)
Lemma running_reaches_final pages acc :
  exists n st, n <= S (length pages) /\ nsteps (step sched) n (Running pages acc) st /\
               final st = true.
Proof.
  revert acc; induction pages as [|page pages IH]; intros acc.
  - exists 1, (Finished acc). split; [done|]. split; [|done].
    eapply nsteps_l; [constructor|apply nsteps_O].
  - destruct (crawl_page (sched page) page acc) as [acc'|e] eqn:E.
    + destruct (IH acc') as (n & st & Hn & Hs & Hf). exists (S n), st.
      split; [simpl; lia|]. split; [|done]. eapply nsteps_l; [by constructor|done].
    + exists 1, (Crashed e). split; [simpl; lia|]. split; [|done].
      eapply nsteps_l; [by constructor|apply nsteps_O].
Qed.

Lemma crawl_pages_final pages acc :
  exists st, rtc (step sched) (Running pages acc) st /\ final st = true /\
             run_of sched st = crawl_pages sched pages acc.
Proof.
  destruct (running_reaches_final pages acc) as (n & st & _ & Hs & Hf).
  apply rtc_nsteps_2 in Hs. exists st. split; [done|]. split; [done|].
  symmetry. apply (rtc_run _ _ Hs).
Qed.

(** [extract_notary] builds well-formed records. *)
Lemma extract_notary_wf e n : extract_notary e = Ok n -> notary_wf n = true.
Proof.
  unfold extract_notary. intros H.
  repeat (let Hx := fresh "Hx" in inv_bind H).
  injection H as <-. unfold notary_wf; simpl.
  apply andb_true_intro. split; [by eapply Extract.get_phone_wf|by eapply Extract.get_website_wf].
Qed.

Lemma crawl_page_wf o page acc acc' :
  crawl_page o page acc = Ok acc' ->
  Forall (fun n => notary_wf n = true) acc -> Forall (fun n => notary_wf n = true) acc'.
Proof.
  unfold crawl_page. intros H Hacc.
  inv_bind H. inv_bind H. inv_bind H. injection H as <-.
  apply Forall_app. split; [done|].
  apply res_all_Ok in Ha1. apply Forall_forall. intros n Hn.
  assert (Ok n ∈ map extract_notary a0) as Hin by (rewrite Ha1; by apply list_elem_of_fmap_2).
  apply list_elem_of_fmap in Hin as (e & He & _). by apply (extract_notary_wf e).
Qed.

Lemma step_inv st st' : step sched st st' -> inv st -> inv st'.
Proof. destruct 1 as [? ? ? ? E|? ? ? ? E|]; simpl; [intros; by eapply crawl_page_wf|done|done]. Qed.

Lemma rtc_inv st st' : rtc (step sched) st st' -> inv st -> inv st'.
Proof. induction 1 as [|? ? ? Hs _ IH]; [done|]. intros H. by apply IH, (step_inv _ _ Hs). Qed.

Lemma crawl_pages_rtc pages acc r :
  crawl_pages sched pages acc = r ->
  exists st, rtc (step sched) (Running pages acc) st /\ final st = true /\ run_of sched st = r.
Proof. intros <-. apply crawl_pages_final. Qed.

Lemma crawl_pages_Ok_rtc pages acc ns :
  crawl_pages sched pages acc = Ok ns -> rtc (step sched) (Running pages acc) (Finished ns).
Proof.
  intros (st & Hs & Hf & Hr)%crawl_pages_rtc.
  destruct st as [| ns' |]; simpl in Hf, Hr; try done. by injection Hr as ->.
Qed.

Lemma crawl_pages_inv pages acc ns :
  crawl_pages sched pages acc = Ok ns ->
  Forall (fun n => notary_wf n = true) acc -> Forall (fun n => notary_wf n = true) ns.
Proof. intros Hc%crawl_pages_Ok_rtc Hacc. exact (rtc_inv _ _ Hc Hacc). Qed.

End Lemmas.

(** * Properties *)

(** C9: every state the loop of [main] reaches holds only well-formed
    records: each phone field is empty or a formatted number, each
    website is empty or starts with "http". *)
Theorem loop_invariant `{W : Web} sched st : reachable sched st -> inv st.
Proof. intros Hr. apply (rtc_inv _ _ _ Hr). constructor. Qed.

Lemma loop_invariant_witness :
  exists ns, @crawl_pages (table_web test_pages) sched_fwd (PyStr.range 0 (pageNb + 1) 1) [] = Ok ns /\
             inv (Finished ns).
Proof.
  eexists. split; [vm_compute; reflexivity|].
  apply (loop_invariant (W := table_web test_pages) sched_fwd).
  apply crawl_pages_Ok_rtc. vm_compute. reflexivity.
Defined.

(** C10: the output of [main] is well typed in the sense of the
    extractors: every record it keeps is well formed, and every row of
    notaries.csv has a phone column (the third) that is empty or a
    formatted number. *)
Theorem main_wf `{W : Web} sched rows sorted n m :
  main sched = Ok (rows, sorted, n, m) ->
  Forall (fun x => notary_wf x = true) sorted /\
  Forall (fun out => exists ph, out !! 2 = Some ph /\ Phone.phone_wf ph = true) rows.
Proof.
  intros (ns & Hc & Hsort & Hr & _ & _)%main_Ok_inv.
  apply Csv.remove_empty_rows_Ok in Hr as ->.
  assert (Forall (fun x => notary_wf x = true) sorted) as Hs.
  { pose proof (crawl_pages_inv _ _ _ _ Hc (Forall_nil_2 _)) as Hns.
    rewrite Forall_forall in Hns |- *. intros x Hx.
    by apply Hns, (Dedup.sort_notaries_sub _ _ Hsort). }
  split; [done|]. apply Forall_forall. intros out (r & Hr & Hf)%Csv.drop_empty_rows_fields.
  destruct (Forall2_lookup_r _ _ _ 2 (Csv.r_phone r) Hf) as (ph & Hph & Hor); [done|].
  exists ph. split; [done|].
  destruct (Csv.format_notary_elem _ _ Hr) as (x & Hx & Hxp).
  rewrite Forall_forall in Hs. specialize (Hs x Hx). apply andb_prop in Hs as [Hp _].
  destruct Hor as [-> | ->]; [by rewrite Hxp|done].
Qed.

Lemma main_wf_witness :
  exists rows sorted, @main (table_web test_pages) sched_fwd = Ok (rows, sorted, 6, 5) /\
    Forall (fun x => notary_wf x = true) sorted /\
    Forall (fun out => exists ph, out !! 2 = Some ph /\ Phone.phone_wf ph = true) rows.
Proof.
  do 2 eexists. split; [vm_compute; reflexivity|].
  eapply (main_wf (W := table_web test_pages) sched_fwd). vm_compute. reflexivity.
Defined.

End Loop.
