(* ===== verification/Script.v ===== *)
(** The top level of asyncNotary.py (lines 155-169): the event-loop
    policy set before running [main] (line 165), [asyncio.run(main())]
    (line 166) with the file [main] writes and rewrites (lines 155-159,
    132-135, on the text of notaries.csv as [CsvFile] models it) and the
    two summary lines it prints (lines 161-162), and the elapsed-time line
    (line 169). When [remove_empty_rows] raises, the file written at line
    158 stays on disk.

    [asyncio.WindowsSelectorEventLoopPolicy] exists only in the Windows
    build of asyncio: on any other platform the attribute lookup raises
    [AttributeError] before [main] starts. The wall-clock reading of
    [time.time()] is not modelled: the text of [end_time - start_time] is
    an argument ([elapsed]). The progress bar of [tqdm] goes to stderr
    and is not part of the outcome. *)

From S2P Require Import Prelude PyStr Phone Notary Dedup Html Extract Csv CsvFile Crawl.
From stdpp Require Import base list.

Module Script.

Import Crawl.

Inductive platform := Windows | Posix.

(** What a run leaves behind: the lines printed on stdout, the text of
    notaries.csv when it was written, and the exception that ended the
    run, if any. *)
Record outcome := mkOutcome {
  stdout : list pystr;
  csv_file : option pystr;
  error : option exc
}.

(** [os.linesep] on Windows, the line terminator of [to_csv]. *)
Definition crlf : pystr := [CsvFile.cr; CsvFile.lf].

(** [print(f"Nombre de notaires : {len(notaries)}")] and
    [print(f"Nombre de notaires après le tri : {len(sorted_notaries)}")];
    the accented letter is code point 232. *)
Definition count_prefix : pystr := py "Nombre de notaires : ".
Definition sorted_prefix : pystr := py "Nombre de notaires apr" ++ [232%N] ++ py "s le tri : ".

Definition report (n m : nat) : list pystr :=
  [count_prefix ++ PyStr.str n; sorted_prefix ++ PyStr.str m].

(** [print(f"Temps d'exécution : {end_time - start_time}")] *)
Definition elapsed_line (elapsed : pystr) : pystr :=
  py "Temps d'ex" ++ [233%N] ++ py "cution : " ++ elapsed.

(** [asyncio.set_event_loop_policy(asyncio.WindowsSelectorEventLoopPolicy())] *)
Definition set_event_loop_policy (p : platform) : res unit :=
  match p with
  | Windows => Ok tt
  | Posix => Err AttributeError
  end.

(** Lines 164-169, with the end of [main] (lines 155-162) on the text
    of notaries.csv. *)
Definition script `{!Web} (p : platform) (sched : nat -> list nat) (elapsed : pystr) : outcome :=
  match set_event_loop_policy p with
  | Err e => mkOutcome [] None (Some e)
  | Ok _ =>
      match crawl_pages sched (PyStr.range 0 (pageNb + 1) 1) [] with
      | Err e => mkOutcome [] None (Some e)
      | Ok notaries =>
          match Dedup.sort_notaries notaries with
          | Err e => mkOutcome [] None (Some e)
          | Ok sorted_notaries =>
              let written := CsvFile.notaries_csv crlf (Csv.format_notary sorted_notaries) in
              match CsvFile.remove_empty_rows_file crlf written with
              | Err e => mkOutcome [] (Some written) (Some e)
              | Ok t =>
                  mkOutcome (report (length notaries) (length sorted_notaries) ++ [elapsed_line elapsed])
                    (Some t) None
              end
          end
      end
  end.

(** * Lemmas *)

Lemma str_value n : PyStr.decimal_value (PyStr.str n) = n.
Proof. apply PyStr.str_fuel_value. lia. Qed.

Lemma crlf_eol : crlf = [CsvFile.lf] \/ crlf = [CsvFile.cr; CsvFile.lf].
Proof. by right. Qed.

(** On Windows the script runs [main]: its outcome when [main] returns. *)
Lemma script_windows_Ok `{!Web} sched elapsed rows sorted n m :
  main sched = Ok (rows, sorted, n, m) ->
  script Windows sched elapsed =
    mkOutcome (report n m ++ [elapsed_line elapsed]) (Some (CsvFile.write_csv crlf CsvFile.columns rows)) None.
Proof.
  intros (ns & Hc & Hs & Hr & -> & ->)%main_Ok_inv. unfold script. cbn [set_event_loop_policy].
  rewrite Hc, Hs. cbv zeta. rewrite CsvFile.remove_empty_rows_file_eq, Hr by apply crlf_eol. done.
Qed.

(** ... and the exception when [main] raises. *)
Lemma script_windows_Err `{!Web} sched elapsed e :
  main sched = Err e -> error (script Windows sched elapsed) = Some e.
Proof.
  unfold main, script. cbn [set_event_loop_policy].
  destruct (crawl_pages _ _ _) as [ns|]; cbn [mbind res_bind]; [|by intros [= ->]].
  destruct (Dedup.sort_notaries ns) as [sorted|]; cbn [mbind res_bind]; [|by intros [= ->]].
  cbv zeta. rewrite CsvFile.remove_empty_rows_file_eq by apply crlf_eol.
  destruct (Csv.remove_empty_rows _); cbn [mbind res_bind]; by intros [= ->].
Qed.

(** * Properties *)



(** C19: on Windows, when [main] succeeds the script ends without an
    exception and prints exactly three lines; the two counts printed read
    back, as decimal numbers, as the number of records crawled and the
    number kept. *)
Theorem script_report `{!Web} sched elapsed rows sorted n m :
  main sched = Ok (rows, sorted, n, m) ->
  exists l1 l2,
    stdout (script Windows sched elapsed) = [count_prefix ++ l1; sorted_prefix ++ l2; elapsed_line elapsed] /\
    PyStr.decimal_value l1 = n /\ PyStr.decimal_value l2 = m /\
    error (script Windows sched elapsed) = None.
Proof.
  intros Hm. rewrite (script_windows_Ok _ _ _ _ _ _ Hm).
  exists (PyStr.str n), (PyStr.str m). by rewrite !str_value.
Qed.

Lemma script_report_witness :
  exists rows sorted,
    @main (table_web test_pages) sched_fwd = Ok (rows, sorted, 6, 5) /\
    exists l1 l2,
      stdout (@script (table_web test_pages) Windows sched_fwd (py "1.5")) =
        [count_prefix ++ l1; sorted_prefix ++ l2; elapsed_line (py "1.5")] /\
      PyStr.decimal_value l1 = 6 /\ PyStr.decimal_value l2 = 5 /\
      error (@script (table_web test_pages) Windows sched_fwd (py "1.5")) = None.
Proof.
  do 2 eexists. split; [vm_compute; reflexivity|].
  eapply (@script_report (table_web test_pages) sched_fwd (py "1.5")). vm_compute. reflexivity.
Defined.

(** What the script prints does not depend on the order in which
    detail pages complete, whenever the runs succeed: the counts are the
    same under every valid schedule. *)
Lemma script_schedule `{!Web} s1 s2 elapsed :
  valid_schedule s1 (PyStr.range 0 (pageNb + 1) 1) ->
  valid_schedule s2 (PyStr.range 0 (pageNb + 1) 1) ->
  error (script Windows s1 elapsed) = None -> error (script Windows s2 elapsed) = None ->
  stdout (script Windows s1 elapsed) = stdout (script Windows s2 elapsed).
Proof.
  intros V1 V2.
  destruct (main s1) as [[[[rows1 sorted1] n1] m1]|e1] eqn:H1;
    [|intros E; rewrite (script_windows_Err _ _ _ H1) in E; discriminate].
  destruct (main s2) as [[[[rows2 sorted2] n2] m2]|e2] eqn:H2;
    [|intros _ E; rewrite (script_windows_Err _ _ _ H2) in E; discriminate].
  intros _ _. rewrite (script_windows_Ok _ _ _ _ _ _ H1), (script_windows_Ok _ _ _ _ _ _ H2). simpl.
  destruct (main_schedule_eq s1 s2 _ _ _ _ _ _ _ _ V1 V2 H1 H2) as (-> & -> & _). done.
Qed.

Lemma script_schedule_witness :
  stdout (@script (table_web test_pages) Windows sched_rev (py "1.5")) =
  stdout (@script (table_web test_pages) Windows sched_fwd (py "1.5")).
Proof.
  apply (@script_schedule (table_web test_pages));
    try (apply (bool_decide_eq_true_1 _)); vm_compute; reflexivity.
Defined.

(** C18: the file the script leaves is the one the pandas pipeline of
    lines 157-159 and 132-135 produces from the sorted records, and
    reading it back gives the header [name,mail,phone,website,address]
    and exactly the rows [main] computed. *)
Theorem script_file `{!Web} sched elapsed rows sorted n m :
  main sched = Ok (rows, sorted, n, m) ->
  exists t, csv_file (script Windows sched elapsed) = Some t /\
    CsvFile.remove_empty_rows_file crlf (CsvFile.notaries_csv crlf (Csv.format_notary sorted)) = Ok t /\
    CsvFile.tokenize t = Ok (CsvFile.columns :: rows).
Proof.
  intros Hm. rewrite (script_windows_Ok _ _ _ _ _ _ Hm). eexists. split; [done|].
  destruct (main_Ok_inv _ _ _ _ _ Hm) as (ns & _ & _ & Hr & _).
  rewrite CsvFile.remove_empty_rows_file_eq, Hr by apply crlf_eol. split; [done|].
  apply CsvFile.tokenize_write_columns; [apply crlf_eol|].
  apply Csv.remove_empty_rows_Ok in Hr as ->. apply CsvFile.drop_empty_rows_length.
Qed.

Lemma script_file_witness :
  exists rows sorted,
    @main (table_web test_pages) sched_fwd = Ok (rows, sorted, 6, 5) /\
    exists t, csv_file (@script (table_web test_pages) Windows sched_fwd (py "1.5")) = Some t /\
      CsvFile.remove_empty_rows_file crlf (CsvFile.notaries_csv crlf (Csv.format_notary sorted)) = Ok t /\
      CsvFile.tokenize t = Ok (CsvFile.columns :: rows).
Proof.
  do 2 eexists. split; [vm_compute; reflexivity|].
  eapply (@script_file (table_web test_pages) sched_fwd (py "1.5")). vm_compute. reflexivity.
Defined.

End Script.
